(** * Warehouse inventory: a shallow embedding of [amazon_inventory.py]

    The development follows the Python module function by function.
    Python strings are modelled as [string] (characters are the code
    points below 256); a cell of an inventory row holds a string or
    [None]; a row is a dictionary from field names to cells; the list
    object a caller passes as [data] lives in a heap so that in-place
    mutation ([list.append], item assignment) and rebinding of a local
    name can be told apart.  The file, the terminal, the Faker instance
    and the clock are components of an explicit world. *)

From Stdlib Require Import Ascii String List ZArith NArith Lia Bool Sorted Permutation.
From stdpp Require Import base option gmap strings list pretty.

Local Open Scope string_scope.
Local Open Scope list_scope.

(** ** Python values *)

(** The control characters the code writes or tests for. *)
Definition LF : ascii := ascii_of_nat 10.
Definition CR : ascii := ascii_of_nat 13.
Definition nl : string := String LF EmptyString.
Definition cr : string := String CR EmptyString.

(** What a cell of a row, or a scalar argument of a call, can hold on
    the paths through [main.py]: text typed by the operator or read from
    the file, or [None]. *)
Inductive value :=
  | VNone
  | VStr (s : string).

Global Instance value_eq_dec : EqDecision value.
Proof. solve_decision. Defined.

(** [str(v)] as used by [print] and f-strings without a format spec. *)
Definition py_str (v : value) : string :=
  match v with
  | VNone => "None"
  | VStr s => s
  end.

(** The exceptions that the modelled code can raise. *)
Inductive exn :=
  | FileNotFoundError
  | KeyError (k : string)
  | AttributeError
  | TypeError
  | ValueError
  | csv_Error.

(** A pure computation that may raise. *)
Definition result (A : Type) : Type := exn + A.

Definition ok {A} (a : A) : result A := inr a.
Definition raise {A} (e : exn) : result A := inl e.

Definition rbind {A B} (r : result A) (k : A -> result B) : result B :=
  match r with
  | inl e => inl e
  | inr a => k a
  end.

Fixpoint rmap {A B} (f : A -> result B) (l : list A) : result (list B) :=
  match l with
  | [] => ok []
  | a :: l' =>
      rbind (f a) (fun b => rbind (rmap f l') (fun bs => ok (b :: bs)))
  end.

(** ** Rows

    A row is a Python [dict].  Its string keys map to cells; the entry
    that [csv.DictReader] files under the key [None] (its [restkey]) for
    the surplus values of a long line is kept apart in [rest]. *)
Record dict := Dict {
  cells : gmap string value;
  rest : option (list string)
}.

Global Instance dict_eq_dec : EqDecision dict.
Proof. solve_decision. Defined.

(** [d[k]] *)
Definition getitem (d : dict) (k : string) : result value :=
  match cells d !! k with
  | Some v => ok v
  | None => raise (KeyError k)
  end.

(** [d[k] = v] *)
Definition setitem (d : dict) (k : string) (v : value) : dict :=
  Dict (<[k := v]> (cells d)) (rest d).

(** [d.get(k, default)] *)
Definition dict_get (d : dict) (k : string) (default : value) : value :=
  match cells d !! k with
  | Some v => v
  | None => default
  end.

(** ** The world *)

Definition loc := nat.

Record date := Date { year : nat; month : nat; day : nat }.

Record World := mkWorld {
  heap : gmap loc (list dict);   (* list objects, by identity *)
  disk : option string;          (* warehouse_inventory.csv; None when absent *)
  stdout : list string;          (* the strings written to the terminal, in order *)
  fake_tape : nat -> string;     (* the n-th value the Faker instance returns *)
  fake_pos : nat;                (* how many values it has returned *)
  today : date                   (* the calendar date of the clock *)
}.

(** A computation that reads and changes the world and may raise; the
    changes made before an exception stay. *)
Definition M (A : Type) : Type := World -> result A * World.

Definition ret {A} (a : A) : M A := fun w => (ok a, w).
Definition throw {A} (e : exn) : M A := fun w => (raise e, w).
Definition bind {A B} (m : M A) (k : A -> M B) : M B :=
  fun w => match m w with
           | (inl e, w') => (inl e, w')
           | (inr a, w') => k a w'
           end.
Definition lift {A} (r : result A) : M A := fun w => (r, w).

Notation "'do' x <- m ; k" := (bind m (fun x => k))
  (at level 10, x name, m at level 100, k at level 200).
Notation "m ;; k" := (bind m (fun _ => k))
  (at level 100, k at level 200, right associativity).

(** [for x in l: body x] *)
Fixpoint for_each {A} (l : list A) (body : A -> M unit) : M unit :=
  match l with
  | [] => ret tt
  | a :: l' => body a ;; for_each l' body
  end.

(** [sys.stdout.write(s)] and [print(s)] *)
Definition stdout_write (s : string) : M unit :=
  fun w => (ok tt, mkWorld (heap w) (disk w) (stdout w ++ [s]) (fake_tape w) (fake_pos w) (today w)).
Definition print (s : string) : M unit := stdout_write (s ++ nl).

(** ** The [csv] module, excel dialect

    [load_data] and [save_data] go through [csv.DictReader] and
    [csv.DictWriter] with their defaults.  The definitions below follow
    CPython's [Modules/_csv.c] and [Lib/csv.py] for that configuration:
    delimiter [,], quotechar the double quote, doublequote on, no
    escapechar, [QUOTE_MINIMAL], lineterminator CR LF, not strict, and
    the default field size limit. *)
Module csv.

Definition delimiter : ascii := ascii_of_nat 44.
Definition quotechar : ascii := ascii_of_nat 34.
Definition lineterminator : string := String CR (String LF EmptyString).
Definition field_limit : N := 131072.

(** *** Writer *)

(** The characters that make [join_append_data] quote a field. *)
Definition special (c : ascii) : bool :=
  (c =? delimiter)%char || (c =? quotechar)%char
  || (c =? CR)%char || (c =? LF)%char.

(** First pass of [join_append_data]: does the field need quotes? *)
Fixpoint want_quote (field : string) : bool :=
  match field with
  | EmptyString => false
  | String c field' => special c || want_quote field'
  end.

(** Copy phase of [join_append_data]: a quotechar is written twice. *)
Fixpoint copy_data (field : string) : string :=
  match field with
  | EmptyString => EmptyString
  | String c field' =>
      if (c =? quotechar)%char
      then String quotechar (String quotechar (copy_data field'))
      else String c (copy_data field')
  end.

(** [join_append]: add one field to the record buffer [rec], which
    already holds [num_fields] fields. *)
Definition join_append (rec : string) (num_fields : nat) (field : string)
    (quoted : bool) : string :=
  let quoted := quoted || want_quote field in
  let sep := if (0 <? num_fields)%nat then String delimiter EmptyString else EmptyString in
  let q := if quoted then String quotechar EmptyString else EmptyString in
  rec ++ sep ++ q ++ copy_data field ++ q.

(** How the writer turns a cell into text: [None] is written as the
    empty field. *)
Definition field_text (v : value) : string :=
  match v with
  | VNone => EmptyString
  | VStr s => s
  end.

(** [join_reset] followed by the loop of [csv_writerow] over the fields. *)
Fixpoint join_fields (rec : string) (num_fields : nat) (row : list value)
    : string * nat :=
  match row with
  | [] => (rec, num_fields)
  | v :: row' =>
      join_fields (join_append rec num_fields (field_text v) false)
                  (S num_fields) row'
  end.

(** [writer.writerow(row)]: the line handed to [file.write]. *)
Definition writerow (row : list value) : string :=
  let '(rec, num_fields) := join_fields EmptyString 0 row in
  let rec := if (0 <? num_fields)%nat && (String.length rec =? 0)%nat
             then join_append EmptyString 0 EmptyString true
             else rec in
  rec ++ lineterminator.

(** [DictWriter._dict_to_list] with [extrasaction="raise"] and
    [restval=""]. *)
Definition dict_to_list (fieldnames : list string) (rowdict : dict)
    : result (list value) :=
  if bool_decide (rest rowdict = None)
     && forallb (fun k => bool_decide (k ∈ fieldnames))
                (map fst (map_to_list (cells rowdict)))
  then ok (map (fun key => dict_get rowdict key (VStr EmptyString)) fieldnames)
  else raise ValueError.

(** [dict(zip(keys, vals))]: a later pair wins over an earlier one. *)
Definition dict_zip (keys : list string) (vals : list value) : gmap string value :=
  fold_left (fun m kv => <[kv.1 := kv.2]> m) (zip keys vals) ∅.

(** *** Reader *)

Inductive ParserState :=
  | START_RECORD
  | START_FIELD
  | IN_FIELD
  | IN_QUOTED_FIELD
  | QUOTE_IN_QUOTED_FIELD
  | EAT_CRNL.

Global Instance ParserState_eq_dec : EqDecision ParserState.
Proof. solve_decision. Defined.

(** The reader object: the parser state, the fields of the record being
    read, and the buffer of the field being read (last character first)
    with its length. *)
Record ReaderObj := Reader {
  state : ParserState;
  fields : list string;
  field : list ascii;
  field_len : N
}.

(** What [parse_process_char] is fed: a character of the line, or the
    end-of-line mark that follows every line. *)
Inductive input :=
  | Chr (c : ascii)
  | EOL.

Definition parse_reset : ReaderObj := Reader START_RECORD [] [] 0.

Definition set_state (r : ReaderObj) (s : ParserState) : ReaderObj :=
  Reader s (fields r) (field r) (field_len r).

Definition parse_save_field (r : ReaderObj) : ReaderObj :=
  Reader (state r)
         (fields r ++ [string_of_list_ascii (reverse (field r))]) [] 0.

Definition parse_add_char (r : ReaderObj) (c : ascii) : result ReaderObj :=
  if (field_limit <=? field_len r)%N
  then raise csv_Error
  else ok (Reader (state r) (fields r) (c :: field r) (field_len r + 1)).

Definition is_newline (c : ascii) : bool := (c =? LF)%char || (c =? CR)%char.

(** The state the parser takes at the end of a record. *)
Definition after_record (c : input) : ParserState :=
  match c with
  | EOL => START_RECORD
  | Chr _ => EAT_CRNL
  end.

Definition start_field (r : ReaderObj) (c : input) : result ReaderObj :=
  match c with
  | EOL => ok (set_state (parse_save_field r) START_RECORD)
  | Chr a =>
      if is_newline a then ok (set_state (parse_save_field r) EAT_CRNL)
      else if (a =? quotechar)%char then ok (set_state r IN_QUOTED_FIELD)
      else if (a =? delimiter)%char then ok (parse_save_field r)
      else rbind (parse_add_char r a) (fun r' => ok (set_state r' IN_FIELD))
  end.

Definition parse_process_char (r : ReaderObj) (c : input) : result ReaderObj :=
  match state r with
  | START_RECORD =>
      match c with
      | EOL => ok r
      | Chr a =>
          if is_newline a then ok (set_state r EAT_CRNL)
          else start_field (set_state r START_FIELD) c
      end
  | START_FIELD => start_field r c
  | IN_FIELD =>
      match c with
      | EOL => ok (set_state (parse_save_field r) START_RECORD)
      | Chr a =>
          if is_newline a then ok (set_state (parse_save_field r) EAT_CRNL)
          else if (a =? delimiter)%char
               then ok (set_state (parse_save_field r) START_FIELD)
          else parse_add_char r a
      end
  | IN_QUOTED_FIELD =>
      match c with
      | EOL => ok r
      | Chr a =>
          if (a =? quotechar)%char then ok (set_state r QUOTE_IN_QUOTED_FIELD)
          else parse_add_char r a
      end
  | QUOTE_IN_QUOTED_FIELD =>
      match c with
      | EOL => ok (set_state (parse_save_field r) START_RECORD)
      | Chr a =>
          if (a =? quotechar)%char
          then rbind (parse_add_char r a) (fun r' => ok (set_state r' IN_QUOTED_FIELD))
          else if (a =? delimiter)%char
               then ok (set_state (parse_save_field r) START_FIELD)
          else if is_newline a
               then ok (set_state (parse_save_field r) EAT_CRNL)
          else rbind (parse_add_char r a) (fun r' => ok (set_state r' IN_FIELD))
      end
  | EAT_CRNL =>
      match c with
      | EOL => ok (set_state r START_RECORD)
      | Chr a => if is_newline a then ok r else raise csv_Error
      end
  end.

(** Iterating over a text file opened with [newline=""]: the lines end
    at LF, CR or CR LF and keep their terminator.  [cur] holds the part
    of the current line already seen, last character first. *)
Fixpoint readlines_from (cur : list ascii) (text : string) : list string :=
  match text with
  | EmptyString =>
      match cur with
      | [] => []
      | _ => [string_of_list_ascii (reverse cur)]
      end
  | String c text' =>
      if (c =? LF)%char
      then string_of_list_ascii (reverse (c :: cur)) :: readlines_from [] text'
      else if (c =? CR)%char
      then match text' with
           | String c' text'' =>
               if (c' =? LF)%char
               then string_of_list_ascii (reverse (c' :: c :: cur))
                    :: readlines_from [] text''
               else string_of_list_ascii (reverse (c :: cur))
                    :: readlines_from [] text'
           | EmptyString => [string_of_list_ascii (reverse (c :: cur))]
           end
      else readlines_from (c :: cur) text'
  end.

Definition readlines (text : string) : list string := readlines_from [] text.

(** The body of the loop of [Reader_iternext] for one line: its
    characters, then the end-of-line mark. *)
Fixpoint feed_line (r : ReaderObj) (line : string) : result ReaderObj :=
  match line with
  | EmptyString => parse_process_char r EOL
  | String c line' =>
      rbind (parse_process_char r (Chr c)) (fun r' => feed_line r' line')
  end.

(** [list(reader)]: [Reader_iternext] called until the lines run out.
    A record is complete when the parser is back in [START_RECORD]; when
    the lines end inside a record, what was read so far is returned. *)
Fixpoint reader_rows (r : ReaderObj) (lines : list string)
    : result (list (list string)) :=
  match lines with
  | [] =>
      if negb (field_len r =? 0)%N || bool_decide (state r = IN_QUOTED_FIELD)
      then ok [fields (parse_save_field r)]
      else ok []
  | line :: lines' =>
      rbind (feed_line r line) (fun r' =>
        if bool_decide (state r' = START_RECORD)
        then rbind (reader_rows parse_reset lines')
                   (fun rows => ok (fields r' :: rows))
        else reader_rows r' lines')
  end.

(** [DictReader.__next__] for one record: the cells by field name, the
    surplus values under [restkey=None], the missing ones set to
    [restval=None]. *)
Definition make_row (fieldnames : list string) (row : list string) : dict :=
  let d := dict_zip fieldnames (map VStr row) in
  let lf := length fieldnames in
  let lr := length row in
  if (lf <? lr)%nat then Dict d (Some (drop lf row))
  else Dict (fold_left (fun m key => <[key := VNone]> m) (drop lr fieldnames) d) None.

(** [list(csv.DictReader(file))]: the first record is the header, empty
    records are skipped. *)
Definition DictReader_rows (text : string) : result (list dict) :=
  rbind (reader_rows parse_reset (readlines text)) (fun rows =>
    match rows with
    | [] => ok []
    | fieldnames :: rows' =>
        ok (map (make_row fieldnames)
                (filter (fun row => row ≠ []) rows'))
    end).

End csv.

(** ** The [datetime] module: [strptime] with the format [%Y-%m-%d]

    [_strptime] turns the format into the regular expression
    [(?P<Y>\d\d\d\d)-(?P<m>1[0-2]|0[1-9]|[1-9])-(?P<d>3[0-1]|[1-2]\d|0[1-9]|[1-9]| [1-9])],
    matches it at the start of the text, refuses text that is left over,
    and then builds the date, which checks the year and the day of the
    month.  Every refusal is a [ValueError]. *)
Module datetime.

Definition is_digit (c : ascii) : bool :=
  (48 <=? nat_of_ascii c)%nat && (nat_of_ascii c <=? 57)%nat.

Definition digit (c : ascii) : nat := nat_of_ascii c - 48.

Definition in_range (lo hi : nat) (c : ascii) : bool :=
  (48 + lo <=? nat_of_ascii c)%nat && (nat_of_ascii c <=? 48 + hi)%nat.

(** [(?P<Y>\d\d\d\d)] *)
Definition match_Y (s : string) : list (nat * string) :=
  match s with
  | String a (String b (String c (String d s'))) =>
      if is_digit a && is_digit b && is_digit c && is_digit d
      then [(1000 * digit a + 100 * digit b + 10 * digit c + digit d, s')]
      else []
  | _ => []
  end.

(** Two characters, the first in [lo1..hi1], the second in [lo2..hi2]. *)
Definition two_digits (lo1 hi1 lo2 hi2 : nat) (s : string) : list (nat * string) :=
  match s with
  | String a (String b s') =>
      if in_range lo1 hi1 a && in_range lo2 hi2 b
      then [(10 * digit a + digit b, s')]
      else []
  | _ => []
  end.

(** One character in [1..9]. *)
Definition one_digit (s : string) : list (nat * string) :=
  match s with
  | String a s' => if in_range 1 9 a then [(digit a, s')] else []
  | _ => []
  end.

(** A literal character of the pattern. *)
Definition literal (c : ascii) (s : string) : list string :=
  match s with
  | String a s' => if (a =? c)%char then [s'] else []
  | _ => []
  end.

(** [(?P<m>1[0-2]|0[1-9]|[1-9])], the alternatives in their order. *)
Definition match_m (s : string) : list (nat * string) :=
  two_digits 1 1 0 2 s ++ two_digits 0 0 1 9 s ++ one_digit s.

(** [(?P<d>3[0-1]|[1-2]\d|0[1-9]|[1-9]| [1-9])] *)
Definition match_d (s : string) : list (nat * string) :=
  two_digits 3 3 0 1 s ++ two_digits 1 2 0 9 s ++ two_digits 0 0 1 9 s
  ++ one_digit s
  ++ flat_map one_digit (literal " "%char s).

Definition dash : ascii := ascii_of_nat 45.

(** The matches of the whole pattern at the start of [s], in the order
    in which a backtracking matcher finds them: year, month, day and
    the text left over. *)
Definition regex_matches (s : string) : list (nat * nat * nat * string) :=
  flat_map (fun '(y, s1) =>
    flat_map (fun s2 =>
      flat_map (fun '(m, s3) =>
        flat_map (fun s4 =>
          map (fun '(d, s5) => (y, m, d, s5)) (match_d s4))
          (literal dash s3))
        (match_m s2))
      (literal dash s1))
    (match_Y s).

Definition is_leap (y : nat) : bool :=
  (y mod 4 =? 0)%nat && (negb (y mod 100 =? 0)%nat || (y mod 400 =? 0)%nat).

Definition days_in_month (y m : nat) : nat :=
  match m with
  | 2 => if is_leap y then 29 else 28
  | 4 | 6 | 9 | 11 => 30
  | _ => 31
  end.

(** The checks of the [date] constructor; a year of four digits cannot
    exceed [MAXYEAR]. *)
Definition valid_date (y m d : nat) : bool :=
  (1 <=? y)%nat && (1 <=? m)%nat && (m <=? 12)%nat
  && (1 <=? d)%nat && (d <=? days_in_month y m)%nat.

(** [datetime.strptime(v, '%Y-%m-%d')], as the date it denotes (the time
    of day is midnight). *)
Definition strptime (v : value) : result date :=
  match v with
  | VNone => raise TypeError
  | VStr s =>
      match regex_matches s with
      | (y, m, d, EmptyString) :: _ =>
          if valid_date y m d then ok (Date y m d) else raise ValueError
      | _ => raise ValueError
      end
  end.

(** The order of dates. *)
Definition ltb (a b : date) : bool :=
  (year a <? year b)%nat
  || ((year a =? year b)%nat
      && ((month a <? month b)%nat
          || ((month a =? month b)%nat && (day a <? day b)%nat))).

End datetime.

(** ** Built-ins used by the module *)

(** [s.lower()] on the characters of the model: the capital letters of
    ASCII and of Latin-1 move to their small forms. *)
Definition lower_char (c : ascii) : ascii :=
  let n := nat_of_ascii c in
  if ((65 <=? n)%nat && (n <=? 90)%nat)
     || ((192 <=? n)%nat && (n <=? 222)%nat && negb (n =? 215)%nat)
  then ascii_of_nat (n + 32)
  else c.

Fixpoint lower (s : string) : string :=
  match s with
  | EmptyString => EmptyString
  | String c s' => String (lower_char c) (lower s')
  end.

(** [v.lower()] *)
Definition py_lower (v : value) : result string :=
  match v with
  | VStr s => ok (lower s)
  | VNone => raise AttributeError
  end.

(** [c * n] for a one-character string *)
Fixpoint repeat_char (c : ascii) (n : nat) : string :=
  match n with
  | O => EmptyString
  | S n' => String c (repeat_char c n')
  end.

(** [s.ljust(width)], which is what the format spec [<width] does to a
    string. *)
Definition ljust (s : string) (width : nat) : string :=
  s ++ repeat_char " "%char (width - String.length s).

(** [format(v, '<width')]: [None] has no such format. *)
Definition format_left (v : value) (width : nat) : result string :=
  match v with
  | VStr s => ok (ljust s width)
  | VNone => raise TypeError
  end.

(** [sorted(l, key=...)] on a list whose keys are already computed: a
    stable sort, ascending.  [insert_sorted] puts an element before the
    first one whose key is not smaller. *)
Fixpoint insert_sorted {A} (k : date) (x : A) (l : list (date * A)) : list (date * A) :=
  match l with
  | [] => [(k, x)]
  | (k', y) :: l' =>
      if datetime.ltb k' k then (k', y) :: insert_sorted k x l'
      else (k, x) :: l
  end.

Fixpoint sorted {A} (l : list (date * A)) : list (date * A) :=
  match l with
  | [] => []
  | (k, x) :: l' => insert_sorted k x (sorted l')
  end.

(** ** Files, the heap and the Faker instance *)

Definition set_disk (w : World) (d : option string) : World :=
  mkWorld (heap w) d (stdout w) (fake_tape w) (fake_pos w) (today w).

Definition set_heap (w : World) (h : gmap loc (list dict)) : World :=
  mkWorld h (disk w) (stdout w) (fake_tape w) (fake_pos w) (today w).

(** [open(FILENAME, mode="w", newline="")]: the file is created or
    emptied. *)
Definition open_w : M unit :=
  fun w => (ok tt, set_disk w (Some EmptyString)).

(** [file.write(s)] on the file opened for writing. *)
Definition file_write (s : string) : M unit :=
  fun w => (ok tt, set_disk w (Some (default EmptyString (disk w) +:+ s))).

(** [open(FILENAME, mode="r", newline="")] and reading it whole. *)
Definition open_r : M string :=
  fun w => match disk w with
           | Some text => (ok text, w)
           | None => (raise FileNotFoundError, w)
           end.

(** The rows of the list object at [data]; a name that is not bound to
    a list of rows cannot be iterated. *)
Definition deref (data : loc) : M (list dict) :=
  fun w => match heap w !! data with
           | Some rows => (ok rows, w)
           | None => (raise TypeError, w)
           end.

(** The list object at [data] takes new contents, in place. *)
Definition store (data : loc) (rows : list dict) : M unit :=
  fun w => (ok tt, set_heap w (<[data := rows]> (heap w))).

(** One call of a method of the module-level [fake] object. *)
Definition fake_draw : M string :=
  fun w => (ok (fake_tape w (fake_pos w)),
            mkWorld (heap w) (disk w) (stdout w) (fake_tape w) (S (fake_pos w)) (today w)).

(** [datetime.today().date()] *)
Definition get_today : M date := fun w => (ok (today w), w).

(** ** Calls

    A decorated function is called as [f(data, *args, **kwargs)]: the
    list, the further positional arguments and the keyword arguments. *)
Definition pyfun (D R : Type) : Type :=
  D -> list value -> gmap string value -> M R.

(** Binding the arguments of a call to the parameters that follow
    [data]: positional arguments fill the parameters in order, keyword
    arguments by name, the defaults fill what is left.  Too many
    positional arguments, an unknown keyword, a parameter given twice
    or a parameter left without a value are each a [TypeError]. *)
Definition bind_args (params : list string) (defaults : gmap string value)
    (args : list value) (kwargs : gmap string value)
    : result (gmap string value) :=
  if (length params <? length args)%nat then raise TypeError
  else
    let positional : gmap string value := list_to_map (zip params args) in
    if negb (forallb (fun k => bool_decide (k ∈ params)
                               && bool_decide (positional !! k = None))
                     (map fst (map_to_list kwargs)))
    then raise TypeError
    else
      let bound := positional ∪ kwargs ∪ defaults in
      if forallb (fun k => bool_decide (is_Some (bound !! k))) params
      then ok bound
      else raise TypeError.

(** The value bound to parameter [k]. *)
Definition param (bound : gmap string value) (k : string) : value :=
  default VNone (bound !! k).

(** ** [amazon_inventory.py] *)

Definition fieldnames : list string :=
  ["id"; "item"; "gtin"; "mpn"; "brand"; "quantity"; "expiration_date"; "price"].

(** [DictWriter.writerow(row)] *)
Definition DictWriter_writerow (row : dict) : M unit :=
  do fields <- lift (csv.dict_to_list fieldnames row);
  file_write (csv.writerow fields).

(** [DictWriter.writeheader()] *)
Definition DictWriter_writeheader : M unit :=
  DictWriter_writerow (Dict (csv.dict_zip fieldnames (map VStr fieldnames)) None).

Definition load_data : M (list dict) :=
  do text <- open_r;
  lift (csv.DictReader_rows text).

Definition save_data (data : list dict) : M unit :=
  open_w ;;
  DictWriter_writeheader ;;
  for_each data DictWriter_writerow.

(** The bar that [progress_bar] draws at step [i]:
    ["[%-20s] %d%%" % ('=' * i, 5 * i)]. *)
Definition progress_line (i : nat) : string :=
  "[" +:+ ljust (repeat_char "="%char i) 20 +:+ "] " +:+ pretty (5 * i)%nat +:+ "%".

Definition progress_bar {D R} (func : pyfun D R) : pyfun D R :=
  fun data args kwargs =>
    print (nl +:+ "Processing...") ;;
    for_each (seq 0 21) (fun i =>
      stdout_write cr ;;
      stdout_write (progress_line i)) ;;
    print (nl +:+ "Done") ;;
    do result <- func data args kwargs;
    ret result.

(** [any(d['item'] == item for d in data)] *)
Fixpoint any_item_eq (item : value) (data : list dict) : result bool :=
  match data with
  | [] => ok false
  | d :: data' =>
      rbind (getitem d "item") (fun v =>
        if decide (v = item) then ok true else any_item_eq item data')
  end.

Definition check_item_present (func : pyfun loc value) : pyfun loc value :=
  fun data args kwargs =>
    let item := default VNone (kwargs !! "item") in
    do rows <- deref data;
    do found <- lift (any_item_eq item rows);
    if found : bool then func data args kwargs
    else print ("Item " +:+ py_str item +:+ " not found.") ;; ret VNone.

Definition add_item_body : pyfun loc value :=
  fun data args kwargs =>
    do p <- lift (bind_args ["item"; "quantity"; "expiration_date"; "price"] ∅ args kwargs);
    do id <- fake_draw;
    do gtin <- fake_draw;
    do mpn <- fake_draw;
    do brand <- fake_draw;
    let row :=
      Dict (<["price" := param p "price"]>
            (<["expiration_date" := param p "expiration_date"]>
            (<["quantity" := param p "quantity"]>
            (<["brand" := VStr brand]>
            (<["mpn" := VStr mpn]>
            (<["gtin" := VStr gtin]>
            (<["item" := param p "item"]>
            (<["id" := VStr id]> ∅)))))))) None in
    do rows <- deref data;
    store data (rows ++ [row]) ;;
    do rows <- deref data;
    save_data rows ;;
    print ("Item '" +:+ py_str (param p "item") +:+ "' added successfully.") ;;
    ret VNone.

Definition add_item : pyfun loc value := progress_bar add_item_body.

(** [[d for d in data if d['item'].lower() != item.lower()]] *)
Fixpoint remove_filter (item : value) (data : list dict) : result (list dict) :=
  match data with
  | [] => ok []
  | d :: data' =>
      rbind (getitem d "item") (fun v =>
      rbind (py_lower v) (fun a =>
      rbind (py_lower item) (fun b =>
      rbind (remove_filter item data') (fun kept =>
        ok (if decide (a = b) then kept else d :: kept)))))
  end.

(** The body of [remove_item]: the local name [data] is bound to a new
    list, which is saved; the list object of the caller is only read. *)
Definition remove_item_body : pyfun loc value :=
  fun data args kwargs =>
    do p <- lift (bind_args ["item"] ∅ args kwargs);
    do rows <- deref data;
    do data' <- lift (remove_filter (param p "item") rows);
    save_data data' ;;
    print ("Item '" +:+ py_str (param p "item") +:+ "' removed successfully.") ;;
    ret VNone.

Definition remove_item : pyfun loc value :=
  progress_bar (check_item_present remove_item_body).

(** [if v is not None: d[k] = v] *)
Definition set_if_given (k : string) (v : value) (d : dict) : dict :=
  if decide (v = VNone) then d else setitem d k v.

(** The loop of [update_item] over the rows, which are changed in
    place: the rows as the loop leaves them, and how it ended. *)
Fixpoint update_loop (item quantity expiration_date price : value)
    (data : list dict) : list dict * result unit :=
  match data with
  | [] => ([], ok tt)
  | d :: data' =>
      match getitem d "item" with
      | inl e => (d :: data', inl e)
      | inr v =>
          let d' :=
            if decide (v = item)
            then set_if_given "price" price
                   (set_if_given "expiration_date" expiration_date
                     (set_if_given "quantity" quantity d))
            else d in
          let '(rows, r) := update_loop item quantity expiration_date price data' in
          (d' :: rows, r)
      end
  end.

Definition update_defaults : gmap string value :=
  <["quantity" := VNone]> (<["expiration_date" := VNone]> (<["price" := VNone]> ∅)).

Definition update_item_body : pyfun loc value :=
  fun data args kwargs =>
    do p <- lift (bind_args ["item"; "quantity"; "expiration_date"; "price"]
                            update_defaults args kwargs);
    do rows <- deref data;
    let '(rows', r) :=
      update_loop (param p "item") (param p "quantity")
                  (param p "expiration_date") (param p "price") rows in
    store data rows' ;;
    lift r ;;
    do rows <- deref data;
    save_data rows ;;
    ret VNone.

Definition update_item : pyfun loc value :=
  progress_bar (check_item_present update_item_body).

(** The sort key: [datetime.strptime(x['expiration_date'], '%Y-%m-%d')] *)
Definition expiration_key (x : dict) : result date :=
  rbind (getitem x "expiration_date") datetime.strptime.

Definition sort_by_expiration_date (data : list dict) : result (list dict) :=
  rbind (rmap expiration_key data) (fun keys =>
    ok (map snd (sorted (zip keys data)))).

(** One line of a listing: the four columns, each padded on the right,
    between [opening] and the separators. *)
Definition render_row (opening sep : string) (item : dict) : result string :=
  rbind (getitem item "item") (fun a =>
  rbind (format_left a 20) (fun a' =>
  rbind (getitem item "quantity") (fun b =>
  rbind (format_left b 10) (fun b' =>
  rbind (getitem item "expiration_date") (fun c =>
  rbind (format_left c 20) (fun c' =>
  rbind (getitem item "price") (fun d =>
  rbind (format_left d 10) (fun d' =>
    ok (opening +:+ a' +:+ sep +:+ b' +:+ sep +:+ c' +:+ sep +:+ d' +:+ "|"))))))))).

Definition header_row (opening sep : string) : string :=
  opening +:+ ljust "Item" 20 +:+ sep +:+ ljust "Quantity" 10 +:+ sep
  +:+ ljust "Expiration Date" 20 +:+ sep +:+ ljust "Price" 10 +:+ "|".

Definition print_rows (opening sep : string) (rows : list dict) : M unit :=
  for_each rows (fun item =>
    do line <- lift (render_row opening sep item);
    print line).

Definition get_full_report_body : pyfun (list dict) value :=
  fun data args kwargs =>
    lift (bind_args [] ∅ args kwargs) ;;
    match data with
    | [] => print "No items in the inventory." ;; ret VNone
    | _ =>
        do data <- lift (sort_by_expiration_date data);
        print (nl +:+ "Full Inventory Report") ;;
        print (repeat_char "-"%char 71) ;;
        print (header_row "|" " | ") ;;
        print (repeat_char "-"%char 71) ;;
        print_rows "|" " | " data ;;
        print (repeat_char "-"%char 71) ;;
        ret VNone
    end.

Definition get_full_report : pyfun (list dict) value :=
  progress_bar get_full_report_body.

(** [[d for d in data if d['item'] == item]] *)
Fixpoint search_filter (item : value) (data : list dict) : result (list dict) :=
  match data with
  | [] => ok []
  | d :: data' =>
      rbind (getitem d "item") (fun v =>
      rbind (search_filter item data') (fun found =>
        ok (if decide (v = item) then d :: found else found)))
  end.

Definition search_item_body : pyfun (list dict) value :=
  fun data args kwargs =>
    do p <- lift (bind_args ["item"] ∅ args kwargs);
    do found_items <- lift (search_filter (param p "item") data);
    print (nl +:+ "Search Results for '" +:+ py_str (param p "item") +:+ "'") ;;
    print (header_row "" " ") ;;
    print (repeat_char "-"%char 71) ;;
    print_rows "" " " found_items ;;
    ret VNone.

Definition search_item : pyfun (list dict) value :=
  progress_bar search_item_body.

(** [[d for d in data if strptime(d['expiration_date']).date() < today]] *)
Fixpoint expired_filter (today : date) (data : list dict) : result (list dict) :=
  match data with
  | [] => ok []
  | d :: data' =>
      rbind (expiration_key d) (fun k =>
      rbind (expired_filter today data') (fun expired =>
        ok (if datetime.ltb k today then d :: expired else expired)))
  end.

Definition get_expired_items_body : pyfun (list dict) (list dict) :=
  fun data args kwargs =>
    lift (bind_args [] ∅ args kwargs) ;;
    do today <- get_today;
    do expired_items <- lift (expired_filter today data);
    match expired_items with
    | [] => print "No expired items found." ;; ret []
    | _ =>
        do expired_items <- lift (sort_by_expiration_date expired_items);
        print (nl +:+ "Expired Items") ;;
        print (repeat_char "-"%char 70) ;;
        print (header_row "" " | ") ;;
        print (repeat_char "-"%char 70) ;;
        print_rows "" " | " expired_items ;;
        print (repeat_char "-"%char 70) ;;
        ret expired_items
    end.

Definition get_expired_items : pyfun (list dict) (list dict) :=
  progress_bar get_expired_items_body.

(** ** Notions used to state the properties *)

(** The world after more output. *)
Definition add_out (w : World) (l : list string) : World :=
  mkWorld (heap w) (disk w) (stdout w ++ l) (fake_tape w) (fake_pos w) (today w).

(** Everything [progress_bar] writes before it calls the wrapped
    function. *)
Definition progress_output : list string :=
  [(nl +:+ "Processing...") +:+ nl]
  ++ flat_map (fun i => [cr; progress_line i]) (seq 0 21)
  ++ [(nl +:+ "Done") +:+ nl].

(** The cells that [DictWriter] writes for a row, and the lines of the
    file. *)
Definition row_values (d : dict) : list value :=
  map (fun key => dict_get d key (VStr EmptyString)) fieldnames.

Definition header_line : string := csv.writerow (map VStr fieldnames).

Definition row_line (d : dict) : string := csv.writerow (row_values d).

Fixpoint row_lines (rows : list dict) : string :=
  match rows with
  | [] => EmptyString
  | d :: rows' => row_line d +:+ row_lines rows'
  end.

(** The contents of the file after the rows were saved. *)
Definition saved_text (rows : list dict) : string :=
  header_line +:+ row_lines rows.

Definition is_str (o : option value) : bool :=
  match o with
  | Some (VStr _) => true
  | _ => false
  end.

(** A well-formed record: exactly the eight fields, each a string. *)
Definition well_formed (d : dict) : bool :=
  bool_decide (rest d = None)
  && forallb (fun k => is_str (cells d !! k)) fieldnames
  && forallb (fun k => bool_decide (k ∈ fieldnames))
             (map fst (map_to_list (cells d))).

(** The record's name is [s], compared as [==] compares. *)
Definition named (d : dict) (s : string) : Prop :=
  cells d !! "item" = Some (VStr s).

(** The record's name equals [s] when case is ignored. *)
Definition named_nocase (d : dict) (s : string) : Prop :=
  exists s', cells d !! "item" = Some (VStr s') /\ lower s' = lower s.

(** The record has a name, and it is a string. *)
Definition has_name (d : dict) : Prop :=
  exists s, cells d !! "item" = Some (VStr s).

(** The record built by [add_item]. *)
Definition new_row (id item gtin mpn brand quantity expiration_date price : value) : dict :=
  Dict (<["price" := price]>
       (<["expiration_date" := expiration_date]>
       (<["quantity" := quantity]>
       (<["brand" := brand]>
       (<["mpn" := mpn]>
       (<["gtin" := gtin]>
       (<["item" := item]>
       (<["id" := id]> ∅)))))))) None.

(** A record given by its eight strings. *)
Definition record (id item gtin mpn brand quantity expiration_date price : string) : dict :=
  new_row (VStr id) (VStr item) (VStr gtin) (VStr mpn) (VStr brand)
          (VStr quantity) (VStr expiration_date) (VStr price).

(** Does [remove_item] drop the record when asked to remove [name]? *)
Definition same_name_nocase (name : string) (d : dict) : bool :=
  match cells d !! "item" with
  | Some (VStr s) => bool_decide (lower s = lower name)
  | _ => false
  end.

(** What [update_item] does to one row. *)
Definition update_row (item quantity expiration_date price : value) (d : dict) : dict :=
  if decide (cells d !! "item" = Some item)
  then set_if_given "price" price
         (set_if_given "expiration_date" expiration_date
           (set_if_given "quantity" quantity d))
  else d.

(** ** Sample data *)

Definition widget : dict :=
  record "id-1" "Widget" "4006381333931" "73513537" "Acme Ltd" "3" "2024-01-09" "1.50".

Definition widget_lowercase : dict :=
  record "id-2" "widget" "4006381333932" "73513538" "Acme Ltd" "4" "2024-01-10" "2.00".

Definition gadget : dict :=
  record "id-3" "Gadget" "4006381333933" "73513539" "Bolt, Nut and Co" "5" "2023-06-01" "9.00".

Definition stock : list dict := [widget; widget_lowercase; gadget].

(** A world in which the list object number 0 holds [rows], there is no
    file yet, nothing was printed, and the date is 2024-01-10. *)
Definition world_with (rows : list dict) : World :=
  mkWorld {[ 0%nat := rows ]} None []
          (fun n => nth n ["id-9"; "4006381333939"; "73513540"; "Cog and Sons"] "more")
          0 (Date 2024 1 10).

(** The same world with a file of the given contents. *)
Definition world_with_file (text : string) : World :=
  set_disk (world_with []) (Some text).

Global Instance date_eq_dec : EqDecision date.
Proof. solve_decision. Defined.

(** The sort key of a record whose date parses. *)
Definition key_of (d : dict) : date :=
  match expiration_key d with
  | inr k => k
  | inl _ => Date 0 0 0
  end.

(** [a] is not after [b]. *)
Definition date_le (a b : date) : Prop := datetime.ltb b a = false.

(** A line of a listing as it reaches the terminal. *)
Definition printed_row (opening sep : string) (d : dict) : string :=
  match render_row opening sep d with
  | inr line => line +:+ nl
  | inl _ => EmptyString
  end.

(** Three records entered in this order, the last two with the same
    date. *)
Definition january : dict :=
  record "id-a" "Anvil" "4006381333941" "73513541" "Acme Ltd" "1" "2024-01-01" "10.00".

Definition june_first : dict :=
  record "id-b" "Bolt" "4006381333942" "73513542" "Acme Ltd" "2" "2023-06-01" "20.00".

Definition june_second : dict :=
  record "id-c" "Clamp" "4006381333943" "73513543" "Acme Ltd" "3" "2023-06-01" "30.00".

(** The order of the pairs that [sorted] works on. *)
Definition le_key {A} (p q : date * A) : Prop := date_le p.1 q.1.

(** A computation that can only write to the terminal: whatever it
    returns or raises, the world it leaves differs from the one it
    found by what was printed. *)
Definition only_prints {A} (m : M A) : Prop :=
  forall w, exists l, (m w).2 = add_out w l.

(** The records in the order [sort_by_expiration_date] gives them when
    all their dates parse. *)
Definition sorted_by_date (data : list dict) : list dict :=
  map snd (sorted (map (fun d => (key_of d, d)) data)).

(** The records that [get_expired_items] selects on the day [today]. *)
Definition expired_on (today : date) (data : list dict) : list dict :=
  List.filter (fun d => datetime.ltb (key_of d) today) data.


(** ** Reading the file in one pass

    [csv.reader_rows] consumes the lines that [csv.readlines] cuts out
    of the text.  [scan] is the same reader run over the text itself,
    with the end-of-line mark fed where a line ends; it is what the
    proofs about reading work on. *)

(** The characters of a line fed to the parser, without the mark. *)
Fixpoint feed_list (r : csv.ReaderObj) (l : list ascii) : result csv.ReaderObj :=
  match l with
  | [] => ok r
  | c :: l' => rbind (csv.parse_process_char r (csv.Chr c)) (fun r' => feed_list r' l')
  end.

(** What [Reader_iternext] does once a line has been fed: a complete
    record is handed out and the next one starts from a reset parser,
    an incomplete one goes on. *)
Definition after_line (r : csv.ReaderObj)
    (continue : csv.ReaderObj -> result (list (list string)))
    : result (list (list string)) :=
  if bool_decide (csv.state r = csv.START_RECORD)
  then rbind (continue csv.parse_reset) (fun rows => ok (csv.fields r :: rows))
  else continue r.

Definition end_of_line (r : csv.ReaderObj)
    (continue : csv.ReaderObj -> result (list (list string)))
    : result (list (list string)) :=
  rbind (csv.parse_process_char r csv.EOL) (fun r' => after_line r' continue).

(** [scan r mid text]: the records read from [text] by a reader in
    state [r]; [mid] tells whether the current line already holds
    characters. *)
Fixpoint scan (r : csv.ReaderObj) (mid : bool) (text : string)
    : result (list (list string)) :=
  match text with
  | EmptyString =>
      if mid then end_of_line r (fun r' => csv.reader_rows r' [])
      else csv.reader_rows r []
  | String c text' =>
      rbind (csv.parse_process_char r (csv.Chr c)) (fun r1 =>
        if (c =? LF)%char then end_of_line r1 (fun r' => scan r' false text')
        else if (c =? CR)%char then
          match text' with
          | String c' text'' =>
              if (c' =? LF)%char
              then rbind (csv.parse_process_char r1 (csv.Chr c')) (fun r2 =>
                     end_of_line r2 (fun r' => scan r' false text''))
              else end_of_line r1 (fun r' => scan r' false text')
          | EmptyString => end_of_line r1 (fun r' => scan r' false text')
          end
        else scan r1 true text')
  end.

(** How [csv.writerow] writes one field. *)
Definition written_field (f : string) : string :=
  if csv.want_quote f
  then String csv.quotechar (csv.copy_data f +:+ String csv.quotechar EmptyString)
  else f.

(** The fields after the first, each behind a delimiter. *)
Fixpoint written_more (row : list string) : string :=
  match row with
  | [] => EmptyString
  | f :: row' => String csv.delimiter (written_field f +:+ written_more row')
  end.

(** The line that [csv.writerow] writes for a row of strings. *)
Definition written_row (row : list string) : string :=
  match row with
  | [] => csv.lineterminator
  | [f] =>
      if bool_decide (f = EmptyString)
      then String csv.quotechar (String csv.quotechar csv.lineterminator)
      else written_field f +:+ csv.lineterminator
  | f :: row' => written_field f +:+ written_more row' +:+ csv.lineterminator
  end.

(** The text of a file written row by row. *)
Fixpoint written_rows (rows : list (list string)) : string :=
  match rows with
  | [] => EmptyString
  | row :: rows' => written_row row +:+ written_rows rows'
  end.

(** The field is no longer than the reader accepts. *)
Definition within_limit (f : string) : bool :=
  (N.of_nat (String.length f) <=? csv.field_limit)%N.

(** The eight cells of a record as the strings written to the file. *)
Definition row_strings (d : dict) : list string :=
  map csv.field_text (row_values d).

(** Every field of every record is within the limit of the reader. *)
Definition loadable (rows : list dict) : bool :=
  forallb (fun d => forallb within_limit (row_strings d)) rows.

(** The buffer of the reader after the characters of [f] were added to
    [buf]. *)
Fixpoint push (f : string) (buf : list ascii) : list ascii :=
  match f with
  | EmptyString => buf
  | String c f' => push f' (c :: buf)
  end.

(** The parser holds the complete field [f] after the fields [done]:
    what it does next depends only on the character that follows. *)
Inductive holding (done : list string) (f : string) : csv.ReaderObj -> Prop :=
  | hold_in_field (len : N) :
      holding done f (csv.Reader csv.IN_FIELD done (push f []) len)
  | hold_after_quote (len : N) :
      holding done f (csv.Reader csv.QUOTE_IN_QUOTED_FIELD done (push f []) len)
  | hold_start_field :
      f = EmptyString -> holding done f (csv.Reader csv.START_FIELD done [] 0).

(** A record whose fields hold what the writer must quote: a comma, a
    quote, a line break, and an empty field. *)
Definition awkward : dict :=
  record "id-5" ("Nut, " +:+ String csv.quotechar "M8" +:+ String csv.quotechar " size")
         "4006381333935" "73513541" ("Bolt" +:+ cr +:+ nl +:+ "and Nut") EmptyString
         "2024-02-29" "0.10".

(** A record with a name one character longer than the reader accepts. *)
Definition oversized : dict :=
  record "id-4" (repeat_char "a" (N.to_nat (csv.field_limit + 1))) "4006381333934" "73513540" "Acme Ltd" "1"
         "2024-01-09" "1.00".

(** ** Dates as text *)

Definition digit_char (n : nat) : ascii := ascii_of_nat (48 + n).

(** A number below 100 in two digits, or one below 10 in one. *)
Definition digits_text (pad : bool) (n : nat) : string :=
  if pad then String (digit_char (n / 10)) (String (digit_char (n mod 10)) EmptyString)
  else String (digit_char n) EmptyString.

(** The date as year-month-day: the year in four digits, the month and
    the day in two digits each or, where [pad_m] or [pad_d] is off,
    without the leading zero. *)
Definition date_text (pad_m pad_d : bool) (y m d : nat) : string :=
  String (digit_char (y / 1000))
    (String (digit_char (y / 100 mod 10))
      (String (digit_char (y / 10 mod 10))
        (String (digit_char (y mod 10))
          (String datetime.dash
            (digits_text pad_m m +:+ String datetime.dash (digits_text pad_d d)))))).

(** The expiration date of the record is the text of a calendar date,
    the year in four digits, the month and the day with or without
    their leading zero. *)
Definition dated (x : dict) : Prop :=
  exists (pad_m pad_d : bool) (y m d : nat),
    datetime.valid_date y m d = true /\ (y < 100 * 100)%nat
    /\ (pad_m = false -> (m <= 9)%nat) /\ (pad_d = false -> (d <= 9)%nat)
    /\ cells x !! "expiration_date" = Some (VStr (date_text pad_m pad_d y m d)).

(** * Properties *)

(** ** Strings *)

Lemma string_app_cons (x : ascii) (a b : string) :
  String x a +:+ b = String x (a +:+ b).
Proof. reflexivity. Qed.

Lemma string_app_nil_l (b : string) : EmptyString +:+ b = b.
Proof. reflexivity. Qed.

Lemma string_app_assoc (a b c : string) : (a +:+ b) +:+ c = a +:+ b +:+ c.
Proof.
  induction a as [|x a IH]; [reflexivity|].
  rewrite !string_app_cons. now rewrite IH.
Qed.

Lemma string_app_nil_r (a : string) : a +:+ EmptyString = a.
Proof.
  induction a as [|x a IH]; [reflexivity|].
  rewrite string_app_cons. now rewrite IH.
Qed.

Lemma string_length_app (a b : string) :
  String.length (a +:+ b) = (String.length a + String.length b)%nat.
Proof.
  induction a as [|x a IH]; [reflexivity|].
  rewrite string_app_cons. simpl. now rewrite IH.
Qed.

(** ** The monad *)

Lemma bind_ok {A B} (m : M A) (k : A -> M B) (w w' : World) (a : A) :
  m w = (ok a, w') -> bind m k w = k a w'.
Proof. intros H. unfold bind. now rewrite H. Qed.

Lemma bind_raise {A B} (m : M A) (k : A -> M B) (w w' : World) (e : exn) :
  m w = (raise e, w') -> bind m k w = (raise e, w').
Proof. intros H. unfold bind. now rewrite H. Qed.

Lemma bind_lift_ok {A B} (r : result A) (k : A -> M B) (w : World) (a : A) :
  r = ok a -> bind (lift r) k w = k a w.
Proof. intros ->. reflexivity. Qed.

(** One step of a computation whose first action is known to succeed. *)
Ltac mstep H := erewrite bind_ok by (apply H).

Lemma bind_ret_r {A} (m : M A) (w : World) : (do x <- m; ret x) w = m w.
Proof. unfold bind. destruct (m w) as [[e|a] w']; reflexivity. Qed.

Lemma add_out_nil (w : World) : add_out w [] = w.
Proof. destruct w. unfold add_out; simpl. now rewrite app_nil_r. Qed.

Lemma add_out_add_out (w : World) (l1 l2 : list string) :
  add_out (add_out w l1) l2 = add_out w (l1 ++ l2).
Proof. unfold add_out; simpl. now rewrite <- app_assoc. Qed.

Lemma stdout_write_run (s : string) (w : World) :
  stdout_write s w = (ok tt, add_out w [s]).
Proof. reflexivity. Qed.

Lemma print_run (s : string) (w : World) :
  print s w = (ok tt, add_out w [s +:+ nl]).
Proof. reflexivity. Qed.

Lemma progress_steps_run (l : list nat) (w : World) :
  for_each l (fun i => stdout_write cr ;; stdout_write (progress_line i)) w
  = (ok tt, add_out w (flat_map (fun i => [cr; progress_line i]) l)).
Proof.
  revert w. induction l as [|i l IH]; intros w.
  - simpl. now rewrite add_out_nil.
  - cbn [for_each flat_map].
    erewrite bind_ok.
    2:{ mstep stdout_write_run. apply stdout_write_run. }
    rewrite IH, !add_out_add_out. reflexivity.
Qed.

(** [progress_bar] only writes to the terminal and then runs the
    wrapped function. *)
Lemma progress_bar_run {D R} (func : pyfun D R) data args kwargs (w : World) :
  progress_bar func data args kwargs w
  = func data args kwargs (add_out w progress_output).
Proof.
  unfold progress_bar.
  mstep print_run. mstep progress_steps_run. mstep print_run.
  rewrite bind_ret_r, !add_out_add_out. reflexivity.
Qed.

(** ** Saving *)


Lemma well_formed_writable (d : dict) :
  well_formed d = true -> csv.dict_to_list fieldnames d = ok (row_values d).
Proof.
  unfold well_formed, csv.dict_to_list. intros H.
  apply andb_prop in H as [H H3]. apply andb_prop in H as [H1 _].
  now rewrite H1, H3.
Qed.

Lemma DictWriter_writerow_run (d : dict) (w : World) (text : string) :
  csv.dict_to_list fieldnames d = ok (row_values d) ->
  DictWriter_writerow d (set_disk w (Some text))
  = (ok tt, set_disk w (Some (text +:+ row_line d))).
Proof.
  intros H. unfold DictWriter_writerow.
  erewrite bind_lift_ok by exact H. reflexivity.
Qed.

Lemma write_rows_run (rows : list dict) (w : World) (text : string) :
  Forall (fun d => csv.dict_to_list fieldnames d = ok (row_values d)) rows ->
  for_each rows DictWriter_writerow (set_disk w (Some text))
  = (ok tt, set_disk w (Some (text +:+ row_lines rows))).
Proof.
  intros H. revert text. induction H as [|d rows Hd _ IH]; intros text.
  - simpl. now rewrite string_app_nil_r.
  - cbn [for_each row_lines].
    erewrite bind_ok by (apply DictWriter_writerow_run, Hd).
    rewrite IH, string_app_assoc. reflexivity.
Qed.

Lemma writeheader_run (w : World) :
  DictWriter_writeheader (set_disk w (Some EmptyString))
  = (ok tt, set_disk w (Some header_line)).
Proof. reflexivity. Qed.

(** Saving rows that [DictWriter] accepts always succeeds and leaves
    the header line and one line per row in the file. *)
Lemma save_data_run (rows : list dict) (w : World) :
  Forall (fun d => csv.dict_to_list fieldnames d = ok (row_values d)) rows ->
  save_data rows w = (ok tt, set_disk w (Some (saved_text rows))).
Proof.
  intros H. unfold save_data.
  erewrite bind_ok by reflexivity.
  mstep writeheader_run.
  now rewrite write_rows_run.
Qed.

Lemma save_data_well_formed (rows : list dict) (w : World) :
  forallb well_formed rows = true ->
  save_data rows w = (ok tt, set_disk w (Some (saved_text rows))).
Proof.
  intros H. apply save_data_run.
  apply List.Forall_forall. intros d Hd. apply well_formed_writable.
  rewrite forallb_forall in H. now apply H.
Qed.

(** ** The presence guard *)

Lemma any_item_eq_miss (item : value) (rows : list dict) :
  Forall (fun d => is_Some (cells d !! "item")) rows ->
  (forall d, In d rows -> cells d !! "item" <> Some item) ->
  any_item_eq item rows = ok false.
Proof.
  induction 1 as [|d rows [v Hv] _ IH]; intros Hno; [reflexivity|].
  cbn [any_item_eq]. unfold getitem. rewrite Hv. cbn [rbind ok].
  destruct (decide (v = item)) as [->|_].
  - exfalso. apply (Hno d); [now left | exact Hv].
  - apply IH. intros d' Hd'. apply Hno. now right.
Qed.

Lemma any_item_eq_hit (item : value) (rows : list dict) :
  Forall (fun d => is_Some (cells d !! "item")) rows ->
  (exists d, In d rows /\ cells d !! "item" = Some item) ->
  any_item_eq item rows = ok true.
Proof.
  induction 1 as [|d rows [v Hv] _ IH]; intros (d0 & Hin & Hd0).
  - destruct Hin.
  - cbn [any_item_eq]. unfold getitem. rewrite Hv. cbn [rbind ok].
    destruct (decide (v = item)) as [->|Hne]; [reflexivity|].
    apply IH. destruct Hin as [<-|Hin]; [congruence | eauto].
Qed.

Lemma deref_run (data : loc) (rows : list dict) (w : World) :
  heap w !! data = Some rows -> deref data w = (ok rows, w).
Proof. intros H. unfold deref. now rewrite H. Qed.

Lemma guard_miss (func : pyfun loc value) data args kwargs rows (w : World) :
  heap w !! data = Some rows ->
  any_item_eq (default VNone (kwargs !! "item")) rows = ok false ->
  check_item_present func data args kwargs w
  = (ok VNone,
     add_out w [("Item " +:+ py_str (default VNone (kwargs !! "item")) +:+ " not found.") +:+ nl]).
Proof.
  intros Hheap Hany. unfold check_item_present.
  erewrite bind_ok by (apply deref_run, Hheap).
  erewrite bind_lift_ok by exact Hany.
  reflexivity.
Qed.

Lemma guard_hit (func : pyfun loc value) data args kwargs rows (w : World) :
  heap w !! data = Some rows ->
  any_item_eq (default VNone (kwargs !! "item")) rows = ok true ->
  check_item_present func data args kwargs w = func data args kwargs w.
Proof.
  intros Hheap Hany. unfold check_item_present.
  erewrite bind_ok by (apply deref_run, Hheap).
  erewrite bind_lift_ok by exact Hany.
  reflexivity.
Qed.

Lemma has_name_is_Some (d : dict) : has_name d -> is_Some (cells d !! "item").
Proof. intros [s Hs]. rewrite Hs. eauto. Qed.

Lemma well_formed_has_name (d : dict) : well_formed d = true -> has_name d.
Proof.
  unfold well_formed. intros H.
  apply andb_prop in H as [H _]. apply andb_prop in H as [_ H].
  rewrite forallb_forall in H. specialize (H "item").
  unfold has_name. destruct (cells d !! "item") as [[|s]|] eqn:E.
  - discriminate H. unfold fieldnames. simpl. tauto.
  - eauto.
  - discriminate H. unfold fieldnames. simpl. tauto.
Qed.

(** The guard in front of any wrapped operation, under the progress
    bar: a miss prints the notice and returns, a hit runs the
    operation. *)
Lemma guarded_miss (func : pyfun loc value) data args kwargs rows (w : World) :
  heap w !! data = Some rows ->
  any_item_eq (default VNone (kwargs !! "item")) rows = ok false ->
  progress_bar (check_item_present func) data args kwargs w
  = (ok VNone,
     add_out w (progress_output
                ++ [("Item " +:+ py_str (default VNone (kwargs !! "item")) +:+ " not found.") +:+ nl])).
Proof.
  intros Hheap Hany. rewrite progress_bar_run.
  erewrite guard_miss by eauto. now rewrite add_out_add_out.
Qed.

Lemma guarded_hit (func : pyfun loc value) data args kwargs rows (w : World) :
  heap w !! data = Some rows ->
  any_item_eq (default VNone (kwargs !! "item")) rows = ok true ->
  progress_bar (check_item_present func) data args kwargs w
  = func data args kwargs (add_out w progress_output).
Proof.
  intros Hheap Hany. rewrite progress_bar_run.
  erewrite guard_hit by eauto. reflexivity.
Qed.

(** The gate that the guard puts in front of both operations. *)
Lemma presence_guard_gate_lemma (data : loc) (rows : list dict) (name : string)
    (args : list value) (kwargs : gmap string value) (w : World) :
  heap w !! data = Some rows ->
  Forall (fun d => is_Some (cells d !! "item")) rows ->
  kwargs !! "item" = Some (VStr name) ->
  ((forall d, In d rows -> ~ named d name) ->
     exists w', remove_item data args kwargs w = (ok VNone, w')
       /\ update_item data args kwargs w = (ok VNone, w')
       /\ heap w' = heap w
       /\ disk w' = disk w
       /\ stdout w' = stdout w ++ progress_output
                      ++ [("Item " +:+ name +:+ " not found.") +:+ nl])
  /\ ((exists d, In d rows /\ named d name) ->
      remove_item data args kwargs w
      = remove_item_body data args kwargs (add_out w progress_output)
      /\ update_item data args kwargs w
         = update_item_body data args kwargs (add_out w progress_output)).
Proof.
  intros Hheap Hkeys Hitem. split.
  - intros Hno.
    assert (Hany : any_item_eq (default VNone (kwargs !! "item")) rows = ok false).
    { rewrite Hitem. apply any_item_eq_miss; [exact Hkeys | exact Hno]. }
    eexists. split; [|split].
    + unfold remove_item. erewrite guarded_miss by eauto.
      rewrite Hitem. reflexivity.
    + unfold update_item. erewrite guarded_miss by eauto.
      rewrite Hitem. reflexivity.
    + repeat split; reflexivity.
  - intros Hsome.
    assert (Hany : any_item_eq (default VNone (kwargs !! "item")) rows = ok true).
    { rewrite Hitem. apply any_item_eq_hit; [exact Hkeys | exact Hsome]. }
    split; unfold remove_item, update_item; erewrite guarded_hit by eauto;
      reflexivity.
Qed.

(** C4 -- When no record's name equals the target (compared exactly, as
    [==] does), [remove_item] and [update_item] print the "not found"
    notice, return, and leave both the record set and the file as they
    were; when some record's name equals it, the call is the wrapped
    operation run after the progress bar. *)
Theorem presence_guard_gate (data : loc) (rows : list dict) (name : string)
    (args : list value) (kwargs : gmap string value) (w : World) :
  heap w !! data = Some rows ->
  Forall (fun d => is_Some (cells d !! "item")) rows ->
  kwargs !! "item" = Some (VStr name) ->
  ((forall d, In d rows -> ~ named d name) ->
     exists w', remove_item data args kwargs w = (ok VNone, w')
       /\ update_item data args kwargs w = (ok VNone, w')
       /\ heap w' = heap w
       /\ disk w' = disk w
       /\ stdout w' = stdout w ++ progress_output
                      ++ [("Item " +:+ name +:+ " not found.") +:+ nl])
  /\ ((exists d, In d rows /\ named d name) ->
      remove_item data args kwargs w
      = remove_item_body data args kwargs (add_out w progress_output)
      /\ update_item data args kwargs w
         = update_item_body data args kwargs (add_out w progress_output)).
Proof. exact (presence_guard_gate_lemma data rows name args kwargs w). Qed.

(** C10 -- The guard looks for the target only among the keyword
    arguments.  When no keyword [item] is given (the name is passed
    positionally, whatever it is), the guard compares every name with
    [None]: on a record set whose names are strings it prints
    ["Item None not found."] and returns, whatever the wrapped operation
    is and whether or not a record carries the name; [remove_item] and
    [update_item] leave the record set and the file untouched. *)
Theorem positional_name_is_not_found (data : loc) (rows : list dict)
    (args : list value) (kwargs : gmap string value) (w : World) :
  heap w !! data = Some rows ->
  Forall has_name rows ->
  kwargs !! "item" = None ->
  let w' := add_out w (progress_output ++ ["Item None not found." +:+ nl]) in
  (forall func : pyfun loc value,
     progress_bar (check_item_present func) data args kwargs w = (ok VNone, w'))
  /\ remove_item data args kwargs w = (ok VNone, w')
  /\ update_item data args kwargs w = (ok VNone, w')
  /\ heap w' = heap w
  /\ disk w' = disk w.
Proof.
  intros Hheap Hnames Hitem w'.
  assert (Hany : any_item_eq (default VNone (kwargs !! "item")) rows = ok false).
  { rewrite Hitem. apply any_item_eq_miss.
    - eapply List.Forall_impl; [|exact Hnames]. apply has_name_is_Some.
    - intros d Hd. rewrite List.Forall_forall in Hnames.
      destruct (Hnames d Hd) as [s Hs]. rewrite Hs. simpl. discriminate. }
  assert (Hall : forall func : pyfun loc value,
             progress_bar (check_item_present func) data args kwargs w = (ok VNone, w')).
  { intros func. erewrite guarded_miss by eauto. rewrite Hitem. reflexivity. }
  repeat split; try apply Hall.
Qed.

(** ** Removing *)



Lemma same_name_nocase_spec (name : string) (d : dict) :
  same_name_nocase name d = true <-> named_nocase d name.
Proof.
  unfold same_name_nocase, named_nocase. split.
  - destruct (cells d !! "item") as [[|s]|]; try discriminate.
    intros H. apply bool_decide_eq_true in H. eauto.
  - intros (s & -> & Hs). now apply bool_decide_eq_true.
Qed.

Lemma remove_filter_run (name : string) (rows : list dict) :
  Forall has_name rows ->
  remove_filter (VStr name) rows
  = ok (List.filter (fun d => negb (same_name_nocase name d)) rows).
Proof.
  induction 1 as [|d rows [s Hs] _ IH]; [reflexivity|].
  cbn [remove_filter List.filter]. unfold getitem, same_name_nocase.
  rewrite Hs, IH. cbn [rbind ok py_lower].
  destruct (decide (lower s = lower name)) as [E|E].
  - now rewrite bool_decide_eq_true_2.
  - now rewrite bool_decide_eq_false_2.
Qed.

Lemma forallb_filter {A} (p q : A -> bool) (l : list A) :
  forallb p l = true -> forallb p (List.filter q l) = true.
Proof.
  rewrite !forallb_forall. intros H x Hx.
  apply List.filter_In in Hx as [Hx _]. now apply H.
Qed.

Lemma well_formed_all_named (rows : list dict) :
  forallb well_formed rows = true -> Forall has_name rows.
Proof.
  rewrite forallb_forall, List.Forall_forall.
  intros H d Hd. apply well_formed_has_name. now apply H.
Qed.

(** The body of [remove_item] on a call that names the target by
    keyword: the kept rows are saved, the notice is printed, nothing is
    returned, and the list object of the caller is not written. *)
Lemma remove_item_body_run (data : loc) (rows : list dict) (name : string) (w : World) :
  heap w !! data = Some rows ->
  forallb well_formed rows = true ->
  let kept := List.filter (fun d => negb (same_name_nocase name d)) rows in
  remove_item_body data [] {["item" := VStr name]} w
  = (ok VNone,
     add_out (set_disk w (Some (saved_text kept)))
             [("Item '" +:+ name +:+ "' removed successfully.") +:+ nl]).
Proof.
  intros Hheap Hwf kept. unfold remove_item_body.
  erewrite bind_lift_ok by (vm_compute; reflexivity).
  erewrite bind_ok by (apply deref_run, Hheap).
  erewrite bind_lift_ok.
  2:{ change (param _ "item") with (VStr name).
      apply remove_filter_run, well_formed_all_named, Hwf. }
  erewrite bind_ok.
  2:{ apply save_data_well_formed. apply forallb_filter, Hwf. }
  reflexivity.
Qed.

Lemma stock_has_keys : Forall (fun d => is_Some (cells d !! "item")) stock.
Proof. repeat constructor; eexists; reflexivity. Qed.

Lemma stock_has_names : Forall has_name stock.
Proof. repeat constructor; eexists; reflexivity. Qed.

Lemma presence_guard_gate_witness :
  (exists w', remove_item 0%nat [] {["item" := VStr "Gizmo"]} (world_with stock) = (ok VNone, w')
     /\ update_item 0%nat [] {["item" := VStr "Gizmo"]} (world_with stock) = (ok VNone, w')
     /\ heap w' = heap (world_with stock)
     /\ disk w' = disk (world_with stock)
     /\ stdout w' = stdout (world_with stock) ++ progress_output
                    ++ [("Item " +:+ "Gizmo" +:+ " not found.") +:+ nl])
  /\ (remove_item 0%nat [] {["item" := VStr "Widget"]} (world_with stock)
      = remove_item_body 0%nat [] {["item" := VStr "Widget"]}
          (add_out (world_with stock) progress_output)
      /\ update_item 0%nat [] {["item" := VStr "Widget"]} (world_with stock)
         = update_item_body 0%nat [] {["item" := VStr "Widget"]}
             (add_out (world_with stock) progress_output)).
Proof.
  split.
  - refine (proj1 (presence_guard_gate 0%nat stock "Gizmo" [] {["item" := VStr "Gizmo"]}
                     (world_with stock) _ stock_has_keys _) _);
      [reflexivity | reflexivity |].
    intros d [<-|[<-|[<-|[]]]]; discriminate.
  - refine (proj2 (presence_guard_gate 0%nat stock "Widget" [] {["item" := VStr "Widget"]}
                     (world_with stock) _ stock_has_keys _) _);
      [reflexivity | reflexivity |].
    exists widget. split; [now left | reflexivity].
Defined.

Lemma positional_name_is_not_found_witness :
  let w' := add_out (world_with stock)
              (progress_output ++ ["Item None not found." +:+ nl]) in
  (forall func : pyfun loc value,
     progress_bar (check_item_present func) 0%nat [VStr "Widget"] ∅ (world_with stock)
     = (ok VNone, w'))
  /\ remove_item 0%nat [VStr "Widget"] ∅ (world_with stock) = (ok VNone, w')
  /\ update_item 0%nat [VStr "Widget"] ∅ (world_with stock) = (ok VNone, w')
  /\ heap w' = heap (world_with stock)
  /\ disk w' = disk (world_with stock).
Proof.
  refine (positional_name_is_not_found 0%nat stock [VStr "Widget"] ∅
            (world_with stock) _ stock_has_names _); reflexivity.
Defined.

(** ** Updating *)

Lemma update_loop_run (item quantity expiration_date price : value) (rows : list dict) :
  Forall (fun d => is_Some (cells d !! "item")) rows ->
  update_loop item quantity expiration_date price rows
  = (map (update_row item quantity expiration_date price) rows, ok tt).
Proof.
  induction 1 as [|d rows [v Hv] _ IH]; [reflexivity|].
  cbn [update_loop map]. unfold getitem. rewrite Hv, IH. unfold ok at 1.
  unfold update_row at 2.
  destruct (decide (v = item)), (decide (cells d !! "item" = Some item));
    try reflexivity; congruence.
Qed.

Lemma DictWriter_writerow_heap (d : dict) (w : World) :
  heap (DictWriter_writerow d w).2 = heap w.
Proof.
  unfold DictWriter_writerow, bind, lift.
  destruct (csv.dict_to_list fieldnames d); reflexivity.
Qed.

Lemma write_rows_heap (rows : list dict) (w : World) :
  heap (for_each rows DictWriter_writerow w).2 = heap w.
Proof.
  revert w. induction rows as [|d rows IH]; intros w; [reflexivity|].
  cbn [for_each]. unfold bind.
  pose proof (DictWriter_writerow_heap d w) as Hd.
  destruct (DictWriter_writerow d w) as [[e|[]] w1]; simpl in *.
  - exact Hd.
  - now rewrite IH.
Qed.

(** Saving, whether it succeeds or not, leaves the list objects alone. *)
Lemma save_data_heap (rows : list dict) (w : World) :
  heap (save_data rows w).2 = heap w.
Proof.
  unfold save_data.
  erewrite bind_ok by reflexivity.
  erewrite bind_ok by apply writeheader_run.
  now rewrite write_rows_heap.
Qed.

(** The body of [update_item] once its arguments are bound: the rows of
    the caller's list are rewritten in place, then the list is saved. *)
Lemma update_item_body_run (data : loc) (rows : list dict) args kwargs
    (p : gmap string value) (w : World) :
  heap w !! data = Some rows ->
  Forall (fun d => is_Some (cells d !! "item")) rows ->
  bind_args ["item"; "quantity"; "expiration_date"; "price"] update_defaults args kwargs
  = ok p ->
  let rows' := map (update_row (param p "item") (param p "quantity")
                               (param p "expiration_date") (param p "price")) rows in
  update_item_body data args kwargs w
  = (save_data rows' ;; ret VNone) (set_heap w (<[data := rows']> (heap w))).
Proof.
  intros Hheap Hkeys Hbind rows'. unfold update_item_body.
  erewrite bind_lift_ok by exact Hbind.
  erewrite bind_ok by (apply deref_run, Hheap).
  rewrite update_loop_run by exact Hkeys. fold rows'.
  erewrite bind_ok by reflexivity.
  erewrite bind_lift_ok by reflexivity.
  erewrite bind_ok.
  2:{ apply deref_run. simpl. apply lookup_insert_eq. }
  reflexivity.
Qed.

Lemma update_row_other (item quantity expiration_date price : value) (d : dict) :
  cells d !! "item" <> Some item ->
  update_row item quantity expiration_date price d = d.
Proof. intros H. unfold update_row. now rewrite decide_False. Qed.

Lemma set_if_given_rest (k : string) (v : value) (d : dict) :
  rest (set_if_given k v d) = rest d.
Proof. unfold set_if_given. now destruct (decide (v = VNone)). Qed.

Lemma set_if_given_lookup_ne (k k' : string) (v : value) (d : dict) :
  k <> k' -> cells (set_if_given k v d) !! k' = cells d !! k'.
Proof.
  intros H. unfold set_if_given. destruct (decide (v = VNone)); [reflexivity|].
  simpl. now rewrite lookup_insert_ne.
Qed.

Lemma set_if_given_unset (k : string) (d : dict) : set_if_given k VNone d = d.
Proof. reflexivity. Qed.

Lemma update_row_rest (item quantity expiration_date price : value) (d : dict) :
  rest (update_row item quantity expiration_date price d) = rest d.
Proof.
  unfold update_row. destruct (decide _); [|reflexivity].
  now rewrite !set_if_given_rest.
Qed.

(** A field whose argument is unset, and every field that is not one of
    the three, keeps its cell. *)
Lemma update_row_frame (item quantity expiration_date price : value) (d : dict)
    (k : string) :
  (k = "quantity" -> quantity = VNone) ->
  (k = "expiration_date" -> expiration_date = VNone) ->
  (k = "price" -> price = VNone) ->
  cells (update_row item quantity expiration_date price d) !! k = cells d !! k.
Proof.
  intros Hq He Hp. unfold update_row. destruct (decide _); [|reflexivity].
  destruct (decide (k = "price")) as [->|Np].
  { rewrite (Hp eq_refl), set_if_given_unset.
    now rewrite !set_if_given_lookup_ne by discriminate. }
  rewrite set_if_given_lookup_ne by congruence.
  destruct (decide (k = "expiration_date")) as [->|Ne].
  { rewrite (He eq_refl), set_if_given_unset.
    now rewrite !set_if_given_lookup_ne by discriminate. }
  rewrite set_if_given_lookup_ne by congruence.
  destruct (decide (k = "quantity")) as [->|Nq].
  { now rewrite (Hq eq_refl), set_if_given_unset. }
  now rewrite set_if_given_lookup_ne by congruence.
Qed.

Lemma update_row_price_only (name : string) (price : value) (d : dict) :
  price <> VNone -> named d name ->
  update_row (VStr name) VNone VNone price d = setitem d "price" price.
Proof.
  intros Hp Hd. unfold update_row. rewrite decide_True by exact Hd.
  rewrite !set_if_given_unset. unfold set_if_given. now rewrite decide_False.
Qed.

(** [update_item] on a call that names an existing record by keyword:
    the caller's list holds the updated rows afterwards, whether or not
    the save that follows succeeds. *)
Lemma update_item_run (data : loc) (rows : list dict) (name : string)
    (kwargs p : gmap string value) (w : World) :
  heap w !! data = Some rows ->
  Forall (fun d => is_Some (cells d !! "item")) rows ->
  (exists d, In d rows /\ named d name) ->
  kwargs !! "item" = Some (VStr name) ->
  bind_args ["item"; "quantity"; "expiration_date"; "price"] update_defaults [] kwargs
  = ok p ->
  let rows' := map (update_row (param p "item") (param p "quantity")
                               (param p "expiration_date") (param p "price")) rows in
  update_item data [] kwargs w
  = (save_data rows' ;; ret VNone)
      (set_heap (add_out w progress_output) (<[data := rows']> (heap w))).
Proof.
  intros Hheap Hkeys Hsome Hitem Hbind rows'.
  destruct (presence_guard_gate_lemma data rows name [] kwargs w Hheap Hkeys Hitem)
    as [_ Hhit].
  destruct (Hhit Hsome) as [_ ->].
  now rewrite (update_item_body_run data rows [] kwargs p (add_out w progress_output)
                 Hheap Hkeys Hbind).
Qed.

Lemma save_then_ret_heap (rows : list dict) (w : World) :
  heap ((save_data rows ;; ret VNone) w).2 = heap w.
Proof.
  unfold bind. pose proof (save_data_heap rows w) as H.
  destruct (save_data rows w) as [[e|[]] w1]; exact H.
Qed.

(** C6 -- Updating the records named [name] with only a price changes,
    in the caller's record set, the price cell of the records with that
    name and nothing else: each such record becomes itself with the
    price overwritten, so its quantity and expiration date are the
    cells it had, and every other record is left as it was.  In general
    the update touches no field whose argument is left at [None], and
    no field other than quantity, expiration date and price. *)
Theorem update_item_partial (data : loc) (rows : list dict) (name : string) (w : World) :
  heap w !! data = Some rows ->
  Forall (fun d => is_Some (cells d !! "item")) rows ->
  (exists d, In d rows /\ named d name) ->
  (forall price : value, price <> VNone ->
     exists r w' rows',
       update_item data [] {["item" := VStr name; "price" := price]} w = (r, w')
       /\ heap w' !! data = Some rows'
       /\ rows' = map (update_row (VStr name) VNone VNone price) rows
       /\ forall d,
            (named d name ->
               update_row (VStr name) VNone VNone price d = setitem d "price" price
               /\ cells (setitem d "price" price) !! "quantity" = cells d !! "quantity"
               /\ cells (setitem d "price" price) !! "expiration_date"
                  = cells d !! "expiration_date")
            /\ (~ named d name -> update_row (VStr name) VNone VNone price d = d))
  /\ (forall quantity expiration_date price : value,
     exists r w' rows',
       update_item data []
         {["item" := VStr name; "quantity" := quantity;
           "expiration_date" := expiration_date; "price" := price]} w = (r, w')
       /\ heap w' !! data = Some rows'
       /\ rows' = map (update_row (VStr name) quantity expiration_date price) rows
       /\ forall d,
            let d' := update_row (VStr name) quantity expiration_date price d in
            rest d' = rest d
            /\ (quantity = VNone -> cells d' !! "quantity" = cells d !! "quantity")
            /\ (expiration_date = VNone ->
                cells d' !! "expiration_date" = cells d !! "expiration_date")
            /\ (price = VNone -> cells d' !! "price" = cells d !! "price")
            /\ (forall k, k <> "quantity" -> k <> "expiration_date" -> k <> "price" ->
                cells d' !! k = cells d !! k)
            /\ (~ named d name -> d' = d)).
Proof.
  intros Hheap Hkeys Hsome. split.
  - intros price Hprice.
    pose (kwargs := ({["item" := VStr name; "price" := price]} : gmap string value)).
    assert (Hbind : bind_args ["item"; "quantity"; "expiration_date"; "price"]
                      update_defaults [] kwargs
                    = ok (list_to_map (zip ["item"; "quantity"; "expiration_date"; "price"] [])
                          ∪ kwargs ∪ update_defaults))
      by (vm_compute; reflexivity).
    pose proof (update_item_run data rows name kwargs _ w Hheap Hkeys Hsome eq_refl Hbind)
      as Hrun.
    cbv zeta in Hrun. fold kwargs.
    change (param _ "item") with (VStr name) in Hrun.
    change (param _ "quantity") with VNone in Hrun.
    change (param _ "expiration_date") with VNone in Hrun.
    change (param _ "price") with price in Hrun.
    destruct ((save_data (map (update_row (VStr name) VNone VNone price) rows) ;; ret VNone)
                (set_heap (add_out w progress_output)
                   (<[data := map (update_row (VStr name) VNone VNone price) rows]> (heap w))))
      as [r w'] eqn:E.
    exists r, w', (map (update_row (VStr name) VNone VNone price) rows).
    split; [now rewrite Hrun|]. split.
    { pose proof (save_then_ret_heap
                    (map (update_row (VStr name) VNone VNone price) rows)
                    (set_heap (add_out w progress_output)
                       (<[data := map (update_row (VStr name) VNone VNone price) rows]>
                          (heap w)))) as Hh.
      rewrite E in Hh. simpl in Hh. rewrite Hh. apply lookup_insert_eq. }
    split; [reflexivity|]. intros d. split.
    + intros Hd. split; [now apply update_row_price_only|].
      split; simpl; now rewrite lookup_insert_ne by discriminate.
    + intros Hd. now apply update_row_other.
  - intros quantity expiration_date price.
    pose (kwargs := ({["item" := VStr name; "quantity" := quantity;
                       "expiration_date" := expiration_date; "price" := price]}
                     : gmap string value)).
    assert (Hbind : bind_args ["item"; "quantity"; "expiration_date"; "price"]
                      update_defaults [] kwargs
                    = ok (list_to_map (zip ["item"; "quantity"; "expiration_date"; "price"] [])
                          ∪ kwargs ∪ update_defaults))
      by (vm_compute; reflexivity).
    pose proof (update_item_run data rows name kwargs _ w Hheap Hkeys Hsome eq_refl Hbind)
      as Hrun.
    cbv zeta in Hrun. fold kwargs.
    change (param _ "item") with (VStr name) in Hrun.
    change (param _ "quantity") with quantity in Hrun.
    change (param _ "expiration_date") with expiration_date in Hrun.
    change (param _ "price") with price in Hrun.
    set (rows' := map (update_row (VStr name) quantity expiration_date price) rows) in *.
    destruct ((save_data rows' ;; ret VNone)
                (set_heap (add_out w progress_output) (<[data := rows']> (heap w))))
      as [r w'] eqn:E.
    exists r, w', rows'.
    split; [now rewrite Hrun|]. split.
    { pose proof (save_then_ret_heap rows'
                    (set_heap (add_out w progress_output) (<[data := rows']> (heap w))))
        as Hh.
      rewrite E in Hh. simpl in Hh. rewrite Hh. apply lookup_insert_eq. }
    split; [reflexivity|]. intros d d'. subst d'.
    split; [apply update_row_rest|].
    split; [intros ->; apply update_row_frame; (reflexivity || discriminate)|].
    split; [intros ->; apply update_row_frame; (reflexivity || discriminate)|].
    split; [intros ->; apply update_row_frame; (reflexivity || discriminate)|].
    split.
    + intros k Hq He Hp. apply update_row_frame; intros ->; congruence.
    + intros Hd. now apply update_row_other.
Qed.

Lemma update_item_partial_witness :
  exists r w' rows',
    update_item 0%nat [] {["item" := VStr "Widget"; "price" := VStr "9.99"]}
      (world_with stock) = (r, w')
    /\ heap w' !! 0%nat = Some rows'
    /\ rows' = [setitem widget "price" (VStr "9.99"); widget_lowercase; gadget].
Proof.
  assert (Hsome : exists d, In d stock /\ named d "Widget")
    by (exists widget; split; [now left | reflexivity]).
  destruct (update_item_partial 0%nat stock "Widget" (world_with stock)
              eq_refl stock_has_keys Hsome) as [Hprice _].
  assert (Hne : VStr "9.99" <> VNone) by discriminate.
  destruct (Hprice (VStr "9.99") Hne) as (r & w' & rows' & Hrun & Hheap & Hrows & _).
  exists r, w', rows'. split; [exact Hrun|]. split; [exact Hheap|].
  rewrite Hrows. reflexivity.
Defined.

(** ** Adding *)

Lemma fake_draw_run (w : World) :
  fake_draw w
  = (ok (fake_tape w (fake_pos w)),
     mkWorld (heap w) (disk w) (stdout w) (fake_tape w) (S (fake_pos w)) (today w)).
Proof. reflexivity. Qed.

Lemma well_formed_record (id item gtin mpn brand quantity expiration_date price : string) :
  well_formed (record id item gtin mpn brand quantity expiration_date price) = true.
Proof. vm_compute. reflexivity. Qed.

Lemma forallb_snoc {A} (p : A -> bool) (l : list A) (a : A) :
  forallb p l = true -> p a = true -> forallb p (l ++ [a]) = true.
Proof. intros Hl Ha. rewrite forallb_app, Hl. simpl. now rewrite Ha. Qed.

(** [add_item] with its four arguments given positionally, as [main.py]
    gives them: a record with four freshly drawn identifiers is appended
    to the caller's list, that list is saved, and nothing is returned. *)
Lemma add_item_run (data : loc) (rows : list dict)
    (item quantity expiration_date price : string) (w : World) :
  heap w !! data = Some rows ->
  forallb well_formed rows = true ->
  let n := fake_pos w in
  let row := record (fake_tape w n) item (fake_tape w (S n)) (fake_tape w (S (S n)))
                    (fake_tape w (S (S (S n)))) quantity expiration_date price in
  add_item data [VStr item; VStr quantity; VStr expiration_date; VStr price] ∅ w
  = (ok VNone,
     mkWorld (<[data := rows ++ [row]]> (heap w))
             (Some (saved_text (rows ++ [row])))
             (stdout w ++ progress_output
              ++ [("Item '" +:+ item +:+ "' added successfully.") +:+ nl])
             (fake_tape w) (S (S (S (S n)))) (today w)).
Proof.
  intros Hheap Hwf n row. unfold add_item. rewrite progress_bar_run.
  unfold add_item_body.
  pose (args := [VStr item; VStr quantity; VStr expiration_date; VStr price]).
  assert (Hbind : bind_args ["item"; "quantity"; "expiration_date"; "price"] ∅ args ∅
                  = ok (list_to_map (zip ["item"; "quantity"; "expiration_date"; "price"] args)
                        ∪ ∅ ∪ ∅))
    by (vm_compute; reflexivity).
  fold args.
  erewrite bind_lift_ok by exact Hbind.
  change (param _ "item") with (VStr item).
  change (param _ "quantity") with (VStr quantity).
  change (param _ "expiration_date") with (VStr expiration_date).
  change (param _ "price") with (VStr price).
  destruct w as [h d o t n0 c]. cbn [heap fake_pos fake_tape] in *. subst n.
  unfold add_out. cbn [heap disk stdout fake_tape fake_pos today].
  do 4 (erewrite bind_ok by apply fake_draw_run;
        cbn [heap disk stdout fake_tape fake_pos today]).
  erewrite bind_ok by (apply deref_run; exact Hheap).
  erewrite bind_ok by reflexivity.
  unfold set_heap; cbn [heap disk stdout fake_tape fake_pos today].
  erewrite bind_ok by (apply deref_run; apply lookup_insert_eq).
  erewrite bind_ok.
  2:{ apply save_data_well_formed. apply forallb_snoc; [exact Hwf|].
      apply well_formed_record. }
  unfold set_disk; cbn [heap disk stdout fake_tape fake_pos today].
  erewrite bind_ok by apply print_run.
  unfold add_out, ret; cbn [heap disk stdout fake_tape fake_pos today py_str].
  rewrite <- app_assoc. reflexivity.
Qed.

Lemma well_formed_spec (d : dict) :
  well_formed d = true
  <-> rest d = None
      /\ (forall k, In k fieldnames -> exists s, cells d !! k = Some (VStr s))
      /\ (forall k, is_Some (cells d !! k) -> In k fieldnames).
Proof.
  unfold well_formed. rewrite !andb_true_iff, bool_decide_eq_true, !forallb_forall.
  split.
  - intros [[H1 H2] H3]. split; [exact H1|]. split.
    + intros k Hk. specialize (H2 k Hk).
      destruct (cells d !! k) as [[|s]|]; try discriminate. eauto.
    + intros k [v Hv].
      assert (Hin : In k (map fst (map_to_list (cells d)))).
      { apply in_map_iff. exists (k, v). split; [reflexivity|].
        apply list_elem_of_In. now apply elem_of_map_to_list. }
      specialize (H3 k Hin). apply bool_decide_eq_true in H3.
      now apply list_elem_of_In.
  - intros (H1 & H2 & H3). split; [split; [exact H1|]|].
    + intros k Hk. destruct (H2 k Hk) as [s Hs]. now rewrite Hs.
    + intros k Hk. apply in_map_iff in Hk as ([k' v] & <- & Hkv).
      apply list_elem_of_In, elem_of_map_to_list in Hkv.
      apply bool_decide_eq_true, list_elem_of_In. apply H3. simpl. eauto.
Qed.

Lemma well_formed_set_if_given (k : string) (v : value) (d : dict) :
  In k fieldnames -> well_formed d = true -> well_formed (set_if_given k v d) = true.
Proof.
  intros Hk Hd. unfold set_if_given. destruct (decide (v = VNone)) as [|Hv]; [exact Hd|].
  apply well_formed_spec in Hd as (H1 & H2 & H3).
  apply well_formed_spec. simpl. split; [exact H1|]. split.
  - intros k' Hk'. destruct (decide (k = k')) as [->|Hne].
    + rewrite lookup_insert_eq. destruct v as [|s]; [congruence | eauto].
    + rewrite lookup_insert_ne by exact Hne. now apply H2.
  - intros k' Hs. destruct (decide (k = k')) as [->|Hne]; [exact Hk|].
    rewrite lookup_insert_ne in Hs by exact Hne. now apply H3.
Qed.

Lemma well_formed_update_row (item quantity expiration_date price : value) (d : dict) :
  well_formed d = true ->
  well_formed (update_row item quantity expiration_date price d) = true.
Proof.
  intros Hd. unfold update_row. destruct (decide _); [|exact Hd].
  repeat apply well_formed_set_if_given; try exact Hd;
    unfold fieldnames; simpl; tauto.
Qed.

Lemma forallb_map_preserved {A} (p : A -> bool) (f : A -> A) (l : list A) :
  (forall a, p a = true -> p (f a) = true) ->
  forallb p l = true -> forallb p (map f l) = true.
Proof.
  intros Hf. rewrite !forallb_forall. intros H b Hb.
  apply in_map_iff in Hb as (a & <- & Ha). auto.
Qed.

(** [update_item] on well-formed records: the updated rows are in the
    caller's list and in the file, and nothing is returned. *)
Lemma update_item_saved (data : loc) (rows : list dict) (name : string)
    (quantity expiration_date price : value) (w : World) :
  heap w !! data = Some rows ->
  forallb well_formed rows = true ->
  (exists d, In d rows /\ named d name) ->
  let rows' := map (update_row (VStr name) quantity expiration_date price) rows in
  update_item data []
    {["item" := VStr name; "quantity" := quantity;
      "expiration_date" := expiration_date; "price" := price]} w
  = (ok VNone,
     mkWorld (<[data := rows']> (heap w)) (Some (saved_text rows'))
             (stdout w ++ progress_output) (fake_tape w) (fake_pos w) (today w)).
Proof.
  intros Hheap Hwf Hsome rows'.
  assert (Hkeys : Forall (fun d => is_Some (cells d !! "item")) rows).
  { eapply List.Forall_impl; [|apply well_formed_all_named, Hwf].
    apply has_name_is_Some. }
  pose (kwargs := ({["item" := VStr name; "quantity" := quantity;
                     "expiration_date" := expiration_date; "price" := price]}
                   : gmap string value)).
  assert (Hbind : bind_args ["item"; "quantity"; "expiration_date"; "price"]
                    update_defaults [] kwargs
                  = ok (list_to_map (zip ["item"; "quantity"; "expiration_date"; "price"] [])
                        ∪ kwargs ∪ update_defaults))
    by (vm_compute; reflexivity).
  pose proof (update_item_run data rows name kwargs _ w Hheap Hkeys Hsome eq_refl Hbind)
    as Hrun.
  cbv zeta in Hrun. fold kwargs.
  change (param _ "item") with (VStr name) in Hrun.
  change (param _ "quantity") with quantity in Hrun.
  change (param _ "expiration_date") with expiration_date in Hrun.
  change (param _ "price") with price in Hrun.
  fold rows' in Hrun. rewrite Hrun.
  erewrite bind_ok.
  2:{ apply save_data_well_formed. apply forallb_map_preserved; [|exact Hwf].
      intros d. apply well_formed_update_row. }
  reflexivity.
Qed.

(** ** What the mutating operations return and where their result is *)

(** C3 -- None of the mutating operations returns the record set.  On
    the sample stock, [add_item] called as [main.py] calls it appends
    the new record to the caller's list and returns [None], not the
    sequence with the record appended; [remove_item] and [update_item]
    return [None] as well. *)
Theorem mutating_operations_return_None :
  let added := add_item 0%nat [VStr "Sprocket"; VStr "7"; VStr "2025-03-01"; VStr "4.25"] ∅
                 (world_with stock) in
  added.1 = ok VNone
  /\ heap added.2 !! 0%nat
     = Some (stock ++ [record "id-9" "Sprocket" "4006381333939" "73513540" "Cog and Sons"
                              "7" "2025-03-01" "4.25"])
  /\ (remove_item 0%nat [] {["item" := VStr "Widget"]} (world_with stock)).1 = ok VNone
  /\ (update_item 0%nat [] {["item" := VStr "Widget"; "price" := VStr "9.99"]}
        (world_with stock)).1 = ok VNone.
Proof. vm_compute. repeat split; reflexivity. Qed.

(** C2 -- Evaluated on the sample stock: after [remove_item] removed
    "Widget", the file holds the one record that is left, while the list
    the caller passed still holds all three records; nothing is
    returned through which the caller could get the new set. *)
Theorem remove_item_leaves_the_callers_list :
  let run := remove_item 0%nat [] {["item" := VStr "Widget"]} (world_with stock) in
  run.1 = ok VNone
  /\ heap run.2 !! 0%nat = Some [widget; widget_lowercase; gadget]
  /\ disk run.2 = Some (saved_text [gadget])
  /\ (load_data run.2).1 = ok [gadget].
Proof. vm_compute. repeat split; reflexivity. Qed.

(** ** Dates and sorting *)

Lemma ltb_iff (a b : date) :
  datetime.ltb a b = true
  <-> (year a < year b
       \/ (year a = year b
           /\ (month a < month b \/ (month a = month b /\ day a < day b))))%nat.
Proof.
  unfold datetime.ltb.
  rewrite !orb_true_iff, !andb_true_iff, !orb_true_iff, !andb_true_iff,
    !Nat.ltb_lt, !Nat.eqb_eq.
  reflexivity.
Qed.

Lemma date_le_iff (a b : date) :
  date_le a b
  <-> ~ (year b < year a
         \/ (year b = year a
             /\ (month b < month a \/ (month b = month a /\ day b < day a))))%nat.
Proof. unfold date_le. now rewrite <- not_true_iff_false, ltb_iff. Qed.

Lemma date_le_trans (a b c : date) : date_le a b -> date_le b c -> date_le a c.
Proof. rewrite !date_le_iff. lia. Qed.

Lemma ltb_date_le (a b : date) : datetime.ltb a b = true -> date_le a b.
Proof. rewrite date_le_iff, ltb_iff. lia. Qed.

Lemma ltb_irrefl (a : date) : datetime.ltb a a = false.
Proof. apply not_true_iff_false. rewrite ltb_iff. lia. Qed.

Section Sorting.
Context {A : Type}.

Lemma insert_sorted_perm (k : date) (x : A) (l : list (date * A)) :
  Permutation ((k, x) :: l) (insert_sorted k x l).
Proof.
  induction l as [|[k' y] l IH]; [reflexivity|].
  cbn [insert_sorted]. destruct (datetime.ltb k' k); [|reflexivity].
  rewrite perm_swap. now apply perm_skip.
Qed.

Lemma sorted_perm (l : list (date * A)) : Permutation l (sorted l).
Proof.
  induction l as [|[k x] l IH]; [reflexivity|].
  cbn [sorted]. rewrite <- insert_sorted_perm. now apply perm_skip.
Qed.

Lemma insert_sorted_sorted (k : date) (x : A) (l : list (date * A)) :
  StronglySorted le_key l -> StronglySorted le_key (insert_sorted k x l).
Proof.
  induction 1 as [|[k' y] l Hl IH Hall].
  - repeat constructor.
  - cbn [insert_sorted]. destruct (datetime.ltb k' k) eqn:E.
    + constructor; [exact IH|].
      eapply Permutation_Forall; [apply insert_sorted_perm|].
      constructor; [|exact Hall]. now apply ltb_date_le.
    + constructor; [now constructor|].
      constructor; [exact E|].
      eapply List.Forall_impl; [|exact Hall].
      intros p Hp. eapply date_le_trans; [exact E | exact Hp].
Qed.

Lemma sorted_sorted (l : list (date * A)) : StronglySorted le_key (sorted l).
Proof.
  induction l as [|[k x] l IH]; [constructor|].
  cbn [sorted]. now apply insert_sorted_sorted.
Qed.

(** Stability: the elements with a given key come out in the order
    in which they went in. *)
Lemma insert_sorted_stable (k0 k : date) (x : A) (l : list (date * A)) :
  List.filter (fun p => bool_decide (p.1 = k0)) (insert_sorted k x l)
  = List.filter (fun p => bool_decide (p.1 = k0)) ((k, x) :: l).
Proof.
  induction l as [|[k' y] l IH]; [reflexivity|].
  cbn [insert_sorted]. destruct (datetime.ltb k' k) eqn:E; [|reflexivity].
  cbn [List.filter fst] in *. rewrite IH.
  destruct (bool_decide (k' = k0)) eqn:E1, (bool_decide (k = k0)) eqn:E2;
    try reflexivity.
  apply bool_decide_eq_true in E1, E2. subst.
  now rewrite ltb_irrefl in E.
Qed.

Lemma sorted_stable (k0 : date) (l : list (date * A)) :
  List.filter (fun p => bool_decide (p.1 = k0)) (sorted l)
  = List.filter (fun p => bool_decide (p.1 = k0)) l.
Proof.
  induction l as [|[k x] l IH]; [reflexivity|].
  cbn [sorted]. rewrite insert_sorted_stable.
  cbn [List.filter]. now rewrite IH.
Qed.
End Sorting.

Lemma rmap_keys (data : list dict) :
  (forall d, In d data -> exists k, expiration_key d = ok k) ->
  rmap expiration_key data = ok (map key_of data).
Proof.
  induction data as [|d data IH]; intros H; [reflexivity|].
  cbn [rmap map]. destruct (H d (or_introl eq_refl)) as [k Hk].
  unfold key_of at 1. rewrite Hk, IH by (intros; apply H; now right).
  reflexivity.
Qed.

Lemma zip_keys (data : list dict) :
  zip (map key_of data) data = map (fun d => (key_of d, d)) data.
Proof. induction data as [|d data IH]; [reflexivity|]. cbn. now rewrite IH. Qed.

(** The pairs that [sort_by_expiration_date] sorts. *)
Lemma tagged_consistent (data : list dict) (p : date * dict) :
  In p (sorted (map (fun d => (key_of d, d)) data)) -> p.1 = key_of p.2.
Proof.
  intros Hp. eapply Permutation_in in Hp; [|symmetry; apply sorted_perm].
  apply in_map_iff in Hp as (d & <- & _). reflexivity.
Qed.

Lemma filter_map_snd (k : date) (l : list (date * dict)) :
  (forall p, In p l -> p.1 = key_of p.2) ->
  List.filter (fun d => bool_decide (key_of d = k)) (map snd l)
  = map snd (List.filter (fun p => bool_decide (p.1 = k)) l).
Proof.
  induction l as [|p l IH]; intros H; [reflexivity|].
  cbn [map List.filter]. rewrite <- (H p (or_introl eq_refl)).
  rewrite IH by (intros; apply H; now right).
  now destruct (bool_decide (p.1 = k)).
Qed.

Lemma StronglySorted_map_snd (l : list (date * dict)) :
  (forall p, In p l -> p.1 = key_of p.2) ->
  StronglySorted le_key l ->
  StronglySorted (fun a b => date_le (key_of a) (key_of b)) (map snd l).
Proof.
  intros H. induction 1 as [|p l Hl IH Hall]; [constructor|].
  cbn [map]. constructor.
  - apply IH. intros; apply H; now right.
  - apply Forall_map, List.Forall_forall. intros q Hq.
    rewrite List.Forall_forall in Hall. specialize (Hall q Hq).
    unfold le_key in Hall.
    now rewrite (H p (or_introl eq_refl)), (H q (or_intror Hq)) in Hall.
Qed.

(** The sort on records whose dates all parse. *)
Lemma sort_by_expiration_date_run (data : list dict) :
  (forall d, In d data -> exists k, expiration_key d = ok k) ->
  sort_by_expiration_date data
  = ok (map snd (sorted (map (fun d => (key_of d, d)) data))).
Proof.
  intros H. unfold sort_by_expiration_date.
  rewrite rmap_keys by exact H. cbn [rbind ok]. now rewrite zip_keys.
Qed.

(** X7 -- The sort used by the report and by the expiration view puts
    the records in ascending order of their parsed expiration dates and
    is stable: whenever all dates parse, the result is a rearrangement
    of the input, no record comes before one with an earlier date, and
    the records with one and the same date keep the order they had.
    For records dated 2024-01-01, 2023-06-01, 2023-06-01 entered in
    that order, the report and the expiration view both list the two
    records of 2023-06-01 first, in the order they were entered, and
    then the record of 2024-01-01. *)
Theorem sort_is_stable_and_ascending :
  (forall data : list dict,
     (forall d, In d data -> exists k, expiration_key d = ok k) ->
     exists sorted_data,
       sort_by_expiration_date data = ok sorted_data
       /\ Permutation data sorted_data
       /\ StronglySorted (fun a b => date_le (key_of a) (key_of b)) sorted_data
       /\ forall k, List.filter (fun d => bool_decide (key_of d = k)) sorted_data
                    = List.filter (fun d => bool_decide (key_of d = k)) data)
  /\ (let run := get_full_report [january; june_first; june_second] [] ∅ (world_with []) in
      run.1 = ok VNone
      /\ stdout run.2
         = progress_output
           ++ [(nl +:+ "Full Inventory Report") +:+ nl;
               repeat_char "-" 71 +:+ nl;
               header_row "|" " | " +:+ nl;
               repeat_char "-" 71 +:+ nl;
               printed_row "|" " | " june_first;
               printed_row "|" " | " june_second;
               printed_row "|" " | " january;
               repeat_char "-" 71 +:+ nl])
  /\ (let run := get_expired_items [january; june_first; june_second] [] ∅ (world_with []) in
      run.1 = ok [june_first; june_second; january]
      /\ stdout run.2
         = progress_output
           ++ [(nl +:+ "Expired Items") +:+ nl;
               repeat_char "-" 70 +:+ nl;
               header_row "" " | " +:+ nl;
               repeat_char "-" 70 +:+ nl;
               printed_row "" " | " june_first;
               printed_row "" " | " june_second;
               printed_row "" " | " january;
               repeat_char "-" 70 +:+ nl]).
Proof.
  split; [|split].
  - intros data Hparse.
    pose proof (tagged_consistent data) as Htag.
    eexists. split; [apply sort_by_expiration_date_run, Hparse|].
    split; [|split].
    + rewrite <- (map_id data) at 1.
      rewrite <- (map_ext (fun d => snd (key_of d, d)) id) by reflexivity.
      rewrite <- (map_map (fun d => (key_of d, d)) snd).
      apply Permutation_map, sorted_perm.
    + apply StronglySorted_map_snd; [exact Htag | apply sorted_sorted].
    + intros k. rewrite filter_map_snd by exact Htag.
      rewrite sorted_stable.
      rewrite <- filter_map_snd by (intros p Hp; apply in_map_iff in Hp as (d & <- & _);
                                    reflexivity).
      rewrite map_map. cbn [snd]. now rewrite map_id.
  - vm_compute. split; reflexivity.
  - vm_compute. split; reflexivity.
Qed.

(** ** The views only print *)

Lemma only_prints_ret {A} (a : A) : only_prints (ret a).
Proof. intros w. exists []. simpl. now rewrite add_out_nil. Qed.

Lemma only_prints_lift {A} (r : result A) : only_prints (lift r).
Proof. intros w. exists []. simpl. now rewrite add_out_nil. Qed.

Lemma only_prints_print (s : string) : only_prints (print s).
Proof. intros w. eexists. reflexivity. Qed.

Lemma only_prints_stdout_write (s : string) : only_prints (stdout_write s).
Proof. intros w. eexists. reflexivity. Qed.

Lemma only_prints_get_today : only_prints get_today.
Proof. intros w. exists []. simpl. now rewrite add_out_nil. Qed.

Lemma only_prints_bind {A B} (m : M A) (k : A -> M B) :
  only_prints m -> (forall a, only_prints (k a)) -> only_prints (bind m k).
Proof.
  intros Hm Hk w. unfold bind. destruct (Hm w) as [l Hl].
  destruct (m w) as [[e|a] w1]; simpl in Hl; subst w1.
  - now exists l.
  - destruct (Hk a (add_out w l)) as [l' Hl'].
    exists (l ++ l'). now rewrite Hl', add_out_add_out.
Qed.

Lemma only_prints_for_each {A} (l : list A) (body : A -> M unit) :
  (forall a, only_prints (body a)) -> only_prints (for_each l body).
Proof.
  intros Hb. induction l as [|a l IH]; [apply only_prints_ret|].
  cbn [for_each]. apply only_prints_bind; [apply Hb | intros _; exact IH].
Qed.

Lemma only_prints_print_rows (opening sep : string) (rows : list dict) :
  only_prints (print_rows opening sep rows).
Proof.
  apply only_prints_for_each. intros d.
  apply only_prints_bind; [apply only_prints_lift | intros; apply only_prints_print].
Qed.

Lemma only_prints_progress_bar {D R} (func : pyfun D R) data args kwargs :
  only_prints (func data args kwargs) ->
  only_prints (progress_bar func data args kwargs).
Proof.
  intros H w. rewrite progress_bar_run.
  destruct (H (add_out w progress_output)) as [l Hl].
  exists (progress_output ++ l). now rewrite Hl, add_out_add_out.
Qed.

Ltac only_prints_tac :=
  repeat first
    [ apply only_prints_bind; [|intros ?]
    | apply only_prints_lift
    | apply only_prints_print
    | apply only_prints_print_rows
    | apply only_prints_get_today
    | apply only_prints_ret ].

Lemma only_prints_get_full_report data args kwargs :
  only_prints (get_full_report data args kwargs).
Proof.
  apply only_prints_progress_bar. unfold get_full_report_body.
  apply only_prints_bind; [apply only_prints_lift | intros _].
  destruct data; only_prints_tac.
Qed.

Lemma only_prints_search_item data args kwargs :
  only_prints (search_item data args kwargs).
Proof.
  apply only_prints_progress_bar. unfold search_item_body. only_prints_tac.
Qed.

Lemma only_prints_get_expired_items data args kwargs :
  only_prints (get_expired_items data args kwargs).
Proof.
  apply only_prints_progress_bar. unfold get_expired_items_body.
  apply only_prints_bind; [apply only_prints_lift | intros _].
  apply only_prints_bind; [apply only_prints_get_today | intros today].
  apply only_prints_bind; [apply only_prints_lift | intros expired].
  destruct expired; only_prints_tac.
Qed.

(** X1 -- The three views are read-only: whatever records and arguments
    they are given, and whether they return or raise, the report, the
    search and the expiration view leave every list object, the file,
    the Faker instance and the clock as they found them; they only add
    to what is on the terminal. *)
Theorem views_never_write (data : list dict) (args : list value)
    (kwargs : gmap string value) (w : World) :
  let unchanged (w' : World) :=
    heap w' = heap w /\ disk w' = disk w /\ fake_pos w' = fake_pos w
    /\ today w' = today w /\ exists l, stdout w' = stdout w ++ l in
  unchanged (get_full_report data args kwargs w).2
  /\ unchanged (search_item data args kwargs w).2
  /\ unchanged (get_expired_items data args kwargs w).2.
Proof.
  intros unchanged.
  assert (H : forall w', (exists l, w' = add_out w l) -> unchanged w').
  { intros w' [l ->]. unfold unchanged. simpl. repeat split. now exists l. }
  split; [|split]; apply H.
  - apply only_prints_get_full_report.
  - apply only_prints_search_item.
  - apply only_prints_get_expired_items.
Qed.

(** ** Listings *)

Lemma well_formed_cell (d : dict) (k : string) :
  well_formed d = true -> In k fieldnames -> exists s, cells d !! k = Some (VStr s).
Proof. intros H Hk. apply well_formed_spec in H as (_ & H & _). now apply H. Qed.

Lemma well_formed_renders (opening sep : string) (d : dict) :
  well_formed d = true -> exists line, render_row opening sep d = ok line.
Proof.
  intros H. unfold render_row, getitem.
  destruct (well_formed_cell d "item" H) as [a ->]; [unfold fieldnames; simpl; tauto|].
  destruct (well_formed_cell d "quantity" H) as [b ->]; [unfold fieldnames; simpl; tauto|].
  destruct (well_formed_cell d "expiration_date" H) as [c ->];
    [unfold fieldnames; simpl; tauto|].
  destruct (well_formed_cell d "price" H) as [e ->]; [unfold fieldnames; simpl; tauto|].
  cbn [rbind ok format_left]. eauto.
Qed.

Lemma print_rows_run (opening sep : string) (rows : list dict) (w : World) :
  (forall d, In d rows -> exists line, render_row opening sep d = ok line) ->
  print_rows opening sep rows w
  = (ok tt, add_out w (map (printed_row opening sep) rows)).
Proof.
  revert w. induction rows as [|d rows IH]; intros w H.
  - simpl. now rewrite add_out_nil.
  - unfold print_rows in *. cbn [for_each map].
    destruct (H d (or_introl eq_refl)) as [line Hline].
    erewrite bind_ok.
    2:{ erewrite bind_lift_ok by exact Hline. apply print_run. }
    rewrite IH by (intros; apply H; now right).
    rewrite add_out_add_out. unfold printed_row at 2. rewrite Hline. reflexivity.
Qed.

Lemma print_rows_well_formed (opening sep : string) (rows : list dict) (w : World) :
  forallb well_formed rows = true ->
  print_rows opening sep rows w
  = (ok tt, add_out w (map (printed_row opening sep) rows)).
Proof.
  intros H. apply print_rows_run. intros d Hd. apply well_formed_renders.
  rewrite forallb_forall in H. now apply H.
Qed.





Lemma forallb_perm {A} (p : A -> bool) (l l' : list A) :
  Permutation l l' -> forallb p l = true -> forallb p l' = true.
Proof.
  intros HP. rewrite !forallb_forall. intros H x Hx. apply H.
  eapply Permutation_in; [symmetry; exact HP | exact Hx].
Qed.

Lemma sorted_by_date_perm (data : list dict) : Permutation data (sorted_by_date data).
Proof.
  unfold sorted_by_date.
  rewrite <- (map_id data) at 1.
  rewrite <- (map_ext (fun d => snd (key_of d, d)) id) by reflexivity.
  rewrite <- (map_map (fun d => (key_of d, d)) snd).
  apply Permutation_map, sorted_perm.
Qed.

Lemma sort_by_expiration_date_sorted_by_date (data : list dict) :
  (forall d, In d data -> exists k, expiration_key d = ok k) ->
  sort_by_expiration_date data = ok (sorted_by_date data).
Proof. apply sort_by_expiration_date_run. Qed.

(** The first record whose key cannot be computed decides how the sort
    ends. *)
Lemma rmap_keys_raise (good : list dict) (bad : dict) (others : list dict) (e : exn) :
  (forall d, In d good -> exists k, expiration_key d = ok k) ->
  expiration_key bad = raise e ->
  rmap expiration_key (good ++ bad :: others) = raise e.
Proof.
  intros Hgood Hbad. induction good as [|d good IH].
  - cbn [app rmap]. now rewrite Hbad.
  - cbn [app rmap]. destruct (Hgood d (or_introl eq_refl)) as [k ->].
    cbn [rbind ok]. rewrite IH by (intros; apply Hgood; now right). reflexivity.
Qed.

Lemma sort_by_expiration_date_raise (good : list dict) (bad : dict)
    (others : list dict) (e : exn) :
  (forall d, In d good -> exists k, expiration_key d = ok k) ->
  expiration_key bad = raise e ->
  sort_by_expiration_date (good ++ bad :: others) = raise e.
Proof.
  intros Hgood Hbad. unfold sort_by_expiration_date.
  now rewrite (rmap_keys_raise good bad others e Hgood Hbad).
Qed.

Lemma bind_args_none : bind_args [] ∅ [] ∅ = ok (∅ ∪ ∅ ∪ ∅).
Proof. reflexivity. Qed.

Lemma get_full_report_empty (w : World) :
  get_full_report [] [] ∅ w
  = (ok VNone, add_out w (progress_output ++ ["No items in the inventory." +:+ nl])).
Proof.
  unfold get_full_report. rewrite progress_bar_run. unfold get_full_report_body.
  erewrite bind_lift_ok by apply bind_args_none.
  erewrite bind_ok by apply print_run.
  unfold ret. now rewrite add_out_add_out.
Qed.

Lemma get_full_report_table (data : list dict) (w : World) :
  data <> [] ->
  forallb well_formed data = true ->
  (forall d, In d data -> exists k, expiration_key d = ok k) ->
  get_full_report data [] ∅ w
  = (ok VNone,
     add_out w (progress_output
                ++ [(nl +:+ "Full Inventory Report") +:+ nl;
                    repeat_char "-" 71 +:+ nl;
                    header_row "|" " | " +:+ nl;
                    repeat_char "-" 71 +:+ nl]
                ++ map (printed_row "|" " | ") (sorted_by_date data)
                ++ [repeat_char "-" 71 +:+ nl])).
Proof.
  intros Hne Hwf Hparse. unfold get_full_report. rewrite progress_bar_run.
  unfold get_full_report_body.
  erewrite bind_lift_ok by apply bind_args_none.
  destruct data as [|d0 data0]; [congruence|].
  erewrite bind_lift_ok by (apply sort_by_expiration_date_sorted_by_date, Hparse).
  do 4 (erewrite bind_ok by apply print_run; rewrite ?add_out_add_out).
  erewrite bind_ok.
  2:{ apply print_rows_well_formed.
      eapply forallb_perm; [apply sorted_by_date_perm | exact Hwf]. }
  erewrite bind_ok by apply print_run.
  unfold ret. rewrite !add_out_add_out, <- !app_assoc. reflexivity.
Qed.

Lemma get_full_report_raise (good : list dict) (bad : dict) (others : list dict)
    (e : exn) (w : World) :
  (forall d, In d good -> exists k, expiration_key d = ok k) ->
  expiration_key bad = raise e ->
  get_full_report (good ++ bad :: others) [] ∅ w
  = (raise e, add_out w progress_output).
Proof.
  intros Hgood Hbad. unfold get_full_report. rewrite progress_bar_run.
  unfold get_full_report_body.
  erewrite bind_lift_ok by apply bind_args_none.
  destruct (good ++ bad :: others) as [|d0 data0] eqn:E.
  { now destruct good. }
  rewrite <- E. unfold bind, lift.
  now rewrite (sort_by_expiration_date_raise good bad others e Hgood Hbad).
Qed.

(** X3 -- The report: on an empty set it prints the "No items" notice
    and nothing else; on well-formed records whose dates parse it prints
    the title, the ruled header and one line per record, in ascending
    order of expiration date with equal dates in their original order,
    and a closing rule; and when the date of some record cannot be read
    it raises the error of the first such record after the progress
    bar, before any line of the table is printed.  It returns nothing in
    each case. *)
Theorem get_full_report_prints (data : list dict) (w : World) :
  (data = [] ->
     get_full_report data [] ∅ w
     = (ok VNone, add_out w (progress_output ++ ["No items in the inventory." +:+ nl])))
  /\ (data <> [] ->
      forallb well_formed data = true ->
      (forall d, In d data -> exists k, expiration_key d = ok k) ->
      get_full_report data [] ∅ w
      = (ok VNone,
         add_out w (progress_output
                    ++ [(nl +:+ "Full Inventory Report") +:+ nl;
                        repeat_char "-" 71 +:+ nl;
                        header_row "|" " | " +:+ nl;
                        repeat_char "-" 71 +:+ nl]
                    ++ map (printed_row "|" " | ") (sorted_by_date data)
                    ++ [repeat_char "-" 71 +:+ nl])))
  /\ (forall good bad others e,
      data = good ++ bad :: others ->
      (forall d, In d good -> exists k, expiration_key d = ok k) ->
      expiration_key bad = raise e ->
      get_full_report data [] ∅ w = (raise e, add_out w progress_output)).
Proof.
  split; [|split].
  - intros ->. apply get_full_report_empty.
  - apply get_full_report_table.
  - intros good bad others e -> Hgood Hbad. now apply get_full_report_raise.
Qed.

Lemma get_full_report_prints_witness :
  get_full_report stock [] ∅ (world_with stock)
  = (ok VNone,
     add_out (world_with stock)
       (progress_output
        ++ [(nl +:+ "Full Inventory Report") +:+ nl;
            repeat_char "-" 71 +:+ nl;
            header_row "|" " | " +:+ nl;
            repeat_char "-" 71 +:+ nl]
        ++ map (printed_row "|" " | ") [gadget; widget; widget_lowercase]
        ++ [repeat_char "-" 71 +:+ nl]))
  /\ get_full_report ([widget] ++ setitem gadget "expiration_date" (VStr "2023-02-30") :: [])
       [] ∅ (world_with stock)
     = (raise ValueError, add_out (world_with stock) progress_output).
Proof.
  split.
  - refine (proj1 (proj2 (get_full_report_prints stock (world_with stock))) _ _ _).
    + discriminate.
    + reflexivity.
    + intros d [<-|[<-|[<-|[]]]]; eexists; reflexivity.
  - refine (proj2 (proj2 (get_full_report_prints _ (world_with stock)))
              [widget] _ [] ValueError eq_refl _ _).
    + intros d [<-|[]]; eexists; reflexivity.
    + reflexivity.
Defined.

(** ** The expiration view *)

Lemma expired_filter_run (today : date) (data : list dict) :
  (forall d, In d data -> exists k, expiration_key d = ok k) ->
  expired_filter today data = ok (expired_on today data).
Proof.
  induction data as [|d data IH]; intros H; [reflexivity|].
  cbn [expired_filter]. unfold expired_on in *. cbn [List.filter].
  destruct (H d (or_introl eq_refl)) as [k Hk].
  unfold key_of at 1. rewrite Hk, IH by (intros; apply H; now right).
  reflexivity.
Qed.

Lemma expired_on_In (today : date) (data : list dict) (d : dict) :
  In d (expired_on today data) <-> In d data /\ datetime.ltb (key_of d) today = true.
Proof. unfold expired_on. apply List.filter_In. Qed.

Lemma get_expired_items_run (data : list dict) (w : World) :
  forallb well_formed data = true ->
  (forall d, In d data -> exists k, expiration_key d = ok k) ->
  let selected := expired_on (today w) data in
  get_expired_items data [] ∅ w
  = (ok (sorted_by_date selected),
     add_out w
       (progress_output
        ++ match selected with
           | [] => ["No expired items found." +:+ nl]
           | _ => [(nl +:+ "Expired Items") +:+ nl;
                   repeat_char "-" 70 +:+ nl;
                   header_row "" " | " +:+ nl;
                   repeat_char "-" 70 +:+ nl]
                  ++ map (printed_row "" " | ") (sorted_by_date selected)
                  ++ [repeat_char "-" 70 +:+ nl]
           end)).
Proof.
  intros Hwf Hparse selected. unfold get_expired_items. rewrite progress_bar_run.
  unfold get_expired_items_body.
  erewrite bind_lift_ok by apply bind_args_none.
  erewrite bind_ok by reflexivity.
  erewrite bind_lift_ok by (apply expired_filter_run, Hparse).
  change (today (add_out w progress_output)) with (today w). fold selected.
  assert (Hsel : forallb well_formed selected = true)
    by (unfold selected, expired_on; now apply forallb_filter).
  assert (Hpsel : forall d, In d selected -> exists k, expiration_key d = ok k).
  { intros d Hd. apply Hparse. now apply expired_on_In in Hd as [Hd _]. }
  destruct selected as [|d0 sel0] eqn:E.
  - erewrite bind_ok by apply print_run.
    unfold ret. now rewrite add_out_add_out.
  - rewrite <- E in *.
    erewrite bind_lift_ok by (apply sort_by_expiration_date_sorted_by_date, Hpsel).
    do 4 (erewrite bind_ok by apply print_run; rewrite ?add_out_add_out).
    erewrite bind_ok.
    2:{ apply print_rows_well_formed.
        eapply forallb_perm; [apply sorted_by_date_perm | exact Hsel]. }
    erewrite bind_ok by apply print_run.
    unfold ret. rewrite !add_out_add_out, <- !app_assoc. reflexivity.
Qed.

(** X4 -- The expiration view on well-formed records whose dates parse
    returns exactly the records dated strictly before today, sorted by
    date, and prints them as a table; a record dated today, or later, is
    never among them; and when no record is dated before today it
    prints the "No expired items" notice and returns the empty list. *)
Theorem get_expired_items_selects_strictly (data : list dict) (w : World) :
  forallb well_formed data = true ->
  (forall d, In d data -> exists k, expiration_key d = ok k) ->
  let selected := expired_on (today w) data in
  get_expired_items data [] ∅ w
  = (ok (sorted_by_date selected),
     add_out w
       (progress_output
        ++ match selected with
           | [] => ["No expired items found." +:+ nl]
           | _ => [(nl +:+ "Expired Items") +:+ nl;
                   repeat_char "-" 70 +:+ nl;
                   header_row "" " | " +:+ nl;
                   repeat_char "-" 70 +:+ nl]
                  ++ map (printed_row "" " | ") (sorted_by_date selected)
                  ++ [repeat_char "-" 70 +:+ nl]
           end))
  /\ (forall d, In d (sorted_by_date selected)
                <-> In d data /\ datetime.ltb (key_of d) (today w) = true)
  /\ (forall d, date_le (today w) (key_of d) -> ~ In d (sorted_by_date selected))
  /\ ((forall d, In d data -> date_le (today w) (key_of d)) ->
      selected = [] /\ sorted_by_date selected = []).
Proof.
  intros Hwf Hparse selected.
  assert (Hin : forall d, In d (sorted_by_date selected)
                          <-> In d data /\ datetime.ltb (key_of d) (today w) = true).
  { intros d. rewrite <- expired_on_In. fold selected. split; intros Hd.
    - eapply Permutation_in; [symmetry; apply sorted_by_date_perm | exact Hd].
    - eapply Permutation_in; [apply sorted_by_date_perm | exact Hd]. }
  split; [now apply get_expired_items_run|].
  split; [exact Hin|]. split.
  - intros d Hle Hd. apply Hin in Hd as [_ Hd]. unfold date_le in Hle. congruence.
  - intros Hall.
    assert (Hnil : selected = []).
    { destruct selected as [|d l] eqn:E; [reflexivity|]. exfalso.
      assert (Hd : In d (expired_on (today w) data)) by (fold selected; rewrite E; now left).
      apply expired_on_In in Hd as [Hd Hlt].
      specialize (Hall d Hd). unfold date_le in Hall. congruence. }
    split; [exact Hnil|]. now rewrite Hnil.
Qed.

Lemma get_expired_items_selects_strictly_witness :
  let w := world_with stock in
  let selected := expired_on (today w) stock in
  (get_expired_items stock [] ∅ w
   = (ok (sorted_by_date selected),
      add_out w
        (progress_output
         ++ match selected with
            | [] => ["No expired items found." +:+ nl]
            | _ => [(nl +:+ "Expired Items") +:+ nl;
                    repeat_char "-" 70 +:+ nl;
                    header_row "" " | " +:+ nl;
                    repeat_char "-" 70 +:+ nl]
                   ++ map (printed_row "" " | ") (sorted_by_date selected)
                   ++ [repeat_char "-" 70 +:+ nl]
            end)))
  /\ sorted_by_date selected = [gadget; widget]
  /\ ~ In widget_lowercase (sorted_by_date selected).
Proof.
  intros w selected.
  assert (Hparse : forall d, In d stock -> exists k, expiration_key d = ok k)
    by (intros d [<-|[<-|[<-|[]]]]; eexists; reflexivity).
  pose proof (get_expired_items_selects_strictly stock w eq_refl Hparse)
    as (Hrun & _ & Hnot & _).
  split; [exact Hrun|]. split; [reflexivity|].
  apply Hnot. reflexivity.
Defined.

(** ** What saving writes, and what a failed save leaves *)

Lemma copy_data_plain (field : string) :
  csv.want_quote field = false -> csv.copy_data field = field.
Proof.
  induction field as [|c field IH]; [reflexivity|].
  cbn [csv.want_quote csv.copy_data]. intros H.
  apply orb_false_elim in H as [Hc Hf].
  unfold csv.special in Hc.
  apply orb_false_elim in Hc as [Hc _]. apply orb_false_elim in Hc as [Hc _].
  apply orb_false_elim in Hc as [_ Hc].
  rewrite Hc, IH by exact Hf. reflexivity.
Qed.

Lemma row_values_record (id item gtin mpn brand quantity expiration_date price : string) :
  row_values (record id item gtin mpn brand quantity expiration_date price)
  = map VStr [id; item; gtin; mpn; brand; quantity; expiration_date; price].
Proof. reflexivity. Qed.

Lemma join_append_plain (rec : string) (n : nat) (field : string) :
  csv.want_quote field = false ->
  csv.join_append rec (S n) field false = rec +:+ "," +:+ field.
Proof.
  intros H. unfold csv.join_append. rewrite H. cbn [orb Nat.ltb Nat.leb].
  rewrite copy_data_plain by exact H.
  rewrite string_app_nil_l, string_app_nil_r. reflexivity.
Qed.

Lemma join_append_plain_first (field : string) :
  csv.want_quote field = false ->
  csv.join_append EmptyString 0 field false = field.
Proof.
  intros H. unfold csv.join_append. rewrite H. cbn [orb Nat.ltb Nat.leb].
  rewrite copy_data_plain by exact H.
  rewrite !string_app_nil_l, string_app_nil_r. reflexivity.
Qed.

(** The line of a record none of whose fields needs quoting. *)
Lemma row_line_plain (id item gtin mpn brand quantity expiration_date price : string) :
  forallb (fun f => negb (csv.want_quote f))
          [id; item; gtin; mpn; brand; quantity; expiration_date; price] = true ->
  row_line (record id item gtin mpn brand quantity expiration_date price)
  = id +:+ "," +:+ item +:+ "," +:+ gtin +:+ "," +:+ mpn +:+ "," +:+ brand +:+ ","
    +:+ quantity +:+ "," +:+ expiration_date +:+ "," +:+ price +:+ cr +:+ nl.
Proof.
  intros H. cbn [forallb] in H.
  repeat (apply andb_prop in H as [?%negb_true_iff H]).
  unfold row_line. rewrite row_values_record.
  unfold csv.writerow. cbn [map csv.join_fields csv.field_text].
  rewrite join_append_plain_first by assumption.
  rewrite !join_append_plain by assumption.
  rewrite !string_length_app. cbn [String.length].
  replace ((0 <? 8)%nat && _) with false.
  2:{ symmetry. apply andb_false_iff. right. apply Nat.eqb_neq. lia. }
  rewrite !string_app_assoc. reflexivity.
Qed.

Lemma dict_to_list_raises (d : dict) :
  rest d <> None \/ (exists k, is_Some (cells d !! k) /\ ~ In k fieldnames) ->
  csv.dict_to_list fieldnames d = raise ValueError.
Proof.
  intros H. unfold csv.dict_to_list.
  destruct (bool_decide (rest d = None)) eqn:E1; [|reflexivity].
  destruct (forallb _ _) eqn:E2; [|reflexivity]. exfalso.
  apply bool_decide_eq_true in E1. destruct H as [H|(k & [v Hv] & Hk)]; [now apply H|].
  rewrite forallb_forall in E2. apply Hk.
  assert (Hin : In k (map fst (map_to_list (cells d)))).
  { apply in_map_iff. exists (k, v). split; [reflexivity|].
    apply list_elem_of_In. now apply elem_of_map_to_list. }
  specialize (E2 k Hin). apply bool_decide_eq_true in E2. now apply list_elem_of_In.
Qed.

Lemma DictWriter_writerow_raise (d : dict) (w : World) (e : exn) :
  csv.dict_to_list fieldnames d = raise e ->
  DictWriter_writerow d w = (raise e, w).
Proof. intros H. unfold DictWriter_writerow, bind, lift. now rewrite H. Qed.

Lemma write_rows_raise (good : list dict) (bad : dict) (others : list dict)
    (e : exn) (w : World) (text : string) :
  Forall (fun d => csv.dict_to_list fieldnames d = ok (row_values d)) good ->
  csv.dict_to_list fieldnames bad = raise e ->
  for_each (good ++ bad :: others) DictWriter_writerow (set_disk w (Some text))
  = (raise e, set_disk w (Some (text +:+ row_lines good))).
Proof.
  intros Hgood Hbad. revert text. induction Hgood as [|d good Hd _ IH]; intros text.
  - cbn [app for_each row_lines]. rewrite string_app_nil_r.
    erewrite bind_raise by (apply DictWriter_writerow_raise, Hbad). reflexivity.
  - cbn [app for_each row_lines].
    erewrite bind_ok by (apply DictWriter_writerow_run, Hd).
    rewrite IH, string_app_assoc. reflexivity.
Qed.

Lemma save_data_raise (good : list dict) (bad : dict) (others : list dict)
    (e : exn) (w : World) :
  Forall (fun d => csv.dict_to_list fieldnames d = ok (row_values d)) good ->
  csv.dict_to_list fieldnames bad = raise e ->
  save_data (good ++ bad :: others) w = (raise e, set_disk w (Some (saved_text good))).
Proof.
  intros Hgood Hbad. unfold save_data.
  erewrite bind_ok by reflexivity.
  erewrite bind_ok by apply writeheader_run.
  now rewrite (write_rows_raise good bad others e w header_line Hgood Hbad).
Qed.

Lemma well_formed_all_writable (rows : list dict) :
  forallb well_formed rows = true ->
  Forall (fun d => csv.dict_to_list fieldnames d = ok (row_values d)) rows.
Proof.
  intros H. apply List.Forall_forall. intros d Hd. apply well_formed_writable.
  rewrite forallb_forall in H. now apply H.
Qed.

(** X5 -- Saving replaces the file.  After well-formed records are
    saved the file holds the header line
    [id,item,gtin,mpn,brand,quantity,expiration_date,price] and then
    one line per record in the order of the set, whatever the file held
    before; a record whose fields need no quoting gives its eight fields
    in that fixed order, separated by commas.  Saving one set and then
    another leaves exactly what saving the second alone leaves, and
    saving touches neither the list objects nor the terminal. *)
Theorem save_data_replaces_the_file (rows : list dict) (w : World) :
  forallb well_formed rows = true ->
  save_data rows w = (ok tt, set_disk w (Some (saved_text rows)))
  /\ saved_text rows
     = ("id,item,gtin,mpn,brand,quantity,expiration_date,price" +:+ cr +:+ nl)
       +:+ row_lines rows
  /\ (forall earlier, forallb well_formed earlier = true ->
        (save_data earlier ;; save_data rows) w = save_data rows w)
  /\ (forall id item gtin mpn brand quantity expiration_date price,
        forallb (fun f => negb (csv.want_quote f))
                [id; item; gtin; mpn; brand; quantity; expiration_date; price] = true ->
        row_line (record id item gtin mpn brand quantity expiration_date price)
        = id +:+ "," +:+ item +:+ "," +:+ gtin +:+ "," +:+ mpn +:+ "," +:+ brand +:+ ","
          +:+ quantity +:+ "," +:+ expiration_date +:+ "," +:+ price +:+ cr +:+ nl).
Proof.
  intros Hwf. split; [now apply save_data_well_formed|].
  split; [reflexivity|]. split.
  - intros earlier Hearlier.
    erewrite bind_ok by (apply save_data_well_formed, Hearlier).
    rewrite !save_data_well_formed by exact Hwf. reflexivity.
  - apply row_line_plain.
Qed.

Lemma save_data_replaces_the_file_witness :
  save_data stock (world_with_file "old contents")
  = (ok tt, set_disk (world_with_file "old contents") (Some (saved_text stock)))
  /\ row_lines stock
     = ("id-1,Widget,4006381333931,73513537,Acme Ltd,3,2024-01-09,1.50" +:+ cr +:+ nl)
       +:+ ("id-2,widget,4006381333932,73513538,Acme Ltd,4,2024-01-10,2.00" +:+ cr +:+ nl)
       +:+ ("id-3,Gadget,4006381333933,73513539," +:+ String csv.quotechar "Bolt, Nut and Co"
            +:+ String csv.quotechar ",5,2023-06-01,9.00" +:+ cr +:+ nl).
Proof.
  split; [|reflexivity].
  refine (proj1 (save_data_replaces_the_file stock (world_with_file "old contents") _)).
  reflexivity.
Defined.

(** X6 -- A save that fails destroys data.  When the set holds a record
    that [DictWriter] refuses (a key that is not one of the eight field
    names, or surplus values from a long line of the file), [save_data]
    raises [ValueError]; by then the file has been emptied and rewritten
    up to that record, so it holds the header and only the records that
    come before the refused one, whatever it held before. *)
Theorem save_data_failure_truncates (good : list dict) (bad : dict)
    (others : list dict) (w : World) :
  forallb well_formed good = true ->
  rest bad <> None \/ (exists k, is_Some (cells bad !! k) /\ ~ In k fieldnames) ->
  save_data (good ++ bad :: others) w
  = (raise ValueError, set_disk w (Some (saved_text good))).
Proof.
  intros Hgood Hbad. apply save_data_raise.
  - now apply well_formed_all_writable.
  - now apply dict_to_list_raises.
Qed.

Lemma save_data_failure_truncates_witness :
  save_data ([widget] ++ setitem gadget "colour" (VStr "red") :: [widget_lowercase])
    (world_with_file (saved_text stock))
  = (raise ValueError,
     set_disk (world_with_file (saved_text stock)) (Some (saved_text [widget]))).
Proof.
  refine (save_data_failure_truncates [widget] _ [widget_lowercase] _ _ _).
  - reflexivity.
  - right. exists "colour". split; [eexists; reflexivity|].
    unfold fieldnames. simpl. intuition discriminate.
Defined.

(** ** Reading: lines and one pass agree *)

Lemma rbind_assoc {A B C} (r : result A) (f : A -> result B) (g : B -> result C) :
  rbind (rbind r f) g = rbind r (fun a => rbind (f a) g).
Proof. now destruct r. Qed.

Lemma rbind_ext {A B} (r : result A) (f g : A -> result B) :
  (forall a, f a = g a) -> rbind r f = rbind r g.
Proof. intros H. destruct r; [reflexivity | apply H]. Qed.

Lemma after_line_ext (r : csv.ReaderObj) (k1 k2 : csv.ReaderObj -> result (list (list string))) :
  (forall r', k1 r' = k2 r') -> after_line r k1 = after_line r k2.
Proof. intros H. unfold after_line. now rewrite !H. Qed.

Lemma end_of_line_ext (r : csv.ReaderObj) (k1 k2 : csv.ReaderObj -> result (list (list string))) :
  (forall r', k1 r' = k2 r') -> end_of_line r k1 = end_of_line r k2.
Proof.
  intros H. unfold end_of_line. apply rbind_ext. intros r'. now apply after_line_ext.
Qed.

Lemma feed_line_list (r : csv.ReaderObj) (l : list ascii) :
  csv.feed_line r (string_of_list_ascii l)
  = rbind (feed_list r l) (fun r' => csv.parse_process_char r' csv.EOL).
Proof.
  revert r. induction l as [|c l IH]; intros r; [reflexivity|].
  cbn [string_of_list_ascii csv.feed_line feed_list].
  rewrite rbind_assoc. apply rbind_ext. intros r'. apply IH.
Qed.

Lemma feed_list_app (r : csv.ReaderObj) (l1 l2 : list ascii) :
  feed_list r (l1 ++ l2) = rbind (feed_list r l1) (fun r' => feed_list r' l2).
Proof.
  revert r. induction l1 as [|c l1 IH]; intros r; [reflexivity|].
  cbn [app feed_list]. rewrite rbind_assoc. apply rbind_ext. intros r'. apply IH.
Qed.

Lemma feed_list_reverse_cons (r : csv.ReaderObj) (c : ascii) (cur : list ascii) :
  feed_list r (reverse (c :: cur))
  = rbind (feed_list r (reverse cur)) (fun r' => csv.parse_process_char r' (csv.Chr c)).
Proof.
  rewrite reverse_cons, feed_list_app. apply rbind_ext. intros r'.
  cbn [feed_list]. now destruct (csv.parse_process_char r' (csv.Chr c)).
Qed.

Lemma reader_rows_cons (r : csv.ReaderObj) (l : list ascii) (lines : list string) :
  csv.reader_rows r (string_of_list_ascii l :: lines)
  = rbind (feed_list r l)
          (fun r1 => end_of_line r1 (fun r' => csv.reader_rows r' lines)).
Proof.
  cbn [csv.reader_rows]. rewrite feed_line_list, rbind_assoc. reflexivity.
Qed.

(** Once the part of the line already seen makes the parser fail, the
    reading fails, however the text goes on. *)
Lemma reader_rows_stuck (text : string) :
  forall (cur : list ascii) (r0 : csv.ReaderObj) (e : exn),
    feed_list r0 (reverse cur) = raise e ->
    csv.reader_rows r0 (csv.readlines_from cur text) = raise e.
Proof.
  induction text as [|c text IH]; intros cur r0 e H.
  - cbn [csv.readlines_from]. destruct cur as [|c0 cur]; [discriminate H|].
    now rewrite reader_rows_cons, H.
  - assert (Hc : forall c', feed_list r0 (reverse (c' :: cur)) = raise e)
      by (intros c'; now rewrite feed_list_reverse_cons, H).
    assert (Hcc : forall c' c'', feed_list r0 (reverse (c'' :: c' :: cur)) = raise e)
      by (intros c' c''; now rewrite feed_list_reverse_cons, Hc).
    cbn [csv.readlines_from].
    destruct (c =? LF)%char; [now rewrite reader_rows_cons, Hc|].
    destruct (c =? CR)%char; [|now apply IH].
    destruct text as [|c' text']; [now rewrite reader_rows_cons, Hc|].
    destruct (c' =? LF)%char.
    + now rewrite reader_rows_cons, Hcc.
    + now rewrite reader_rows_cons, Hc.
Qed.

Lemma scan_agrees (n : nat) :
  forall (text : string) (cur : list ascii) (r0 r : csv.ReaderObj),
    (String.length text <= n)%nat ->
    feed_list r0 (reverse cur) = ok r ->
    csv.reader_rows r0 (csv.readlines_from cur text)
    = scan r (negb (bool_decide (cur = []))) text.
Proof.
  induction n as [|n IH]; intros text cur r0 r Hlen H.
  - destruct text; [|simpl in Hlen; lia].
    cbn [csv.readlines_from scan]. destruct cur as [|c0 cur].
    + cbn in H. injection H as <-. reflexivity.
    + rewrite reader_rows_cons, H. reflexivity.
  - destruct text as [|c text].
    { cbn [csv.readlines_from scan]. destruct cur as [|c0 cur].
      + cbn in H. injection H as <-. reflexivity.
      + rewrite reader_rows_cons, H. reflexivity. }
    cbn [String.length] in Hlen.
    assert (Hfresh : forall text', (String.length text' <= n)%nat ->
              forall r', csv.reader_rows r' (csv.readlines_from [] text')
                         = scan r' false text').
    { intros text' Hl r'. now apply (IH text' [] r' r'). }
    cbn [csv.readlines_from scan].
    destruct (c =? LF)%char eqn:ELF.
    { rewrite reader_rows_cons, feed_list_reverse_cons, H. cbn [rbind ok].
      apply rbind_ext. intros r1. apply end_of_line_ext. apply Hfresh. lia. }
    destruct (c =? CR)%char eqn:ECR.
    { destruct text as [|c' text'].
      - rewrite reader_rows_cons, feed_list_reverse_cons, H. cbn [rbind ok].
        apply rbind_ext. intros r1. apply end_of_line_ext. reflexivity.
      - cbn [String.length] in Hlen. destruct (c' =? LF)%char eqn:ELF'.
        + rewrite reader_rows_cons, !feed_list_reverse_cons, H. cbn [rbind ok].
          rewrite rbind_assoc. apply rbind_ext. intros r1.
          apply rbind_ext. intros r2. apply end_of_line_ext. apply Hfresh. lia.
        + rewrite reader_rows_cons, feed_list_reverse_cons, H. cbn [rbind ok].
          apply rbind_ext. intros r1. apply end_of_line_ext. apply Hfresh.
          cbn [String.length]. lia. }
    destruct (csv.parse_process_char r (csv.Chr c)) as [e|r1] eqn:E.
    + cbn [rbind]. apply reader_rows_stuck.
      now rewrite feed_list_reverse_cons, H; cbn [rbind ok]; rewrite E.
    + cbn [rbind]. apply (IH text (c :: cur) r0 r1); [lia|].
      now rewrite feed_list_reverse_cons, H; cbn [rbind ok]; rewrite E.
Qed.

(** Reading the lines of a text is scanning the text. *)
Lemma reader_rows_scan (text : string) :
  csv.reader_rows csv.parse_reset (csv.readlines text)
  = scan csv.parse_reset false text.
Proof.
  unfold csv.readlines.
  now apply (scan_agrees (String.length text) text [] csv.parse_reset csv.parse_reset).
Qed.
(** ** Writing: the text of a row *)

Lemma join_append_first (f : string) :
  csv.join_append EmptyString 0 f false = written_field f.
Proof.
  unfold csv.join_append, written_field. cbn [orb Nat.ltb Nat.leb].
  destruct (csv.want_quote f) eqn:E.
  - reflexivity.
  - rewrite copy_data_plain by exact E.
    now rewrite !string_app_nil_l, string_app_nil_r.
Qed.

Lemma join_append_next (rec : string) (n : nat) (f : string) :
  csv.join_append rec (S n) f false
  = rec +:+ String csv.delimiter (written_field f).
Proof.
  unfold csv.join_append, written_field. cbn [orb Nat.ltb Nat.leb].
  destruct (csv.want_quote f) eqn:E.
  - reflexivity.
  - rewrite copy_data_plain by exact E.
    now rewrite string_app_nil_l, string_app_nil_r.
Qed.

Lemma join_fields_written (row : list string) (rec : string) (n : nat) :
  csv.join_fields rec (S n) (map VStr row)
  = (rec +:+ written_more row, (S n + length row)%nat).
Proof.
  revert rec n. induction row as [|f row IH]; intros rec n.
  - cbn. rewrite string_app_nil_r. f_equal. lia.
  - cbn [map csv.join_fields csv.field_text written_more length].
    rewrite join_append_next, IH, string_app_assoc.
    rewrite string_app_cons. f_equal. lia.
Qed.

Lemma written_field_nonempty (f : string) :
  f <> EmptyString -> (String.length (written_field f) =? 0)%nat = false.
Proof.
  intros H. unfold written_field. destruct (csv.want_quote f); [reflexivity|].
  destruct f; [congruence | reflexivity].
Qed.

(** [csv.writerow] on a row of strings writes [written_row]. *)
Lemma writerow_written (row : list string) :
  csv.writerow (map VStr row) = written_row row.
Proof.
  destruct row as [|f more]; [reflexivity|].
  unfold csv.writerow. cbn [map csv.join_fields csv.field_text].
  rewrite join_append_first, join_fields_written.
  cbn [Nat.ltb Nat.leb Nat.add andb].
  destruct more as [|g more].
  - cbn [written_more written_row]. rewrite string_app_nil_r.
    destruct (bool_decide (f = EmptyString)) eqn:E.
    + apply bool_decide_eq_true in E. subst f. reflexivity.
    + apply bool_decide_eq_false in E. now rewrite written_field_nonempty.
  - cbn [written_row].
    replace (String.length (written_field f +:+ written_more (g :: more)) =? 0)%nat
      with false.
    + now rewrite string_app_assoc.
    + symmetry. apply Nat.eqb_neq. rewrite string_length_app.
      cbn [written_more String.length]. lia.
Qed.

(** ** Reading back what was written *)

Lemma string_of_list_ascii_app (l1 l2 : list ascii) :
  string_of_list_ascii (l1 ++ l2) = string_of_list_ascii l1 +:+ string_of_list_ascii l2.
Proof.
  induction l1 as [|c l1 IH]; [reflexivity|].
  cbn [app string_of_list_ascii]. now rewrite string_app_cons, IH.
Qed.

Lemma push_text (f : string) (buf : list ascii) :
  string_of_list_ascii (reverse (push f buf))
  = string_of_list_ascii (reverse buf) +:+ f.
Proof.
  revert buf. induction f as [|c f IH]; intros buf.
  - cbn [push]. now rewrite string_app_nil_r.
  - cbn [push]. rewrite IH, reverse_cons, string_of_list_ascii_app.
    now rewrite string_app_assoc.
Qed.

Lemma push_text_nil (f : string) : string_of_list_ascii (reverse (push f [])) = f.
Proof. now rewrite push_text. Qed.

(** The characters that the writer does not quote. *)
Lemma plain_char (c : ascii) :
  csv.special c = false ->
  (c =? csv.delimiter)%char = false /\ (c =? csv.quotechar)%char = false
  /\ (c =? CR)%char = false /\ (c =? LF)%char = false.
Proof.
  unfold csv.special. intros H.
  apply orb_false_elim in H as [H H4]. apply orb_false_elim in H as [H H3].
  apply orb_false_elim in H as [H1 H2]. auto.
Qed.

Lemma is_newline_false (c : ascii) :
  (c =? CR)%char = false -> (c =? LF)%char = false -> csv.is_newline c = false.
Proof. intros H1 H2. unfold csv.is_newline. now rewrite H1, H2. Qed.

Lemma scan_cons_mid (r : csv.ReaderObj) (mid mid' : bool) (c : ascii) (text : string) :
  scan r mid (String c text) = scan r mid' (String c text).
Proof. reflexivity. Qed.

(** A character that ends no line is just fed to the parser. *)
Lemma scan_step (r : csv.ReaderObj) (mid : bool) (c : ascii) (text : string) :
  (c =? CR)%char = false -> (c =? LF)%char = false ->
  scan r mid (String c text)
  = rbind (csv.parse_process_char r (csv.Chr c)) (fun r1 => scan r1 true text).
Proof. intros H1 H2. cbn [scan]. now rewrite H1, H2. Qed.

Lemma add_char_ok (st : csv.ParserState) (fs : list string) (buf : list ascii)
    (len : N) (c : ascii) :
  (len < csv.field_limit)%N ->
  csv.parse_add_char (csv.Reader st fs buf len) c
  = ok (csv.Reader st fs (c :: buf) (len + 1)).
Proof.
  intros H. unfold csv.parse_add_char. cbn [csv.field_len].
  now apply N.leb_gt in H as ->.
Qed.

Lemma end_of_line_quoted (fs : list string) (buf : list ascii) (len : N)
    (k : csv.ReaderObj -> result (list (list string))) :
  end_of_line (csv.Reader csv.IN_QUOTED_FIELD fs buf len) k
  = k (csv.Reader csv.IN_QUOTED_FIELD fs buf len).
Proof. reflexivity. Qed.

(** Inside quotes every character but the quote is kept, line ends
    included. *)
Lemma scan_quoted_char (fs : list string) (buf : list ascii) (len : N)
    (mid : bool) (c : ascii) (text : string) :
  (c =? csv.quotechar)%char = false ->
  (len < csv.field_limit)%N ->
  scan (csv.Reader csv.IN_QUOTED_FIELD fs buf len) mid (String c text)
  = scan (csv.Reader csv.IN_QUOTED_FIELD fs (c :: buf) (len + 1))
         (negb (csv.is_newline c)) text.
Proof.
  intros Hq Hlen. cbn [scan].
  assert (Hstep : forall a, (a =? csv.quotechar)%char = false ->
            forall b l, (l < csv.field_limit)%N ->
            csv.parse_process_char (csv.Reader csv.IN_QUOTED_FIELD fs b l) (csv.Chr a)
            = ok (csv.Reader csv.IN_QUOTED_FIELD fs (a :: b) (l + 1))).
  { intros a Ha b l Hl. unfold csv.parse_process_char. cbn [csv.state].
    rewrite Ha. now apply add_char_ok. }
  rewrite Hstep by assumption. cbn [rbind ok].
  unfold csv.is_newline.
  destruct (c =? LF)%char eqn:ELF; [reflexivity|].
  destruct (c =? CR)%char eqn:ECR; [|reflexivity].
  cbn [orb negb]. destruct text as [|c' text']; [reflexivity|].
  destruct (c' =? LF)%char eqn:ELF'; [|reflexivity].
  cbn [scan]. rewrite ELF'. reflexivity.
Qed.
(** Unfolding one step of the parser on a reader given by its fields. *)
Ltac parser_step :=
  unfold csv.parse_process_char, csv.start_field, csv.set_state, csv.parse_save_field;
  cbn [csv.state csv.fields csv.field csv.field_len rbind ok].

(** The body of a quoted field, read from inside the quotes. *)
Lemma scan_quoted_body (f : string) :
  forall (fs : list string) (buf : list ascii) (len : N) (mid : bool) (rest : string),
    (len + N.of_nat (String.length f) <= csv.field_limit)%N ->
    exists mid',
      scan (csv.Reader csv.IN_QUOTED_FIELD fs buf len) mid (csv.copy_data f +:+ rest)
      = scan (csv.Reader csv.IN_QUOTED_FIELD fs (push f buf)
                (len + N.of_nat (String.length f))) mid' rest.
Proof.
  induction f as [|c f IH]; intros fs buf len mid rest Hlen.
  - exists mid. cbn [csv.copy_data push String.length].
    now rewrite string_app_nil_l, N.add_0_r.
  - cbn [String.length] in Hlen.
    assert (Hlt : (len < csv.field_limit)%N) by lia.
    assert (Hnext : (len + 1 + N.of_nat (String.length f) <= csv.field_limit)%N) by lia.
    replace (len + N.of_nat (String.length (String c f)))%N
      with (len + 1 + N.of_nat (String.length f))%N by (cbn [String.length]; lia).
    cbn [csv.copy_data push].
    destruct (c =? csv.quotechar)%char eqn:Eq.
    + apply Ascii.eqb_eq in Eq. subst c.
      destruct (IH fs (csv.quotechar :: buf) (len + 1)%N true rest Hnext) as [mid' Hm].
      exists mid'. rewrite <- Hm. rewrite !string_app_cons.
      rewrite scan_step by reflexivity. parser_step.
      rewrite Ascii.eqb_refl. parser_step.
      rewrite scan_step by reflexivity. parser_step.
      rewrite Ascii.eqb_refl, add_char_ok by exact Hlt. reflexivity.
    + destruct (IH fs (c :: buf) (len + 1)%N (negb (csv.is_newline c)) rest Hnext)
        as [mid' Hm].
      exists mid'. rewrite <- Hm. rewrite string_app_cons.
      now apply scan_quoted_char.
Qed.

(** The rest of an unquoted field, read from inside the field. *)
Lemma scan_plain_body (f : string) :
  forall (fs : list string) (buf : list ascii) (len : N) (mid : bool) (rest : string),
    csv.want_quote f = false ->
    (len + N.of_nat (String.length f) <= csv.field_limit)%N ->
    exists mid',
      scan (csv.Reader csv.IN_FIELD fs buf len) mid (f +:+ rest)
      = scan (csv.Reader csv.IN_FIELD fs (push f buf)
                (len + N.of_nat (String.length f))) mid' rest.
Proof.
  induction f as [|c f IH]; intros fs buf len mid rest Hplain Hlen.
  - exists mid. cbn [push String.length].
    now rewrite string_app_nil_l, N.add_0_r.
  - cbn [String.length] in Hlen. cbn [csv.want_quote] in Hplain.
    apply orb_false_elim in Hplain as [Hc Hf].
    destruct (plain_char c Hc) as (Hd & Hq & Hcr & Hlf).
    assert (Hlt : (len < csv.field_limit)%N) by lia.
    assert (Hnext : (len + 1 + N.of_nat (String.length f) <= csv.field_limit)%N) by lia.
    replace (len + N.of_nat (String.length (String c f)))%N
      with (len + 1 + N.of_nat (String.length f))%N by (cbn [String.length]; lia).
    destruct (IH fs (c :: buf) (len + 1)%N true rest Hf Hnext) as [mid' Hm].
    exists mid'. cbn [push]. rewrite <- Hm. rewrite string_app_cons.
    rewrite scan_step by assumption. parser_step.
    rewrite (is_newline_false c Hcr Hlf), Hd, add_char_ok by exact Hlt. reflexivity.
Qed.

Lemma holding_delimiter (done : list string) (f : string) (r : csv.ReaderObj)
    (mid : bool) (rest : string) :
  holding done f r ->
  scan r mid (String csv.delimiter rest)
  = scan (csv.Reader csv.START_FIELD (done ++ [f]) [] 0) true rest.
Proof.
  intros H. rewrite scan_step by reflexivity.
  destruct H as [len|len|E]; [| |subst f]; parser_step;
    change (csv.is_newline csv.delimiter) with false;
    change (csv.delimiter =? csv.quotechar)%char with false;
    change (csv.delimiter =? csv.delimiter)%char with true;
    cbn [rbind ok]; rewrite ?push_text_nil; reflexivity.
Qed.

Lemma holding_end (done : list string) (f : string) (r : csv.ReaderObj)
    (mid : bool) (rest : string) :
  holding done f r ->
  scan r mid (csv.lineterminator +:+ rest)
  = rbind (scan csv.parse_reset false rest) (fun rows => ok ((done ++ [f]) :: rows)).
Proof.
  intros H. unfold csv.lineterminator. rewrite !string_app_cons, string_app_nil_l.
  destruct H as [len|len|E]; [| |subst f]; cbn [scan];
    change (CR =? LF)%char with false; change (CR =? CR)%char with true;
    change (LF =? LF)%char with true; cbv iota;
    unfold end_of_line, after_line; parser_step;
    change (csv.is_newline CR) with true; change (csv.is_newline LF) with true;
    change (CR =? csv.quotechar)%char with false;
    change (CR =? csv.delimiter)%char with false;
    parser_step; rewrite ?push_text_nil; reflexivity.
Qed.

Lemma start_of_record (mid : bool) (c : ascii) (text : string) :
  csv.is_newline c = false ->
  scan csv.parse_reset mid (String c text)
  = scan (csv.Reader csv.START_FIELD [] [] 0) mid (String c text).
Proof.
  intros H. cbn [scan]. unfold csv.parse_reset. parser_step.
  rewrite H. reflexivity.
Qed.

Lemma empty_record (mid : bool) (rest : string) :
  scan csv.parse_reset mid (csv.lineterminator +:+ rest)
  = rbind (scan csv.parse_reset false rest) (fun rows => ok ([] :: rows)).
Proof. reflexivity. Qed.

(** Reading one written field from the start of a field; a character
    follows it. *)
Lemma read_field (done : list string) (f : string) (mid : bool) (c : ascii)
    (rest : string) :
  within_limit f = true ->
  exists r,
    holding done f r
    /\ scan (csv.Reader csv.START_FIELD done [] 0) mid (written_field f +:+ String c rest)
       = scan r true (String c rest).
Proof.
  unfold within_limit. intros Hlen. apply N.leb_le in Hlen.
  unfold written_field. destruct (csv.want_quote f) eqn:Hq.
  - (* quoted *)
    destruct (scan_quoted_body f done [] 0%N true
                (String csv.quotechar (String c rest))) as [mid' Hbody]; [lia|].
    eexists. split; [apply (hold_after_quote done f (0 + N.of_nat (String.length f)))|].
    rewrite string_app_cons, string_app_assoc, string_app_cons, string_app_nil_l.
    rewrite scan_step by reflexivity. parser_step.
    change (csv.is_newline csv.quotechar) with false.
    change (csv.quotechar =? csv.quotechar)%char with true.
    parser_step.
    rewrite Hbody. rewrite scan_step by reflexivity. parser_step.
    change (csv.quotechar =? csv.quotechar)%char with true.
    reflexivity.
  - (* not quoted *)
    destruct f as [|a f].
    + exists (csv.Reader csv.START_FIELD done [] 0). split; [now constructor|].
      now rewrite string_app_nil_l.
    + cbn [csv.want_quote] in Hq. apply orb_false_elim in Hq as [Ha Hf].
      destruct (plain_char a Ha) as (Hd & Hqc & Hcr & Hlf).
      cbn [String.length] in Hlen.
      destruct (scan_plain_body f done [a] 1%N true (String c rest) Hf) as [mid' Hbody];
        [lia|].
      eexists. split; [apply (hold_in_field done (String a f)
                                (1 + N.of_nat (String.length f)))|].
      rewrite string_app_cons, scan_step by assumption. parser_step.
      rewrite (is_newline_false a Hcr Hlf), Hqc, Hd.
      rewrite add_char_ok by (unfold csv.field_limit; lia).
      parser_step. change (0 + 1)%N with 1%N.
      rewrite Hbody. cbn [push]. apply scan_cons_mid.
Qed.

(** The fields of a record from the start of a field to the end of the
    line. *)
Lemma scan_fields (more : list string) :
  forall (done : list string) (g : string) (mid : bool) (rest : string),
    within_limit g = true ->
    forallb within_limit more = true ->
    scan (csv.Reader csv.START_FIELD done [] 0) mid
         (written_field g +:+ written_more more +:+ csv.lineterminator +:+ rest)
    = rbind (scan csv.parse_reset false rest)
            (fun rows => ok ((done ++ g :: more) :: rows)).
Proof.
  induction more as [|g' more IH]; intros done g mid rest Hg Hmore.
  - cbn [written_more]. rewrite string_app_nil_l.
    destruct (read_field done g mid CR (String LF rest) Hg) as (r & Hr & Hscan).
    change (csv.lineterminator +:+ rest) with (String CR (String LF rest)).
    rewrite Hscan. change (String CR (String LF rest)) with (csv.lineterminator +:+ rest).
    now apply holding_end.
  - cbn [forallb] in Hmore. apply andb_prop in Hmore as [Hg' Hmore].
    cbn [written_more]. rewrite !string_app_cons.
    destruct (read_field done g mid csv.delimiter
                ((written_field g' +:+ written_more more) +:+ csv.lineterminator +:+ rest)
                Hg) as (r & Hr & Hscan).
    rewrite Hscan, (holding_delimiter done g r true _ Hr).
    rewrite string_app_assoc, IH by assumption.
    now rewrite <- app_assoc.
Qed.

(** ** Fields beyond the limit of the reader *)

Lemma add_char_over (st : csv.ParserState) (fs : list string) (buf : list ascii)
    (len : N) (c : ascii) :
  (csv.field_limit <= len)%N ->
  csv.parse_add_char (csv.Reader st fs buf len) c = raise csv_Error.
Proof.
  intros H. unfold csv.parse_add_char. cbn [csv.field_len].
  now apply N.leb_le in H as ->.
Qed.

Lemma scan_plain_over (f : string) :
  forall (fs : list string) (buf : list ascii) (len : N) (mid : bool) (rest : string),
    csv.want_quote f = false ->
    (len <= csv.field_limit)%N ->
    (csv.field_limit < len + N.of_nat (String.length f))%N ->
    scan (csv.Reader csv.IN_FIELD fs buf len) mid (f +:+ rest) = raise csv_Error.
Proof.
  induction f as [|c f IH]; intros fs buf len mid rest Hplain Hle Hover.
  - cbn [String.length] in Hover. lia.
  - cbn [csv.want_quote] in Hplain. apply orb_false_elim in Hplain as [Hc Hf].
    destruct (plain_char c Hc) as (Hd & Hq & Hcr & Hlf).
    rewrite string_app_cons, scan_step by assumption. parser_step.
    rewrite (is_newline_false c Hcr Hlf), Hd.
    destruct (N.eq_dec len csv.field_limit) as [Heq|Hne].
    + rewrite add_char_over by lia. reflexivity.
    + rewrite add_char_ok by lia. cbn [rbind ok].
      apply IH; [exact Hf | lia | cbn [String.length] in Hover; lia].
Qed.

Lemma scan_quoted_over (f : string) :
  forall (fs : list string) (buf : list ascii) (len : N) (mid : bool) (rest : string),
    (len <= csv.field_limit)%N ->
    (csv.field_limit < len + N.of_nat (String.length f))%N ->
    scan (csv.Reader csv.IN_QUOTED_FIELD fs buf len) mid (csv.copy_data f +:+ rest)
    = raise csv_Error.
Proof.
  induction f as [|c f IH]; intros fs buf len mid rest Hle Hover.
  - cbn [String.length] in Hover. lia.
  - cbn [String.length] in Hover. cbn [csv.copy_data].
    destruct (c =? csv.quotechar)%char eqn:Eq.
    + apply Ascii.eqb_eq in Eq. subst c. rewrite !string_app_cons.
      rewrite scan_step by reflexivity. parser_step.
      rewrite Ascii.eqb_refl. parser_step.
      rewrite scan_step by reflexivity. parser_step.
      rewrite Ascii.eqb_refl.
      destruct (N.eq_dec len csv.field_limit) as [Heq|Hne].
      * rewrite add_char_over by lia. reflexivity.
      * rewrite add_char_ok by lia. parser_step. apply IH; lia.
    + rewrite string_app_cons.
      destruct (N.eq_dec len csv.field_limit) as [Heq|Hne].
      * cbn [scan]. unfold csv.parse_process_char at 1. cbn [csv.state].
        rewrite Eq, add_char_over by lia. reflexivity.
      * rewrite scan_quoted_char by (assumption || lia). apply IH; lia.
Qed.

(** A written field beyond the limit cannot be read back. *)
Lemma read_field_over (done : list string) (f : string) (mid : bool) (rest : string) :
  within_limit f = false ->
  scan (csv.Reader csv.START_FIELD done [] 0) mid (written_field f +:+ rest)
  = raise csv_Error.
Proof.
  unfold within_limit. intros Hover. apply N.leb_gt in Hover.
  assert (Hlimit : (1 < csv.field_limit)%N) by reflexivity.
  unfold written_field. destruct (csv.want_quote f) eqn:Hq.
  - rewrite string_app_cons, string_app_assoc.
    rewrite scan_step by reflexivity. parser_step.
    change (csv.is_newline csv.quotechar) with false.
    change (csv.quotechar =? csv.quotechar)%char with true.
    parser_step. apply scan_quoted_over; lia.
  - destruct f as [|a f]; [cbn [String.length] in Hover; lia|].
    cbn [csv.want_quote] in Hq. apply orb_false_elim in Hq as [Ha Hf].
    destruct (plain_char a Ha) as (Hd & Hqc & Hcr & Hlf).
    cbn [String.length] in Hover.
    rewrite string_app_cons, scan_step by assumption. parser_step.
    rewrite (is_newline_false a Hcr Hlf), Hqc, Hd.
    rewrite add_char_ok by lia. parser_step.
    apply scan_plain_over; [exact Hf | lia | lia].
Qed.

Lemma scan_fields_over (more : list string) :
  forall (done : list string) (g : string) (mid : bool) (rest : string),
    forallb within_limit (g :: more) = false ->
    scan (csv.Reader csv.START_FIELD done [] 0) mid
         (written_field g +:+ written_more more +:+ csv.lineterminator +:+ rest)
    = raise csv_Error.
Proof.
  induction more as [|g' more IH]; intros done g mid rest Hover;
    cbn [forallb] in Hover; destruct (within_limit g) eqn:Hg;
    try (now apply read_field_over).
  cbn [andb] in Hover. cbn [written_more]. rewrite !string_app_cons.
  destruct (read_field done g mid csv.delimiter
              ((written_field g' +:+ written_more more) +:+ csv.lineterminator +:+ rest)
              Hg) as (r & Hr & Hscan).
  rewrite Hscan, (holding_delimiter done g r true _ Hr).
  rewrite string_app_assoc. now apply IH.
Qed.

(** ** Records and files *)

(** A record that is not the single empty field starts with its first
    field. *)
Lemma scan_record_fields (f : string) (more : list string) (mid : bool) (rest : string) :
  f :: more <> [EmptyString] ->
  scan csv.parse_reset mid (written_row (f :: more) +:+ rest)
  = scan (csv.Reader csv.START_FIELD [] [] 0) mid
         (written_field f +:+ written_more more +:+ csv.lineterminator +:+ rest).
Proof.
  intros Hne.
  assert (Htext : written_row (f :: more) +:+ rest
                  = written_field f +:+ written_more more +:+ csv.lineterminator +:+ rest).
  { destruct more as [|g more]; cbn [written_row written_more].
    - rewrite bool_decide_eq_false_2 by congruence.
      now rewrite string_app_nil_l, string_app_assoc.
    - now rewrite !string_app_assoc. }
  rewrite Htext.
  assert (Hstart : exists c text,
            written_field f +:+ written_more more +:+ csv.lineterminator +:+ rest
            = String c text /\ csv.is_newline c = false).
  { unfold written_field. destruct (csv.want_quote f) eqn:Hq.
    - eexists _, _. split; [rewrite string_app_cons; reflexivity | reflexivity].
    - destruct f as [|a f].
      + destruct more as [|g more]; [congruence|].
        exists csv.delimiter. eexists. split; [|reflexivity].
        cbn [written_more]. now rewrite string_app_nil_l, string_app_cons.
      + cbn [csv.want_quote] in Hq. apply orb_false_elim in Hq as [Ha _].
        destruct (plain_char a Ha) as (_ & _ & Hcr & Hlf).
        eexists _, _. split; [rewrite string_app_cons; reflexivity|].
        now apply is_newline_false. }
  destruct Hstart as (c & text & -> & Hnl). now apply start_of_record.
Qed.

Lemma scan_single_empty (mid : bool) (rest : string) :
  scan csv.parse_reset mid (written_row [EmptyString] +:+ rest)
  = rbind (scan csv.parse_reset false rest) (fun rows => ok ([EmptyString] :: rows)).
Proof. reflexivity. Qed.

(** A written record whose fields are within the limit is read back,
    and the reader starts the next record afresh. *)
Lemma scan_row (row : list string) (mid : bool) (rest : string) :
  forallb within_limit row = true ->
  scan csv.parse_reset mid (written_row row +:+ rest)
  = rbind (scan csv.parse_reset false rest) (fun rows => ok (row :: rows)).
Proof.
  intros Hrow. destruct row as [|f more]; [apply empty_record|].
  destruct (decide (f :: more = [EmptyString])) as [->|Hne];
    [apply scan_single_empty|].
  rewrite scan_record_fields by exact Hne.
  cbn [forallb] in Hrow. apply andb_prop in Hrow as [Hf Hmore].
  now rewrite (scan_fields more [] f).
Qed.

Lemma scan_row_over (row : list string) (mid : bool) (rest : string) :
  forallb within_limit row = false ->
  scan csv.parse_reset mid (written_row row +:+ rest) = raise csv_Error.
Proof.
  intros Hrow. destruct row as [|f more]; [discriminate Hrow|].
  destruct (decide (f :: more = [EmptyString])) as [E|Hne];
    [rewrite E in Hrow; discriminate Hrow|].
  rewrite scan_record_fields by exact Hne. now apply scan_fields_over.
Qed.

Lemma written_rows_app (rows1 rows2 : list (list string)) :
  written_rows (rows1 ++ rows2) = written_rows rows1 +:+ written_rows rows2.
Proof.
  induction rows1 as [|row rows1 IH]; cbn [app written_rows].
  - now rewrite string_app_nil_l.
  - now rewrite IH, string_app_assoc.
Qed.

(** Every written file whose fields are within the limit reads back as
    the rows that were written. *)
Lemma read_rows (rows : list (list string)) :
  forallb (forallb within_limit) rows = true ->
  csv.reader_rows csv.parse_reset (csv.readlines (written_rows rows)) = ok rows.
Proof.
  intros H. rewrite reader_rows_scan.
  induction rows as [|row rows IH]; [reflexivity|].
  cbn [forallb] in H. apply andb_prop in H as [Hrow Hrows].
  cbn [written_rows]. rewrite scan_row by exact Hrow.
  now rewrite IH.
Qed.

(** Reading fails at the first record with a field beyond the limit. *)
Lemma read_rows_over (good : list (list string)) (bad : list string)
    (others : list (list string)) :
  forallb (forallb within_limit) good = true ->
  forallb within_limit bad = false ->
  csv.reader_rows csv.parse_reset (csv.readlines (written_rows (good ++ bad :: others)))
  = raise csv_Error.
Proof.
  intros Hgood Hbad. rewrite reader_rows_scan.
  induction good as [|row good IH]; cbn [app written_rows].
  - now apply scan_row_over.
  - cbn [forallb] in Hgood. apply andb_prop in Hgood as [Hrow Hgood].
    rewrite scan_row by exact Hrow. now rewrite IH.
Qed.

(** ** Loading *)

Lemma load_data_run (text : string) (w : World) :
  load_data (set_disk w (Some text))
  = (csv.DictReader_rows text, set_disk w (Some text)).
Proof. reflexivity. Qed.

Lemma DictReader_rows_written (header : list string) (rows : list (list string)) :
  forallb (forallb within_limit) (header :: rows) = true ->
  csv.DictReader_rows (written_rows (header :: rows))
  = ok (map (csv.make_row header) (filter (fun row => row ≠ []) rows)).
Proof.
  intros H. unfold csv.DictReader_rows. now rewrite read_rows.
Qed.

(** The strings of a well-formed record are its cells. *)
Lemma row_values_strings (d : dict) :
  well_formed d = true -> map VStr (row_strings d) = row_values d.
Proof.
  intros H. apply well_formed_spec in H as (_ & H & _).
  unfold row_strings, row_values.
  induction fieldnames as [|k keys IH]; [reflexivity|].
  cbn [map]. rewrite IH by (intros k' Hk'; apply H; now right). f_equal.
  destruct (H k (or_introl eq_refl)) as [s Hs]. unfold dict_get. now rewrite Hs.
Qed.

Lemma row_line_written (d : dict) :
  well_formed d = true -> row_line d = written_row (row_strings d).
Proof.
  intros H. unfold row_line. now rewrite <- row_values_strings, writerow_written.
Qed.

Lemma saved_text_written (rows : list dict) :
  forallb well_formed rows = true ->
  saved_text rows = written_rows (fieldnames :: map row_strings rows).
Proof.
  intros H. unfold saved_text, header_line. rewrite writerow_written.
  cbn [written_rows]. f_equal.
  induction rows as [|d rows IH]; [reflexivity|].
  cbn [forallb] in H. apply andb_prop in H as [Hd Hrows].
  cbn [row_lines map written_rows]. now rewrite row_line_written, IH.
Qed.

(** [DictReader] rebuilds a well-formed record from its line. *)
Lemma make_row_strings (d : dict) :
  well_formed d = true -> csv.make_row fieldnames (row_strings d) = d.
Proof.
  intros H. apply well_formed_spec in H as (Hrest & Hstr & Hkeys).
  destruct d as [c r]. cbn [rest cells] in *. subst r.
  destruct (Hstr "id") as [s1 H1]; [simpl; tauto|].
  destruct (Hstr "item") as [s2 H2]; [simpl; tauto|].
  destruct (Hstr "gtin") as [s3 H3]; [simpl; tauto|].
  destruct (Hstr "mpn") as [s4 H4]; [simpl; tauto|].
  destruct (Hstr "brand") as [s5 H5]; [simpl; tauto|].
  destruct (Hstr "quantity") as [s6 H6]; [simpl; tauto|].
  destruct (Hstr "expiration_date") as [s7 H7]; [simpl; tauto|].
  destruct (Hstr "price") as [s8 H8]; [simpl; tauto|].
  unfold row_strings, row_values, fieldnames, dict_get. cbn [map cells].
  rewrite H1, H2, H3, H4, H5, H6, H7, H8. cbn [csv.field_text].
  unfold csv.make_row, csv.dict_zip.
  cbn [length Nat.ltb Nat.leb map zip zip_with fold_left drop fst snd].
  f_equal. apply map_eq. intros k.
  repeat match goal with
  | |- (<[?k' := _]> _) !! k = _ =>
      destruct (decide (k = k')) as [->|?];
      [rewrite lookup_insert_eq; symmetry; assumption
      | rewrite lookup_insert_ne by congruence]
  end.
  rewrite lookup_empty. destruct (c !! k) as [v|] eqn:E; [exfalso|reflexivity].
  assert (Hin : In k ["id"; "item"; "gtin"; "mpn"; "brand"; "quantity";
                      "expiration_date"; "price"]) by (apply Hkeys; eauto).
  simpl in Hin. intuition congruence.
Qed.

Lemma row_strings_nonempty (d : dict) : row_strings d <> [].
Proof. discriminate. Qed.

Lemma loaded_rows (rows : list dict) :
  forallb well_formed rows = true ->
  map (csv.make_row fieldnames) (filter (fun row => row ≠ []) (map row_strings rows))
  = rows.
Proof.
  induction rows as [|d rows IH]; intros H; [reflexivity|].
  cbn [forallb] in H. apply andb_prop in H as [Hd Hrows]. cbn [map].
  rewrite filter_cons_True by apply row_strings_nonempty.
  cbn [map]. now rewrite make_row_strings, IH.
Qed.

Lemma loadable_rows (rows : list dict) :
  forallb (forallb within_limit) (map row_strings rows) = loadable rows.
Proof.
  unfold loadable. induction rows as [|d rows IH]; [reflexivity|].
  cbn [map forallb]. now rewrite IH.
Qed.

Lemma fieldnames_within_limit : forallb within_limit fieldnames = true.
Proof. reflexivity. Qed.

(** Loading what saving wrote. *)
Lemma load_saved (rows : list dict) (w : World) :
  forallb well_formed rows = true ->
  load_data (set_disk w (Some (saved_text rows)))
  = (csv.DictReader_rows (written_rows (fieldnames :: map row_strings rows)),
     set_disk w (Some (saved_text rows))).
Proof. intros H. now rewrite load_data_run, saved_text_written. Qed.








Lemma saved_text_nil : saved_text [] = header_line.
Proof. unfold saved_text. cbn [row_lines]. now rewrite string_app_nil_r. Qed.

(** X8 -- Round trip.  Saving well-formed records and loading the file
    again returns the same records, with the same values in the same
    order, and leaves the saved file as it is -- provided no field is
    longer than the 131072 characters that the reader of the [csv]
    module accepts.  Commas, quotes and line breaks inside a field do
    not matter. *)
Theorem load_after_save_round_trip (rows : list dict) (w : World) :
  forallb well_formed rows = true ->
  loadable rows = true ->
  (save_data rows ;; load_data) w = (ok rows, set_disk w (Some (saved_text rows))).
Proof.
  intros Hwf Hlimit.
  erewrite bind_ok by (apply save_data_well_formed, Hwf).
  rewrite load_saved by exact Hwf.
  rewrite DictReader_rows_written.
  - now rewrite loaded_rows.
  - cbn [forallb]. now rewrite fieldnames_within_limit, loadable_rows.
Qed.

Lemma load_after_save_round_trip_witness :
  (save_data (awkward :: stock) ;; load_data) (world_with_file "old contents")
  = (ok (awkward :: stock),
     set_disk (world_with_file "old contents") (Some (saved_text (awkward :: stock)))).
Proof.
  refine (load_after_save_round_trip (awkward :: stock) (world_with_file "old contents") _ _);
    reflexivity.
Defined.







(** X12 -- Loading when there are no records.  Without a file
    [load_data] raises [FileNotFoundError] and creates nothing; an empty
    file, a file that holds a header line only, and the file that saving
    the empty set leaves all load as the empty list. *)
Theorem load_data_without_records (w : World) :
  (disk w = None -> load_data w = (raise FileNotFoundError, w))
  /\ load_data (set_disk w (Some EmptyString)) = (ok [], set_disk w (Some EmptyString))
  /\ (forall header, forallb within_limit header = true ->
        load_data (set_disk w (Some (written_row header)))
        = (ok [], set_disk w (Some (written_row header))))
  /\ (save_data [] ;; load_data) w = (ok [], set_disk w (Some header_line)).
Proof.
  split; [|split; [|split]].
  - intros H. unfold load_data, bind, open_r. now rewrite H.
  - reflexivity.
  - intros header H.
    pose proof (DictReader_rows_written header []) as Hread.
    cbn [written_rows forallb] in Hread. rewrite string_app_nil_r in Hread.
    rewrite load_data_run, Hread; [reflexivity|].
    now rewrite H.
  - erewrite bind_ok by (now apply save_data_well_formed).
    rewrite saved_text_nil. reflexivity.
Qed.

(** ** Cells that reading does not create *)

Lemma fold_insert_lookup_notin (keys : list string) (m : gmap string value) (k : string) :
  ~ In k keys ->
  fold_left (fun m key => <[key := VNone]> m) keys m !! k = m !! k.
Proof.
  revert m. induction keys as [|key keys IH]; intros m Hk; [reflexivity|].
  cbn [fold_left]. rewrite IH by (intros H; apply Hk; now right).
  apply lookup_insert_ne. intros ->. apply Hk. now left.
Qed.

Lemma fold_zip_lookup_notin (pairs : list (string * value)) (m : gmap string value)
    (k : string) :
  ~ In k (map fst pairs) ->
  fold_left (fun m kv => <[kv.1 := kv.2]> m) pairs m !! k = m !! k.
Proof.
  revert m. induction pairs as [|[key v] pairs IH]; intros m Hk; [reflexivity|].
  cbn [fold_left]. rewrite IH by (intros H; apply Hk; now right).
  apply lookup_insert_ne. cbn [fst]. intros ->. apply Hk. now left.
Qed.

Lemma zip_fst_in (keys : list string) (vals : list value) (k : string) :
  In k (map fst (zip keys vals)) -> In k keys.
Proof.
  revert vals. induction keys as [|key keys IH]; intros [|v vals] H; try destruct H.
  - now left.
  - right. now apply (IH vals).
Qed.

(** A record read under a header has no cell for a name that is not in
    the header. *)
Lemma make_row_no_column (header row : list string) (k : string) :
  ~ In k header -> cells (csv.make_row header row) !! k = None.
Proof.
  intros Hk.
  assert (Hzip : csv.dict_zip header (map VStr row) !! k = None).
  { unfold csv.dict_zip. rewrite fold_zip_lookup_notin; [apply lookup_empty|].
    intros H. apply Hk. now apply zip_fst_in in H. }
  unfold csv.make_row. destruct (length header <? length row)%nat; cbn [cells].
  - exact Hzip.
  - rewrite fold_insert_lookup_notin; [exact Hzip|].
    intros H. apply Hk. rewrite <- (take_drop (length row) header).
    apply in_or_app. now right.
Qed.

Lemma strptime_str_error (s : string) (e : exn) :
  datetime.strptime (VStr s) = raise e -> e = ValueError.
Proof.
  unfold datetime.strptime.
  destruct (datetime.regex_matches s) as [|[[[y m] d] [|c rest]] l];
    try (intros H; now injection H as <-).
  destruct (datetime.valid_date y m d); [discriminate|].
  intros H. now injection H as <-.
Qed.

(** ** The decorators and the operations they wrap *)

Lemma progress_output_bars :
  progress_output
  = [(nl +:+ "Processing...") +:+ nl]
    ++ flat_map (fun i => [cr; "[" +:+ repeat_char "=" i +:+ repeat_char " " (20 - i)
                                 +:+ "] " +:+ pretty (5 * i)%nat +:+ "%"])
                (seq 0 21)
    ++ [(nl +:+ "Done") +:+ nl].
Proof. vm_compute. reflexivity. Qed.

(** X13 -- The progress bar is drawn in full before the wrapped
    function starts.  Whatever function is decorated and whatever it is
    given, the decorated function first writes "Processing...", the 21
    bars from 0% to 100% (each after a carriage return, each 20
    characters wide between the brackets) and "Done", and only then
    calls the function, once, with the same arguments; what the function
    returns or raises is what the decorated function returns or
    raises. *)
Theorem progress_bar_runs_before_the_call {D R} (func : pyfun D R) (data : D)
    (args : list value) (kwargs : gmap string value) (w : World) :
  progress_bar func data args kwargs w
  = func data args kwargs (add_out w progress_output)
  /\ progress_output
     = [(nl +:+ "Processing...") +:+ nl]
       ++ flat_map (fun i => [cr; "[" +:+ repeat_char "=" i +:+ repeat_char " " (20 - i)
                                    +:+ "] " +:+ pretty (5 * i)%nat +:+ "%"])
                   (seq 0 21)
       ++ [(nl +:+ "Done") +:+ nl]
  /\ (forall e w', func data args kwargs (add_out w progress_output) = (raise e, w') ->
        progress_bar func data args kwargs w = (raise e, w')).
Proof.
  split; [apply progress_bar_run|]. split; [apply progress_output_bars|].
  intros e w' H. now rewrite progress_bar_run.
Qed.

(** The guard stops at the first record that has no [item] cell. *)
Lemma any_item_eq_KeyError (item : value) (before : list dict) (bad : dict)
    (after : list dict) :
  Forall (fun d => exists v, cells d !! "item" = Some v /\ v <> item) before ->
  cells bad !! "item" = None ->
  any_item_eq item (before ++ bad :: after) = raise (KeyError "item").
Proof.
  intros Hbefore Hbad. induction Hbefore as [|d before (v & Hv & Hne) _ IH].
  - cbn [app any_item_eq]. unfold getitem. now rewrite Hbad.
  - cbn [app any_item_eq]. unfold getitem. rewrite Hv. cbn [rbind ok].
    now rewrite decide_False by exact Hne.
Qed.

Lemma guarded_KeyError (func : pyfun loc value) data args kwargs
    (before : list dict) (bad : dict) (after : list dict) (w : World) :
  heap w !! data = Some (before ++ bad :: after) ->
  Forall (fun d => exists v, cells d !! "item" = Some v
                             /\ v <> default VNone (kwargs !! "item")) before ->
  cells bad !! "item" = None ->
  progress_bar (check_item_present func) data args kwargs w
  = (raise (KeyError "item"), add_out w progress_output).
Proof.
  intros Hheap Hbefore Hbad. rewrite progress_bar_run. unfold check_item_present.
  erewrite bind_ok by (apply deref_run, Hheap).
  unfold bind, lift. now rewrite (any_item_eq_KeyError _ before bad after Hbefore Hbad).
Qed.

(** X14 -- A record without a name stops the guard.  When the list
    holds a record that has no [item] cell, and no record before it has
    the name that is looked for, [remove_item] and [update_item] raise
    [KeyError('item')] once the progress bar is drawn, whatever their
    arguments: nothing else is printed, and neither the list nor the
    file is touched.  A file whose header has no [item] column and that
    has a line that is not empty after the header (no field beyond the
    limit of the reader) leads there: [load_data] returns a list whose
    first record was read under that header, and on every list that
    starts with a record read under such a header both operations raise
    that error. *)
Theorem guard_raises_KeyError_without_name (data : loc) (before : list dict)
    (bad : dict) (after : list dict) (args : list value)
    (kwargs : gmap string value) (w : World) :
  heap w !! data = Some (before ++ bad :: after) ->
  Forall (fun d => exists v, cells d !! "item" = Some v
                             /\ v <> default VNone (kwargs !! "item")) before ->
  cells bad !! "item" = None ->
  remove_item data args kwargs w = (raise (KeyError "item"), add_out w progress_output)
  /\ update_item data args kwargs w = (raise (KeyError "item"), add_out w progress_output)
  /\ (forall header row others w0,
        ~ In "item" header ->
        heap w0 !! data = Some (csv.make_row header row :: others) ->
        remove_item data args kwargs w0
        = (raise (KeyError "item"), add_out w0 progress_output)
        /\ update_item data args kwargs w0
           = (raise (KeyError "item"), add_out w0 progress_output))
  /\ (forall header rows w0,
        forallb (forallb within_limit) (header :: rows) = true ->
        filter (fun row => row ≠ []) rows <> [] ->
        exists row others,
          load_data (set_disk w0 (Some (written_rows (header :: rows))))
          = (ok (csv.make_row header row :: others),
             set_disk w0 (Some (written_rows (header :: rows))))).
Proof.
  intros Hheap Hbefore Hbad. split; [|split; [|split]].
  - now apply (guarded_KeyError remove_item_body data args kwargs before bad after).
  - now apply (guarded_KeyError update_item_body data args kwargs before bad after).
  - intros header row others w0 Hno Hheap0.
    pose proof (make_row_no_column header row "item" Hno) as Hcell.
    split.
    + now apply (guarded_KeyError remove_item_body data args kwargs []
                   (csv.make_row header row) others).
    + now apply (guarded_KeyError update_item_body data args kwargs []
                   (csv.make_row header row) others).
  - intros header rows w0 Hlimit Hrows.
    rewrite load_data_run, DictReader_rows_written by exact Hlimit.
    destruct (filter (fun row => row ≠ []) rows) as [|row lines]; [now contradiction Hrows|].
    exists row. eexists. cbn [map]. reflexivity.
Qed.

Lemma guard_raises_KeyError_without_name_witness :
  let rows := [widget] ++ csv.make_row ["name"; "qty"] ["Gadget"; "5"] :: [gadget] in
  remove_item 0%nat [] {["item" := VStr "Gadget"]} (world_with rows)
  = (raise (KeyError "item"), add_out (world_with rows) progress_output).
Proof.
  refine (proj1 (guard_raises_KeyError_without_name 0%nat [widget]
                   (csv.make_row ["name"; "qty"] ["Gadget"; "5"]) [gadget] []
                   {["item" := VStr "Gadget"]} (world_with _) _ _ _)).
  - reflexivity.
  - repeat constructor. exists (VStr "Widget"). split; [reflexivity | discriminate].
  - reflexivity.
Defined.

(** The comprehension of [remove_item] fails on a name that is [None]. *)
Lemma remove_filter_AttributeError (name : string) (rows : list dict) :
  Forall (fun d => is_Some (cells d !! "item")) rows ->
  (exists d, In d rows /\ cells d !! "item" = Some VNone) ->
  remove_filter (VStr name) rows = raise AttributeError.
Proof.
  induction 1 as [|d rows [v Hv] _ IH]; intros (d0 & Hin & Hd0); [destruct Hin|].
  cbn [remove_filter]. unfold getitem. rewrite Hv. cbn [rbind ok].
  destruct v as [|s]; [reflexivity|]. cbn [py_lower rbind ok].
  rewrite IH; [reflexivity|].
  destruct Hin as [<-|Hin]; [congruence | eauto].
Qed.

(** X15 -- A record whose name is [None] makes every removal fail.
    When every record has an [item] cell, one of them is named exactly
    as asked, and some record's name is [None] (which is how
    [load_data] reads a line too short to have a name),
    [remove_item] raises [AttributeError] after the progress bar:
    nothing is removed, the file and the list stay as they were, and no
    confirmation is printed. *)
Theorem remove_item_fails_on_None_name (data : loc) (rows : list dict)
    (name : string) (w : World) :
  heap w !! data = Some rows ->
  Forall (fun d => is_Some (cells d !! "item")) rows ->
  (exists d, In d rows /\ named d name) ->
  (exists d, In d rows /\ cells d !! "item" = Some VNone) ->
  remove_item data [] {["item" := VStr name]} w
  = (raise AttributeError, add_out w progress_output).
Proof.
  intros Hheap Hkeys Hsome Hnone.
  assert (Hany : any_item_eq (default VNone (({["item" := VStr name]} : gmap string value)
                                               !! "item")) rows = ok true).
  { apply any_item_eq_hit; [exact Hkeys|]. destruct Hsome as (d & Hd & Hnamed). eauto. }
  unfold remove_item. rewrite (guarded_hit remove_item_body data [] _ rows w Hheap Hany).
  unfold remove_item_body.
  erewrite bind_lift_ok by (vm_compute; reflexivity).
  erewrite bind_ok by (apply deref_run; exact Hheap).
  change (param _ "item") with (VStr name).
  unfold bind, lift. now rewrite remove_filter_AttributeError.
Qed.

Lemma remove_item_fails_on_None_name_witness :
  let rows := [widget; csv.make_row fieldnames ["id-7"]; gadget] in
  remove_item 0%nat [] {["item" := VStr "Gadget"]} (world_with rows)
  = (raise AttributeError, add_out (world_with rows) progress_output).
Proof.
  refine (remove_item_fails_on_None_name 0%nat _ "Gadget" (world_with _) _ _ _ _).
  - reflexivity.
  - repeat constructor; eexists; reflexivity.
  - exists gadget. split; [simpl; tauto | reflexivity].
  - exists (csv.make_row fieldnames ["id-7"]). split; [simpl; tauto | reflexivity].
Defined.

Lemma expired_filter_raise (today : date) (good : list dict) (bad : dict)
    (others : list dict) (e : exn) :
  (forall d, In d good -> exists k, expiration_key d = ok k) ->
  expiration_key bad = raise e ->
  expired_filter today (good ++ bad :: others) = raise e.
Proof.
  intros Hgood Hbad. induction good as [|d good IH].
  - cbn [app expired_filter]. now rewrite Hbad.
  - cbn [app expired_filter]. destruct (Hgood d (or_introl eq_refl)) as [k ->].
    cbn [rbind ok]. rewrite IH by (intros; apply Hgood; now right). reflexivity.
Qed.

(** X16 -- One unreadable date blocks the expiration view.  When the
    date of some record is missing or is not a date in the form
    year-month-day, [get_expired_items] raises the error of the first
    such record once the progress bar is drawn -- also when that record
    would not be expired and when others are: nothing is listed and
    nothing is returned.  A missing cell gives [KeyError], a text that
    is no calendar date gives [ValueError]. *)
Theorem get_expired_items_fails_on_unreadable_date (good : list dict) (bad : dict)
    (others : list dict) (e : exn) (w : World) :
  (forall d, In d good -> exists k, expiration_key d = ok k) ->
  expiration_key bad = raise e ->
  get_expired_items (good ++ bad :: others) [] ∅ w = (raise e, add_out w progress_output)
  /\ (cells bad !! "expiration_date" = None -> e = KeyError "expiration_date")
  /\ (forall s, cells bad !! "expiration_date" = Some (VStr s) -> e = ValueError).
Proof.
  intros Hgood Hbad. split; [|split].
  - unfold get_expired_items. rewrite progress_bar_run. unfold get_expired_items_body.
    erewrite bind_lift_ok by apply bind_args_none.
    erewrite bind_ok by reflexivity.
    unfold bind, lift.
    now rewrite (expired_filter_raise _ good bad others e Hgood Hbad).
  - intros Hnone. unfold expiration_key, getitem in Hbad. rewrite Hnone in Hbad.
    cbn [rbind raise] in Hbad. now injection Hbad as <-.
  - intros s Hs. unfold expiration_key, getitem in Hbad. rewrite Hs in Hbad.
    cbn [rbind ok] in Hbad. now apply strptime_str_error in Hbad.
Qed.

Lemma get_expired_items_fails_on_unreadable_date_witness :
  get_expired_items ([gadget] ++ setitem widget "expiration_date" (VStr "2024-02-30") :: [])
    [] ∅ (world_with [])
  = (raise ValueError, add_out (world_with []) progress_output).
Proof.
  refine (proj1 (get_expired_items_fails_on_unreadable_date [gadget] _ [] ValueError
                   (world_with []) _ _)).
  - intros d [<-|[]]. eexists. reflexivity.
  - reflexivity.
Defined.
(** ** The operations one after another, and when saving fails *)

Lemma well_formed_all_keys (rows : list dict) :
  forallb well_formed rows = true ->
  Forall (fun d => is_Some (cells d !! "item")) rows.
Proof.
  intros H. eapply List.Forall_impl; [|apply well_formed_all_named, H].
  apply has_name_is_Some.
Qed.

Lemma remove_item_run (data : loc) (rows : list dict) (name : string) (w : World) :
  heap w !! data = Some rows ->
  forallb well_formed rows = true ->
  (exists d, In d rows /\ named d name) ->
  remove_item data [] {["item" := VStr name]} w
  = (ok VNone,
     mkWorld (heap w)
             (Some (saved_text (List.filter (fun d => negb (same_name_nocase name d)) rows)))
             (stdout w ++ progress_output
              ++ [("Item '" +:+ name +:+ "' removed successfully.") +:+ nl])
             (fake_tape w) (fake_pos w) (today w)).
Proof.
  intros Hheap Hwf (d & Hd & Hnamed).
  assert (Hany : any_item_eq (default VNone (({["item" := VStr name]} : gmap string value)
                                               !! "item")) rows = ok true).
  { apply any_item_eq_hit; [now apply well_formed_all_keys | eauto]. }
  unfold remove_item. rewrite (guarded_hit remove_item_body data [] _ rows w Hheap Hany).
  rewrite (remove_item_body_run data rows name (add_out w progress_output) Hheap Hwf).
  unfold add_out, set_disk. cbn [heap disk stdout fake_tape fake_pos today].
  now rewrite <- app_assoc.
Qed.

Lemma update_row_unset (item : value) (d : dict) :
  update_row item VNone VNone VNone d = d.
Proof. unfold update_row. now destruct (decide _). Qed.

Lemma update_row_name (item quantity expiration_date price : value) (d : dict) :
  cells (update_row item quantity expiration_date price d) !! "item" = cells d !! "item".
Proof. apply update_row_frame; discriminate. Qed.

Lemma set_fields_idem (quantity expiration_date price : value) (d : dict) :
  let set d := set_if_given "price" price
                 (set_if_given "expiration_date" expiration_date
                   (set_if_given "quantity" quantity d)) in
  set (set d) = set d.
Proof.
  destruct d as [c r]. unfold set_if_given, setitem.
  destruct (decide (price = VNone)), (decide (expiration_date = VNone)),
    (decide (quantity = VNone)); cbn [cells rest]; try reflexivity;
    f_equal; apply map_eq; intros k; rewrite !lookup_insert;
    repeat case_decide; congruence.
Qed.

(** Updating a row twice with the same values is updating it once. *)
Lemma update_row_idem (item quantity expiration_date price : value) (d : dict) :
  update_row item quantity expiration_date price
    (update_row item quantity expiration_date price d)
  = update_row item quantity expiration_date price d.
Proof.
  unfold update_row at 1. rewrite update_row_name.
  destruct (decide (cells d !! "item" = Some item)) as [E|E].
  - unfold update_row. rewrite decide_True by exact E. apply set_fields_idem.
  - reflexivity.
Qed.

Lemma update_rows_idem (item quantity expiration_date price : value) (rows : list dict) :
  map (update_row item quantity expiration_date price)
      (map (update_row item quantity expiration_date price) rows)
  = map (update_row item quantity expiration_date price) rows.
Proof.
  induction rows as [|d rows IH]; [reflexivity|].
  cbn [map]. now rewrite update_row_idem, IH.
Qed.

Lemma update_rows_unset (item : value) (rows : list dict) :
  map (update_row item VNone VNone VNone) rows = rows.
Proof.
  induction rows as [|d rows IH]; [reflexivity|].
  cbn [map]. now rewrite update_row_unset, IH.
Qed.

(** X17 -- Repeating an update changes nothing more, and an update
    without values still writes the file.  On well-formed records with
    a record of the given name, running [update_item] twice with the
    same arguments leaves the list and the file exactly as one run
    leaves them (only the progress bar is drawn twice; no confirmation
    is ever printed); and an update in which quantity, expiration date
    and price are all [None] leaves every record as it was but still
    replaces the contents of the file by the records of the list. *)
Theorem update_item_repeated (data : loc) (rows : list dict) (name : string)
    (quantity expiration_date price : value) (w : World) :
  heap w !! data = Some rows ->
  forallb well_formed rows = true ->
  (exists d, In d rows /\ named d name) ->
  let kwargs : gmap string value :=
    {["item" := VStr name; "quantity" := quantity;
      "expiration_date" := expiration_date; "price" := price]} in
  let rows' := map (update_row (VStr name) quantity expiration_date price) rows in
  (update_item data [] kwargs ;; update_item data [] kwargs) w
  = (ok VNone,
     mkWorld (<[data := rows']> (heap w)) (Some (saved_text rows'))
             (stdout w ++ progress_output ++ progress_output)
             (fake_tape w) (fake_pos w) (today w))
  /\ update_item data []
       {["item" := VStr name; "quantity" := VNone;
         "expiration_date" := VNone; "price" := VNone]} w
     = (ok VNone,
        mkWorld (heap w) (Some (saved_text rows)) (stdout w ++ progress_output)
                (fake_tape w) (fake_pos w) (today w)).
Proof.
  intros Hheap Hwf Hsome kwargs rows'. split.
  - erewrite bind_ok
      by (apply (update_item_saved data rows name quantity expiration_date price w
                   Hheap Hwf Hsome)).
    fold rows'.
    rewrite (update_item_saved data rows' name quantity expiration_date price).
    + cbn [heap disk stdout fake_tape fake_pos today]. unfold rows'.
      now rewrite update_rows_idem, insert_insert_eq, <- app_assoc.
    + apply lookup_insert_eq.
    + apply forallb_map_preserved; [|exact Hwf]. intros d. apply well_formed_update_row.
    + destruct Hsome as (d & Hd & Hnamed).
      exists (update_row (VStr name) quantity expiration_date price d). split.
      * unfold rows'. now apply in_map.
      * unfold named. now rewrite update_row_name.
  - rewrite (update_item_saved data rows name VNone VNone VNone w Hheap Hwf Hsome).
    now rewrite update_rows_unset, insert_id by exact Hheap.
Qed.

Lemma update_item_repeated_witness :
  let kwargs : gmap string value :=
    {["item" := VStr "Widget"; "quantity" := VStr "8";
      "expiration_date" := VNone; "price" := VNone]} in
  let rows' := [setitem widget "quantity" (VStr "8"); widget_lowercase; gadget] in
  (update_item 0%nat [] kwargs ;; update_item 0%nat [] kwargs) (world_with stock)
  = (ok VNone,
     mkWorld (<[0%nat := rows']> (heap (world_with stock))) (Some (saved_text rows'))
             (progress_output ++ progress_output)
             (fake_tape (world_with stock)) 0 (Date 2024 1 10)).
Proof.
  refine (proj1 (update_item_repeated 0%nat stock "Widget" (VStr "8") VNone VNone
                   (world_with stock) _ _ _)).
  - reflexivity.
  - reflexivity.
  - exists widget. split; [now left | reflexivity].
Defined.

(** X18 -- Updating compares names exactly, removing ignores case.  On
    well-formed records with a record named exactly [name], a record
    whose name differs from [name] only in the case of its letters is
    left untouched by [update_item], whatever values are given, and is
    dropped from the set that [remove_item] saves. *)
Theorem update_is_exact_remove_ignores_case (data : loc) (rows : list dict)
    (name other : string) (d : dict) (quantity expiration_date price : value)
    (w : World) :
  heap w !! data = Some rows ->
  forallb well_formed rows = true ->
  (exists d0, In d0 rows /\ named d0 name) ->
  In d rows -> named d other -> other <> name -> lower other = lower name ->
  let rows' := map (update_row (VStr name) quantity expiration_date price) rows in
  let kept := List.filter (fun d => negb (same_name_nocase name d)) rows in
  (exists w1,
     update_item data []
       {["item" := VStr name; "quantity" := quantity;
         "expiration_date" := expiration_date; "price" := price]} w = (ok VNone, w1)
     /\ heap w1 !! data = Some rows' /\ disk w1 = Some (saved_text rows')
     /\ In d rows'
     /\ update_row (VStr name) quantity expiration_date price d = d)
  /\ (exists w2,
        remove_item data [] {["item" := VStr name]} w = (ok VNone, w2)
        /\ disk w2 = Some (saved_text kept)
        /\ ~ In d kept).
Proof.
  intros Hheap Hwf Hsome Hd Hother Hne Hlow rows' kept.
  assert (Hsame : update_row (VStr name) quantity expiration_date price d = d).
  { apply update_row_other. unfold named in Hother. rewrite Hother. congruence. }
  split.
  - eexists. rewrite (update_item_saved data rows name quantity expiration_date price w
                        Hheap Hwf Hsome).
    split; [reflexivity|]. split; [apply lookup_insert_eq|]. split; [reflexivity|].
    split; [|exact Hsame].
    rewrite <- Hsame. now apply in_map.
  - eexists. rewrite (remove_item_run data rows name w Hheap Hwf Hsome).
    split; [reflexivity|]. split; [reflexivity|].
    unfold kept. rewrite filter_In. intros [_ Hkeep].
    apply negb_true_iff in Hkeep.
    assert (Hyes : same_name_nocase name d = true)
      by (apply same_name_nocase_spec; exists other; split; assumption).
    congruence.
Qed.

Lemma update_is_exact_remove_ignores_case_witness :
  (exists w1,
     update_item 0%nat []
       {["item" := VStr "Widget"; "quantity" := VStr "8";
         "expiration_date" := VNone; "price" := VNone]} (world_with stock) = (ok VNone, w1)
     /\ heap w1 !! 0%nat
        = Some [setitem widget "quantity" (VStr "8"); widget_lowercase; gadget])
  /\ (exists w2,
        remove_item 0%nat [] {["item" := VStr "Widget"]} (world_with stock) = (ok VNone, w2)
        /\ disk w2 = Some (saved_text [gadget])).
Proof.
  destruct (update_is_exact_remove_ignores_case 0%nat stock "Widget" "widget"
              widget_lowercase (VStr "8") VNone VNone (world_with stock))
    as [(w1 & H1 & H2 & _) (w2 & H3 & H4 & _)].
  - reflexivity.
  - reflexivity.
  - exists widget. split; [now left | reflexivity].
  - simpl. tauto.
  - reflexivity.
  - discriminate.
  - reflexivity.
  - split; [exists w1 | exists w2]; split; assumption.
Defined.

(** X19 -- [add_item] never looks for the name.  On well-formed
    records, whether or not a record of that name is already there, two
    additions under one name append two records, in the order of the
    calls, each with its own four values drawn from Faker (id, gtin,
    mpn, brand, in this order); the records that were there keep their
    places, the list and the file hold the same set afterwards, and
    each call prints its confirmation after its progress bar. *)
Theorem add_item_keeps_duplicates (data : loc) (rows : list dict)
    (item quantity expiration_date price quantity' expiration_date' price' : string)
    (w : World) :
  heap w !! data = Some rows ->
  forallb well_formed rows = true ->
  let n := fake_pos w in
  let first := record (fake_tape w n) item (fake_tape w (1 + n)) (fake_tape w (2 + n))
                      (fake_tape w (3 + n)) quantity expiration_date price in
  let second := record (fake_tape w (4 + n)) item (fake_tape w (5 + n))
                       (fake_tape w (6 + n)) (fake_tape w (7 + n))
                       quantity' expiration_date' price' in
  let added := ("Item '" +:+ item +:+ "' added successfully.") +:+ nl in
  (add_item data [VStr item; VStr quantity; VStr expiration_date; VStr price] ∅ ;;
   add_item data [VStr item; VStr quantity'; VStr expiration_date'; VStr price'] ∅) w
  = (ok VNone,
     mkWorld (<[data := rows ++ [first; second]]> (heap w))
             (Some (saved_text (rows ++ [first; second])))
             (stdout w ++ progress_output ++ [added] ++ progress_output ++ [added])
             (fake_tape w) (8 + n) (today w)).
Proof.
  intros Hheap Hwf n first second added.
  erewrite bind_ok
    by (apply (add_item_run data rows item quantity expiration_date price w Hheap Hwf)).
  fold n. fold first.
  rewrite (add_item_run data (rows ++ [first]) item quantity' expiration_date' price').
  - cbn [heap disk stdout fake_tape fake_pos today].
    rewrite insert_insert_eq, <- !app_assoc. reflexivity.
  - apply lookup_insert_eq.
  - apply forallb_snoc; [exact Hwf | apply well_formed_record].
Qed.

Lemma add_item_keeps_duplicates_witness :
  exists w',
    (add_item 0%nat [VStr "Widget"; VStr "7"; VStr "2025-03-01"; VStr "4.25"] ∅ ;;
     add_item 0%nat [VStr "Widget"; VStr "1"; VStr "2025-04-01"; VStr "4.50"] ∅)
      (world_with stock) = (ok VNone, w')
    /\ heap w' !! 0%nat
       = Some (stock
               ++ [record "id-9" "Widget" "4006381333939" "73513540" "Cog and Sons"
                          "7" "2025-03-01" "4.25";
                   record "more" "Widget" "more" "more" "more" "1" "2025-04-01" "4.50"]).
Proof.
  eexists. split.
  - refine (add_item_keeps_duplicates 0%nat stock "Widget" "7" "2025-03-01" "4.25"
              "1" "2025-04-01" "4.50" (world_with stock) _ _); reflexivity.
  - apply lookup_insert_eq.
Defined.






(** ** Reading dates *)

Lemma digit_char_digit (n : nat) :
  (n <= 9)%nat ->
  datetime.is_digit (digit_char n) = true /\ datetime.digit (digit_char n) = n.
Proof.
  intros H. do 10 (destruct n as [|n]; [split; reflexivity|]). lia.
Qed.

Lemma match_Y_text (y : nat) (rest : string) :
  (y < 100 * 100)%nat ->
  datetime.match_Y
    (String (digit_char (y / 1000))
      (String (digit_char (y / 100 mod 10))
        (String (digit_char (y / 10 mod 10))
          (String (digit_char (y mod 10)) rest))))
  = [(y, rest)].
Proof.
  intros H. unfold datetime.match_Y.
  destruct (digit_char_digit (y / 1000)) as [-> ->].
  { assert (y / 1000 < 10)%nat by (apply Nat.Div0.div_lt_upper_bound; lia). lia. }
  destruct (digit_char_digit (y / 100 mod 10)) as [-> ->];
    [pose proof (Nat.mod_upper_bound (y / 100) 10); lia|].
  destruct (digit_char_digit (y / 10 mod 10)) as [-> ->];
    [pose proof (Nat.mod_upper_bound (y / 10) 10); lia|].
  destruct (digit_char_digit (y mod 10)) as [-> ->];
    [pose proof (Nat.mod_upper_bound y 10); lia|].
  cbn [andb]. do 2 f_equal.
  pose proof (Nat.div_mod_eq y 10). pose proof (Nat.div_mod_eq (y / 10) 10).
  pose proof (Nat.div_mod_eq (y / 100) 10).
  replace (y / 100) with (y / 10 / 10) in * by (rewrite Nat.Div0.div_div; reflexivity).
  replace (y / 1000) with (y / 10 / 10 / 10) in *
    by (rewrite !Nat.Div0.div_div; reflexivity).
  pose proof (Nat.mod_upper_bound (y / 10 / 10 / 10) 10).
  assert ((y / 10 / 10 / 10) mod 10 = y / 10 / 10 / 10).
  { apply Nat.mod_small. apply Nat.Div0.div_lt_upper_bound.
    apply Nat.Div0.div_lt_upper_bound. apply Nat.Div0.div_lt_upper_bound. lia. }
  lia.
Qed.

Lemma match_m_text (pad : bool) (m : nat) (rest : string) :
  (1 <= m <= 12)%nat -> (pad = false -> (m <= 9)%nat) ->
  exists l, datetime.match_m (digits_text pad m +:+ String datetime.dash rest)
            = (m, String datetime.dash rest) :: l.
Proof.
  intros Hm Hpad. destruct pad.
  - do 13 (destruct m as [|m]; [try lia; eexists; cbv; reflexivity|]). lia.
  - specialize (Hpad eq_refl).
    do 10 (destruct m as [|m]; [try lia; eexists; cbv; reflexivity|]). lia.
Qed.

Lemma match_d_text (pad : bool) (d : nat) :
  (1 <= d <= 31)%nat -> (pad = false -> (d <= 9)%nat) ->
  exists l, datetime.match_d (digits_text pad d) = (d, EmptyString) :: l.
Proof.
  intros Hd Hpad. destruct pad.
  - do 32 (destruct d as [|d]; [try lia; eexists; cbv; reflexivity|]). lia.
  - specialize (Hpad eq_refl).
    do 10 (destruct d as [|d]; [try lia; eexists; cbv; reflexivity|]). lia.
Qed.

Lemma days_in_month_le (y m : nat) : (datetime.days_in_month y m <= 31)%nat.
Proof.
  unfold datetime.days_in_month.
  do 12 (destruct m as [|m]; [try destruct (datetime.is_leap y); lia|]). lia.
Qed.

Lemma strptime_date_text (pad_m pad_d : bool) (y m d : nat) :
  datetime.valid_date y m d = true -> (y < 100 * 100)%nat ->
  (pad_m = false -> (m <= 9)%nat) -> (pad_d = false -> (d <= 9)%nat) ->
  datetime.strptime (VStr (date_text pad_m pad_d y m d)) = ok (Date y m d).
Proof.
  intros Hvalid Hy Hm Hd.
  pose proof Hvalid as Hv. unfold datetime.valid_date in Hv.
  rewrite !andb_true_iff, !Nat.leb_le in Hv. destruct Hv as ((((Hy1 & Hm1) & Hm2) & Hd1) & Hd2).
  pose proof (days_in_month_le y m) as Hdays.
  destruct (match_m_text pad_m m (digits_text pad_d d)) as [lm Hmm]; [lia | exact Hm|].
  destruct (match_d_text pad_d d) as [ld Hdd]; [lia | exact Hd|].
  unfold datetime.strptime, datetime.regex_matches, date_text.
  rewrite match_Y_text by exact Hy. cbn [flat_map datetime.literal].
  rewrite Ascii.eqb_refl. cbn [flat_map app]. rewrite Hmm. cbn [flat_map datetime.literal].
  rewrite Ascii.eqb_refl. cbn [flat_map app]. rewrite Hdd. cbn [map app].
  now rewrite Hvalid.
Qed.

Lemma dated_parses (x : dict) : dated x -> exists k, expiration_key x = ok k.
Proof.
  intros (pm & pd & y & m & d & Hvalid & Hy & Hm & Hd & Hcell).
  exists (Date y m d). unfold expiration_key, getitem. rewrite Hcell.
  cbn [rbind ok]. now apply strptime_date_text.
Qed.

(** X21 -- Every calendar date written as year-month-day is read as
    that date.  When the expiration date of a record is the text of a
    date that exists (the month from 1 to 12, the day within the month,
    leap years counted), with the year in four digits and the month and
    the day in two digits or without their leading zero, the sort key
    of the record is that date, and two spellings of one date, as
    2024-01-09 and 2024-1-9, have the same key.  Sorting does not fail
    on records with such dates; and on well-formed records (all eight
    fields strings) with such dates neither the report nor the
    expiration view raises. *)
Theorem expiration_key_of_date_text (x : dict) (pad_m pad_d : bool) (y m d : nat) :
  datetime.valid_date y m d = true -> (y < 100 * 100)%nat ->
  (pad_m = false -> (m <= 9)%nat) -> (pad_d = false -> (d <= 9)%nat) ->
  cells x !! "expiration_date" = Some (VStr (date_text pad_m pad_d y m d)) ->
  expiration_key x = ok (Date y m d)
  /\ key_of x = Date y m d
  /\ (forall x' pad_m' pad_d',
        (pad_m' = false -> (m <= 9)%nat) -> (pad_d' = false -> (d <= 9)%nat) ->
        cells x' !! "expiration_date" = Some (VStr (date_text pad_m' pad_d' y m d)) ->
        expiration_key x' = expiration_key x)
  /\ (forall data, (forall x', In x' data -> dated x') ->
        sort_by_expiration_date data = ok (sorted_by_date data))
  /\ (forall data w, forallb well_formed data = true ->
        (forall x', In x' data -> dated x') ->
        (exists w', get_full_report data [] ∅ w = (ok VNone, w'))
        /\ (exists l w', get_expired_items data [] ∅ w = (ok l, w'))).
Proof.
  intros Hvalid Hy Hm Hd Hcell.
  assert (Hkey : forall x' pm pd,
            (pm = false -> (m <= 9)%nat) -> (pd = false -> (d <= 9)%nat) ->
            cells x' !! "expiration_date" = Some (VStr (date_text pm pd y m d)) ->
            expiration_key x' = ok (Date y m d)).
  { intros x' pm pd Hpm Hpd Hx'. unfold expiration_key, getitem. rewrite Hx'.
    cbn [rbind ok]. now apply strptime_date_text. }
  split; [now apply (Hkey x pad_m pad_d)|]. split; [|split; [|split]].
  - unfold key_of. now rewrite (Hkey x pad_m pad_d).
  - intros x' pm pd Hpm Hpd Hx'.
    now rewrite (Hkey x' pm pd), (Hkey x pad_m pad_d).
  - intros data Hdated. apply sort_by_expiration_date_sorted_by_date.
    intros x' Hx'. now apply dated_parses, Hdated.
  - intros data w Hwf Hdated.
    assert (Hparse : forall x', In x' data -> exists k, expiration_key x' = ok k)
      by (intros x' Hx'; now apply dated_parses, Hdated).
    split.
    + destruct data as [|d0 data0] eqn:E.
      * eexists. apply get_full_report_empty.
      * eexists. apply get_full_report_table; [discriminate | exact Hwf | exact Hparse].
    + eexists _, _. now apply get_expired_items_run.
Qed.

Lemma expiration_key_of_date_text_witness :
  expiration_key widget = ok (Date 2024 1 9)
  /\ expiration_key (setitem widget "expiration_date" (VStr "2024-1-9")) = ok (Date 2024 1 9).
Proof.
  split.
  - refine (proj1 (expiration_key_of_date_text widget true true 2024 1 9 _ _ _ _ _));
      (reflexivity || lia || discriminate).
  - refine (proj1 (expiration_key_of_date_text _ false false 2024 1 9 _ _ _ _ _));
      (reflexivity || lia).
Defined.

(** * The rest of the stated contract *)

(** ** What removing yields *)

Lemma kept_has_no_such_name (name : string) (rows : list dict) (d : dict) :
  In d (List.filter (fun d => negb (same_name_nocase name d)) rows)
  <-> In d rows /\ ~ named_nocase d name.
Proof.
  rewrite List.filter_In, negb_true_iff, <- not_true_iff_false.
  now rewrite same_name_nocase_spec.
Qed.

(** C1 -- [remove_item] writes the reduced set but does not yield it.
    On well-formed records with a record named exactly as asked, the
    set without the records of that name (case ignored) is written to
    the file; what the call yields is [None], and the list the caller
    passed holds every record it held before, so also the records of
    that name. *)
Theorem remove_item_yields_no_set (data : loc) (rows : list dict) (name : string)
    (w : World) :
  heap w !! data = Some rows ->
  forallb well_formed rows = true ->
  (exists d, In d rows /\ named d name) ->
  let kept := List.filter (fun d => negb (same_name_nocase name d)) rows in
  exists w',
    remove_item data [] {["item" := VStr name]} w = (ok VNone, w')
    /\ heap w' !! data = Some rows
    /\ (exists d, In d rows /\ named_nocase d name)
    /\ disk w' = Some (saved_text kept)
    /\ (forall d, In d kept <-> In d rows /\ ~ named_nocase d name)
    /\ kept <> rows.
Proof.
  intros Hheap Hwf Hsome kept. eexists.
  rewrite (remove_item_run data rows name w Hheap Hwf Hsome).
  assert (Hnocase : exists d, In d rows /\ named_nocase d name).
  { destruct Hsome as (d & Hd & Hnamed). exists d. split; [exact Hd|].
    exists name. split; [exact Hnamed | reflexivity]. }
  split; [reflexivity|]. split; [exact Hheap|]. split; [exact Hnocase|].
  split; [reflexivity|]. split; [apply kept_has_no_such_name|].
  intros Heq. destruct Hnocase as (d & Hd & Hnamed).
  rewrite <- Heq in Hd. apply kept_has_no_such_name in Hd as [_ Hd]. now apply Hd.
Qed.

Lemma remove_item_yields_no_set_witness :
  exists w',
    remove_item 0%nat [] {["item" := VStr "Widget"]} (world_with stock) = (ok VNone, w')
    /\ heap w' !! 0%nat = Some [widget; widget_lowercase; gadget]
    /\ disk w' = Some (saved_text [gadget]).
Proof.
  destruct (remove_item_yields_no_set 0%nat stock "Widget" (world_with stock))
    as (w' & Hrun & Hheap & _ & Hdisk & _).
  - reflexivity.
  - reflexivity.
  - exists widget. split; [now left | reflexivity].
  - exists w'. split; [exact Hrun|]. split; [exact Hheap | exact Hdisk].
Defined.

(** ** Saving and loading again *)

Lemma save_then_load_raises (good : list dict) (bad : dict) (others : list dict)
    (w : World) :
  forallb well_formed (good ++ bad :: others) = true ->
  loadable good = true ->
  forallb within_limit (row_strings bad) = false ->
  (save_data (good ++ bad :: others) ;; load_data) w
  = (raise csv_Error, set_disk w (Some (saved_text (good ++ bad :: others)))).
Proof.
  intros Hwf Hgood Hbad.
  erewrite bind_ok by (apply save_data_well_formed, Hwf).
  rewrite load_saved by exact Hwf. f_equal.
  unfold csv.DictReader_rows. rewrite map_app. cbn [map]. rewrite app_comm_cons.
  rewrite (read_rows_over (fieldnames :: map row_strings good) (row_strings bad)
             (map row_strings others)).
  - reflexivity.
  - cbn [forallb]. now rewrite fieldnames_within_limit, loadable_rows.
  - exact Hbad.
Qed.

(** C5 -- For every set of well-formed records none of whose fields is
    longer than 131072 characters, loading after saving returns the
    set exactly: the same records with the same field values, in the
    same order and in the same number, whatever the file held before
    and whatever characters the fields hold. *)
Theorem round_trip_within_field_limit (rows : list dict) (w : World) :
  forallb well_formed rows = true ->
  loadable rows = true ->
  let saved := set_disk w (Some (saved_text rows)) in
  save_data rows w = (ok tt, saved)
  /\ load_data saved = (ok rows, saved)
  /\ (save_data rows ;; load_data) w = (ok rows, saved).
Proof.
  intros Hwf Hlimit saved.
  assert (Hload : load_data saved = (ok rows, saved)).
  { unfold saved. rewrite load_saved by exact Hwf.
    rewrite DictReader_rows_written.
    - now rewrite loaded_rows.
    - cbn [forallb]. now rewrite fieldnames_within_limit, loadable_rows. }
  split; [now apply save_data_well_formed|]. split; [exact Hload|].
  erewrite bind_ok by (apply save_data_well_formed, Hwf). exact Hload.
Qed.

Lemma round_trip_within_field_limit_witness :
  (save_data (awkward :: stock) ;; load_data) (world_with [])
  = (ok (awkward :: stock),
     set_disk (world_with []) (Some (saved_text (awkward :: stock)))).
Proof.
  refine (proj2 (proj2 (round_trip_within_field_limit (awkward :: stock) (world_with [])
                          _ _))); reflexivity.
Defined.

(** C5, as first stated, fails: a well-formed record with a name of
    131073 characters is saved, and loading the file raises
    [csv.Error]. *)
Lemma round_trip_fails_beyond_field_limit :
  forallb well_formed [oversized] = true
  /\ (save_data [oversized] ;; load_data) (world_with [])
     = (raise csv_Error, set_disk (world_with []) (Some (saved_text [oversized]))).
Proof.
  split; [vm_compute; reflexivity|].
  apply (save_then_load_raises [] oversized [] (world_with [])).
  - vm_compute. reflexivity.
  - reflexivity.
  - vm_compute. reflexivity.
Qed.

(** ** What loading accepts *)




(** ** The expiration boundary *)

(** C8 -- The expiration filter is strict.  On well-formed records
    whose dates parse, [get_expired_items] returns exactly the records
    dated before today: when today is 2024-01-10, a record dated
    2024-01-09 is returned and a record dated 2024-01-10 is not.  When
    no record is dated before today it prints the notice, returns the
    empty list and does not raise. *)
Theorem expiration_filter_is_strict (data : list dict) (w : World) :
  forallb well_formed data = true ->
  (forall d, In d data -> exists k, expiration_key d = ok k) ->
  exists expired w',
    get_expired_items data [] ∅ w = (ok expired, w')
    /\ (forall d, In d expired
                  <-> In d data /\ datetime.ltb (key_of d) (today w) = true)
    /\ (today w = Date 2024 1 10 ->
        forall d, In d data ->
          (key_of d = Date 2024 1 9 -> In d expired)
          /\ (key_of d = Date 2024 1 10 -> ~ In d expired))
    /\ ((forall d, In d data -> datetime.ltb (key_of d) (today w) = false) ->
        expired = []
        /\ w' = add_out w (progress_output ++ ["No expired items found." +:+ nl])).
Proof.
  intros Hwf Hparse.
  pose proof (get_expired_items_run data w Hwf Hparse) as Hrun. cbv zeta in Hrun.
  assert (Hin : forall d, In d (sorted_by_date (expired_on (today w) data))
                          <-> In d data /\ datetime.ltb (key_of d) (today w) = true).
  { intros d. rewrite <- expired_on_In. split; intros Hd.
    - eapply Permutation_in; [symmetry; apply sorted_by_date_perm | exact Hd].
    - eapply Permutation_in; [apply sorted_by_date_perm | exact Hd]. }
  eexists _, _. split; [exact Hrun|]. split; [exact Hin|]. split.
  - intros Htoday d Hd. rewrite !Hin, Htoday. split.
    + intros ->. split; [exact Hd | reflexivity].
    + intros -> [_ H]. discriminate H.
  - intros Hnone.
    assert (Hnil : expired_on (today w) data = []).
    { destruct (expired_on (today w) data) as [|d l] eqn:E; [reflexivity|]. exfalso.
      assert (Hd : In d (expired_on (today w) data)) by (rewrite E; now left).
      apply expired_on_In in Hd as [Hd Hlt]. rewrite (Hnone d Hd) in Hlt. discriminate. }
    rewrite Hnil. split; reflexivity.
Qed.

Lemma expiration_filter_is_strict_witness :
  exists expired w',
    get_expired_items stock [] ∅ (world_with stock) = (ok expired, w')
    /\ In widget expired /\ ~ In widget_lowercase expired.
Proof.
  destruct (expiration_filter_is_strict stock (world_with stock))
    as (expired & w' & Hrun & _ & Hday & _).
  - reflexivity.
  - intros d [<-|[<-|[<-|[]]]]; eexists; reflexivity.
  - exists expired, w'. split; [exact Hrun|].
    split.
    + apply (Hday eq_refl widget); [now left | reflexivity].
    + apply (Hday eq_refl widget_lowercase); [right; now left | reflexivity].
Defined.

(** ** The order of the views *)

Lemma sorted_by_date_sorted (data : list dict) :
  StronglySorted (fun a b => date_le (key_of a) (key_of b)) (sorted_by_date data).
Proof.
  unfold sorted_by_date. apply StronglySorted_map_snd; [|apply sorted_sorted].
  apply tagged_consistent.
Qed.

Lemma sorted_by_date_stable (k : date) (data : list dict) :
  List.filter (fun d => bool_decide (key_of d = k)) (sorted_by_date data)
  = List.filter (fun d => bool_decide (key_of d = k)) data.
Proof.
  unfold sorted_by_date.
  rewrite filter_map_snd by apply tagged_consistent.
  rewrite sorted_stable.
  rewrite <- filter_map_snd
    by (intros p Hp; apply in_map_iff in Hp as (d & <- & _); reflexivity).
  rewrite map_map. cbn [snd]. now rewrite map_id.
Qed.

(** C9 -- The report and the expiration view list the records in
    ascending order of their parsed expiration dates, and the sort is
    stable.  On well-formed records whose dates parse, the report
    prints the lines of all records, and the expiration view returns
    the records dated before today, each in an order that rearranges
    the records, puts no record before one with an earlier date, and
    keeps the records of one and the same date in the order they had.
    For records dated 2024-01-01, 2023-06-01 and 2023-06-01, entered in
    this order, both views give the two records of 2023-06-01 first, in
    the order they were entered, and then the record of 2024-01-01. *)
Theorem views_sort_stably_by_date (data : list dict) (w : World) :
  forallb well_formed data = true ->
  (forall d, In d data -> exists k, expiration_key d = ok k) ->
  let in_order (before after : list dict) :=
    Permutation before after
    /\ StronglySorted (fun a b => date_le (key_of a) (key_of b)) after
    /\ forall k, List.filter (fun d => bool_decide (key_of d = k)) after
                 = List.filter (fun d => bool_decide (key_of d = k)) before in
  (exists listed,
     in_order data listed
     /\ sort_by_expiration_date data = ok listed
     /\ (data <> [] ->
         get_full_report data [] ∅ w
         = (ok VNone,
            add_out w (progress_output
                       ++ [(nl +:+ "Full Inventory Report") +:+ nl;
                           repeat_char "-" 71 +:+ nl;
                           header_row "|" " | " +:+ nl;
                           repeat_char "-" 71 +:+ nl]
                       ++ map (printed_row "|" " | ") listed
                       ++ [repeat_char "-" 71 +:+ nl]))))
  /\ (exists expired w',
        in_order (expired_on (today w) data) expired
        /\ get_expired_items data [] ∅ w = (ok expired, w')
        /\ (expired <> [] ->
            w' = add_out w (progress_output
                            ++ [(nl +:+ "Expired Items") +:+ nl;
                                repeat_char "-" 70 +:+ nl;
                                header_row "" " | " +:+ nl;
                                repeat_char "-" 70 +:+ nl]
                            ++ map (printed_row "" " | ") expired
                            ++ [repeat_char "-" 70 +:+ nl]))).
Proof.
  intros Hwf Hparse in_order.
  assert (Horder : forall l, in_order l (sorted_by_date l)).
  { intros l. split; [apply sorted_by_date_perm|].
    split; [apply sorted_by_date_sorted|]. intros k. apply sorted_by_date_stable. }
  split.
  - exists (sorted_by_date data). split; [apply Horder|].
    split; [now apply sort_by_expiration_date_sorted_by_date|].
    intros Hne. now apply get_full_report_table.
  - pose proof (get_expired_items_run data w Hwf Hparse) as Hrun. cbv zeta in Hrun.
    eexists _, _. split; [apply Horder|]. split; [exact Hrun|].
    intros Hne. destruct (expired_on (today w) data) as [|d l] eqn:E; [|reflexivity].
    now contradiction Hne.
Qed.

Lemma views_sort_stably_by_date_witness :
  let data := [january; june_first; june_second] in
  sort_by_expiration_date data = ok [june_first; june_second; january]
  /\ get_full_report data [] ∅ (world_with [])
     = (ok VNone,
        add_out (world_with [])
          (progress_output
           ++ [(nl +:+ "Full Inventory Report") +:+ nl;
               repeat_char "-" 71 +:+ nl;
               header_row "|" " | " +:+ nl;
               repeat_char "-" 71 +:+ nl]
           ++ map (printed_row "|" " | ") [june_first; june_second; january]
           ++ [repeat_char "-" 71 +:+ nl]))
  /\ (get_expired_items data [] ∅ (world_with [])).1
     = ok [june_first; june_second; january].
Proof.
  intros data.
  destruct (views_sort_stably_by_date data (world_with []))
    as [(listed & _ & Hsort & Hreport) (expired & w' & _ & Hrun & _)].
  - reflexivity.
  - intros d [<-|[<-|[<-|[]]]]; eexists; reflexivity.
  - assert (Hlisted : listed = [june_first; june_second; january]).
    { assert (H : ok listed = ok [june_first; june_second; january])
        by (rewrite <- Hsort; vm_compute; reflexivity).
      now injection H. }
    subst listed. split; [exact Hsort|]. split.
    + apply Hreport. discriminate.
    + vm_compute. reflexivity.
Defined.
